(** * Gemini-Cut: the video composition pipeline

    A shallow embedding of the plan normaliser
    ([editing/plan_validation.py]), of the filter-graph builders
    ([editing/ffmpeg_engine.py]) and of the option validation and render
    orchestration of [app.py], with the properties the specification
    states about them, followed by properties of the code around them:
    the steps of [process_job] before and after the render, the URL job
    with [media_ingest.py], the wiring of the filter graphs, and the
    requests of [ai/gemini_plan.py].

    Seconds are Python floats in the source.  They are modelled as exact
    rationals ([Q]): comparisons, [max]/[min], sums and differences are
    the source's, without rounding. *)

From Stdlib Require Import QArith Lqa List String Ascii Bool ZArith Lia.
From Stdlib Require Import Qabs Sorted Permutation DecimalString.
From Stdlib Require DecimalZ DecimalPos.
Import ListNotations.

Local Open Scope Q_scope.

(** ** Rational helpers *)

Definition Qlt_bool (x y : Q) : bool := negb (Qle_bool y x).

(** Python's [max(a, b)]: the first argument unless the second is
    strictly greater; [min(a, b)] likewise. *)
Definition py_max (a b : Q) : Q := if Qlt_bool a b then b else a.
Definition py_min (a b : Q) : Q := if Qlt_bool b a then b else a.

(** ** editing/plan_validation.py *)

Module PlanValidation.

(** A segment dict of the plan.  The keys ["start"] and ["end"] may be
    absent ([seg.get("start", 0)] supplies a default, [seg["start"]]
    raises [KeyError]); every other key travels in [seg_reason]. *)
Record segment : Type := mkSegment {
  seg_start : option Q;
  seg_end : option Q;
  seg_reason : string
}.

(** [float(seg.get("start", 0))] and [float(seg.get("end", 0))]. *)
Definition get_start (seg : segment) : Q :=
  match seg_start seg with Some q => q | None => 0 end.

Definition get_end (seg : segment) : Q :=
  match seg_end seg with Some q => q | None => 0 end.

(** [sorted(segments, key=...)]: Python's sort is stable, so it is the
    stable insertion sort on the key. *)
Fixpoint insert_by (key : segment -> Q) (x : segment) (l : list segment)
  : list segment :=
  match l with
  | [] => [x]
  | y :: l' =>
      if Qle_bool (key x) (key y) then x :: l else y :: insert_by key x l'
  end.

Fixpoint sorted (key : segment -> Q) (l : list segment) : list segment :=
  match l with
  | [] => []
  | x :: l' => insert_by key x (sorted key l')
  end.

(** The body of the [for seg in ordered] loop, from the current
    [last_end]; the result is what the loop appends to [normalized]. *)
Fixpoint normalize_loop (min_len last_end : Q) (ordered : list segment)
  : list segment :=
  match ordered with
  | [] => []
  | seg :: rest =>
      let start := get_start seg in
      let end_ := get_end seg in
      if Qle_bool end_ start then normalize_loop min_len last_end rest
      else
        let start := if Qlt_bool start last_end then last_end else start in
        if Qlt_bool (end_ - start) min_len
        then normalize_loop min_len last_end rest
        else {| seg_start := Some start;
                seg_end := Some end_;
                seg_reason := seg_reason seg |}
             :: normalize_loop min_len end_ rest
  end.

Definition normalize_segments (segments : list segment) (min_len : Q)
  : list segment :=
  let ordered := sorted get_start segments in
  normalize_loop min_len 0 ordered.

Definition default_min_len : Q := 4 # 10.

(** [seg["end"] - seg["start"]]; [None] is the [KeyError]. *)
Definition seg_len (seg : segment) : option Q :=
  match seg_start seg, seg_end seg with
  | Some s, Some e => Some (e - s)
  | _, _ => None
  end.

(** [sum(seg["end"] - seg["start"] for seg in segments)], accumulated
    from the left. *)
Fixpoint sum_from (acc : Q) (segments : list segment) : option Q :=
  match segments with
  | [] => Some acc
  | seg :: rest =>
      match seg_len seg with
      | Some d => sum_from (acc + d) rest
      | None => None
      end
  end.

Definition total_duration (segments : list segment) : option Q :=
  sum_from 0 segments.

(** The trimming loop from the current [running]: the segments appended
    to [trimmed] and the final [running]. *)
Fixpoint clamp_loop (target_s min_total running : Q) (segments : list segment)
  : option (list segment * Q) :=
  match segments with
  | [] => Some ([], running)
  | seg :: rest =>
      match seg_len seg, seg_start seg with
      | Some len, Some s =>
          if Qle_bool (running + len) target_s then
            match clamp_loop target_s min_total (running + len) rest with
            | Some (trimmed, r) => Some (seg :: trimmed, r)
            | None => None
            end
          else
            let remaining :=
              py_max (target_s - running) (min_total - running) in
            if Qle_bool (4 # 10) remaining then
              Some ([ {| seg_start := seg_start seg;
                         seg_end := Some (s + remaining);
                         seg_reason := seg_reason seg |} ],
                    running + remaining)
            else Some ([], running)
      | _, _ => None
      end
  end.

Definition clamp_duration_to_range
    (segments : list segment) (target_s min_total max_total : Q)
  : option (list segment * Q) :=
  match total_duration segments with
  | None => None
  | Some total =>
      if Qle_bool total max_total then Some (segments, total)
      else
        match clamp_loop target_s min_total 0 segments with
        | None => None
        | Some (trimmed, running) =>
            if Qlt_bool running min_total then Some (segments, total)
            else Some (trimmed, running)
        end
  end.

Definition default_min_total : Q := 30.
Definition default_max_total : Q := 60.

(** A segment with both keys present. *)
Definition seg (s e : Q) (r : string) : segment :=
  {| seg_start := Some s; seg_end := Some e; seg_reason := r |}.

End PlanValidation.

(** ** Python values shared by the modules *)

Local Open Scope string_scope.

(** The exceptions the modelled code raises or receives. *)
Inductive exn : Type :=
| HTTPException (status_code : Z) (detail : string)
| RuntimeError (msg : string)
| KeyError (key : string)
| ValueError (msg : string)
| CalledProcessError (returncode : Z) (cmd : list string)
| OSError (msg : string).

(** A call either returns or raises. *)
Inductive res (A : Type) : Type :=
| Ok (a : A)
| Raise (e : exn).
Arguments Ok {A} a.
Arguments Raise {A} e.

(** An [int] or a [float], as [str()] prints them differently. *)
Inductive pynum : Type :=
| PyInt (z : Z)
| PyFloat (q : Q).

Module Str.

Definition newline : string := String "010"%char EmptyString.

(** [str(n)] of an [int]. *)
Definition str_int (z : Z) : string := NilZero.string_of_int (Z.to_int z).
Definition str_nat (n : nat) : string := str_int (Z.of_nat n).

(** [sep.join(parts)]. *)
Definition join (sep : string) (parts : list string) : string :=
  String.concat sep parts.

(** Membership in a set of strings. *)
Definition mem (x : string) (allowed : list string) : bool :=
  existsb (String.eqb x) allowed.

Definition memZ (x : Z) (allowed : list Z) : bool :=
  existsb (Z.eqb x) allowed.

(** A dict with string keys and values, as a literal lists it. *)
Fixpoint lookup (key : string) (d : list (string * string)) : option string :=
  match d with
  | [] => None
  | (k, v) :: d' => if String.eqb key k then Some v else lookup key d'
  end.

(** The characters [str.strip()] removes, among the ASCII ones: tab to
    carriage return, the four separators 28 to 31, and space. *)
Definition is_space (c : ascii) : bool :=
  let n := nat_of_ascii c in
  ((9 <=? n) && (n <=? 13) || (28 <=? n) && (n <=? 32))%nat.

Fixpoint lstrip (s : string) : string :=
  match s with
  | EmptyString => EmptyString
  | String c s' => if is_space c then lstrip s' else s
  end.

(** [rstrip] keeps a character when something other than white space
    follows it. *)
Fixpoint rstrip (s : string) : string :=
  match s with
  | EmptyString => EmptyString
  | String c s' =>
      match rstrip s' with
      | EmptyString => if is_space c then EmptyString else String c EmptyString
      | t => String c t
      end
  end.

Definition strip (s : string) : string := rstrip (lstrip s).

(** [str.lower()] on ASCII letters; other characters are kept. *)
Definition lower_char (c : ascii) : ascii :=
  let n := nat_of_ascii c in
  if ((65 <=? n) && (n <=? 90))%nat then ascii_of_nat (n + 32) else c.

Fixpoint lower (s : string) : string :=
  match s with
  | EmptyString => EmptyString
  | String c s' => String (lower_char c) (lower s')
  end.

(** [s.replace(c, by)] for a one-character pattern. *)
Fixpoint replace_char (c : ascii) (by_ : string) (s : string) : string :=
  match s with
  | EmptyString => EmptyString
  | String d s' =>
      if Ascii.eqb c d then by_ ++ replace_char c by_ s'
      else String d (replace_char c by_ s')
  end.

(** [s.split(c)[0]]: the text before the first [c]. *)
Fixpoint before_char (c : ascii) (s : string) : string :=
  match s with
  | EmptyString => EmptyString
  | String d s' => if Ascii.eqb c d then EmptyString else String d (before_char c s')
  end.

(** Truth value of a string. *)
Definition truthy (s : string) : bool :=
  match s with EmptyString => false | _ => true end.

Definition truthy_opt (s : option string) : bool :=
  match s with Some t => truthy t | None => false end.

(** [run_dir / name]. *)
Definition path_join (dir name : string) : string := dir ++ "/" ++ name.

(** [path.parent]: the text before the last ["/"]; ["."] when the path
    has none and ["/"] when only the root precedes the name.
    [parent_split] gives the parent and whether a ["/"] was met. *)
Fixpoint parent_split (s : string) : string * bool :=
  match s with
  | EmptyString => (EmptyString, false)
  | String c s' =>
      let (p, found) := parent_split s' in
      if found then (String c p, true)
      else if Ascii.eqb c "/" then (EmptyString, true)
      else (EmptyString, false)
  end.

Definition parent (path : string) : string :=
  match parent_split path with
  | (p, true) => if truthy p then p else "/"
  | (_, false) => "."
  end.

End Str.

(** [int(x)] of a [float]: truncation towards zero. *)
Definition int_of_float (q : Q) : Z := Z.quot (Qnum q) (Zpos (Qden q)).

(** ** The option bag

    [opts] is one flat dict per job.  Its keys are the fields of
    [options], with the types the request form of [start_job] declares
    for them; a key read with [opts.get] may be absent and is an
    [option].  The keys the modelled code never reads are kept together
    in [other_keys]. *)

Module Options.

(** An entry of [opts["sfx_items"]]. *)
Record sfx_item : Type := mkSfx {
  item_path : string;
  item_start : option Q;
  item_volume : option Q
}.

Record options : Type := mkOptions {
  duration_s : Z;
  platform : string;
  style : string;
  cut_intensity : string;
  language : string;
  captions : string;
  resolution : string;
  content_preset : string;
  output_resolution : string;
  reframe_mode : string;
  fps : Z;
  filters_enabled : bool;
  filter_preset : string;
  brightness : option Q;
  contrast : option Q;
  saturation : option Q;
  gamma : option Q;
  sharpness : option Q;
  denoise : bool;
  vignette : bool;
  grain : bool;
  captions_enabled : bool;
  caption_template : string;
  caption_position : string;
  caption_size : string;
  caption_safe_margin : option Z;
  transition_type : option string;
  transition_duration : option Q;
  audio_enhance : bool;
  audio_loudnorm : bool;
  audio_compressor : bool;
  audio_denoise : bool;
  voiceover_enabled : bool;
  voiceover_path : option string;
  voiceover_speed : option Q;
  voiceover_mode : option string;
  voiceover_pre_sped : bool;
  music_enabled : bool;
  music_file : option string;
  music_volume : option Q;
  music_ducking : bool;
  sfx_items : list sfx_item;
  ai_visuals_enabled : bool;
  ai_visuals_max_overlays : option Z;
  ai_visuals_transparent_png : option bool;
  notify_email : option string;
  target_width : option Z;
  target_height : option Z;
  other_keys : list (string * string)
}.

(** [opts["transition_type"] = v]. *)
Definition set_transition_type (v : option string) (o : options) : options :=
  {| duration_s := duration_s o;
     platform := platform o;
     style := style o;
     cut_intensity := cut_intensity o;
     language := language o;
     captions := captions o;
     resolution := resolution o;
     content_preset := content_preset o;
     output_resolution := output_resolution o;
     reframe_mode := reframe_mode o;
     fps := fps o;
     filters_enabled := filters_enabled o;
     filter_preset := filter_preset o;
     brightness := brightness o;
     contrast := contrast o;
     saturation := saturation o;
     gamma := gamma o;
     sharpness := sharpness o;
     denoise := denoise o;
     vignette := vignette o;
     grain := grain o;
     captions_enabled := captions_enabled o;
     caption_template := caption_template o;
     caption_position := caption_position o;
     caption_size := caption_size o;
     caption_safe_margin := caption_safe_margin o;
     transition_type := v;
     transition_duration := transition_duration o;
     audio_enhance := audio_enhance o;
     audio_loudnorm := audio_loudnorm o;
     audio_compressor := audio_compressor o;
     audio_denoise := audio_denoise o;
     voiceover_enabled := voiceover_enabled o;
     voiceover_path := voiceover_path o;
     voiceover_speed := voiceover_speed o;
     voiceover_mode := voiceover_mode o;
     voiceover_pre_sped := voiceover_pre_sped o;
     music_enabled := music_enabled o;
     music_file := music_file o;
     music_volume := music_volume o;
     music_ducking := music_ducking o;
     sfx_items := sfx_items o;
     ai_visuals_enabled := ai_visuals_enabled o;
     ai_visuals_max_overlays := ai_visuals_max_overlays o;
     ai_visuals_transparent_png := ai_visuals_transparent_png o;
     notify_email := notify_email o;
     target_width := target_width o;
     target_height := target_height o;
     other_keys := other_keys o |}.

(** [opts["ai_visuals_enabled"] = v]. *)
Definition set_ai_visuals_enabled (v : bool) (o : options) : options :=
  {| duration_s := duration_s o;
     platform := platform o;
     style := style o;
     cut_intensity := cut_intensity o;
     language := language o;
     captions := captions o;
     resolution := resolution o;
     content_preset := content_preset o;
     output_resolution := output_resolution o;
     reframe_mode := reframe_mode o;
     fps := fps o;
     filters_enabled := filters_enabled o;
     filter_preset := filter_preset o;
     brightness := brightness o;
     contrast := contrast o;
     saturation := saturation o;
     gamma := gamma o;
     sharpness := sharpness o;
     denoise := denoise o;
     vignette := vignette o;
     grain := grain o;
     captions_enabled := captions_enabled o;
     caption_template := caption_template o;
     caption_position := caption_position o;
     caption_size := caption_size o;
     caption_safe_margin := caption_safe_margin o;
     transition_type := transition_type o;
     transition_duration := transition_duration o;
     audio_enhance := audio_enhance o;
     audio_loudnorm := audio_loudnorm o;
     audio_compressor := audio_compressor o;
     audio_denoise := audio_denoise o;
     voiceover_enabled := voiceover_enabled o;
     voiceover_path := voiceover_path o;
     voiceover_speed := voiceover_speed o;
     voiceover_mode := voiceover_mode o;
     voiceover_pre_sped := voiceover_pre_sped o;
     music_enabled := music_enabled o;
     music_file := music_file o;
     music_volume := music_volume o;
     music_ducking := music_ducking o;
     sfx_items := sfx_items o;
     ai_visuals_enabled := v;
     ai_visuals_max_overlays := ai_visuals_max_overlays o;
     ai_visuals_transparent_png := ai_visuals_transparent_png o;
     notify_email := notify_email o;
     target_width := target_width o;
     target_height := target_height o;
     other_keys := other_keys o |}.

(** [opts["captions_enabled"] = v]. *)
Definition set_captions_enabled (v : bool) (o : options) : options :=
  {| duration_s := duration_s o;
     platform := platform o;
     style := style o;
     cut_intensity := cut_intensity o;
     language := language o;
     captions := captions o;
     resolution := resolution o;
     content_preset := content_preset o;
     output_resolution := output_resolution o;
     reframe_mode := reframe_mode o;
     fps := fps o;
     filters_enabled := filters_enabled o;
     filter_preset := filter_preset o;
     brightness := brightness o;
     contrast := contrast o;
     saturation := saturation o;
     gamma := gamma o;
     sharpness := sharpness o;
     denoise := denoise o;
     vignette := vignette o;
     grain := grain o;
     captions_enabled := v;
     caption_template := caption_template o;
     caption_position := caption_position o;
     caption_size := caption_size o;
     caption_safe_margin := caption_safe_margin o;
     transition_type := transition_type o;
     transition_duration := transition_duration o;
     audio_enhance := audio_enhance o;
     audio_loudnorm := audio_loudnorm o;
     audio_compressor := audio_compressor o;
     audio_denoise := audio_denoise o;
     voiceover_enabled := voiceover_enabled o;
     voiceover_path := voiceover_path o;
     voiceover_speed := voiceover_speed o;
     voiceover_mode := voiceover_mode o;
     voiceover_pre_sped := voiceover_pre_sped o;
     music_enabled := music_enabled o;
     music_file := music_file o;
     music_volume := music_volume o;
     music_ducking := music_ducking o;
     sfx_items := sfx_items o;
     ai_visuals_enabled := ai_visuals_enabled o;
     ai_visuals_max_overlays := ai_visuals_max_overlays o;
     ai_visuals_transparent_png := ai_visuals_transparent_png o;
     notify_email := notify_email o;
     target_width := target_width o;
     target_height := target_height o;
     other_keys := other_keys o |}.

(** [opts["target_width"] = v]. *)
Definition set_target_width (v : option Z) (o : options) : options :=
  {| duration_s := duration_s o;
     platform := platform o;
     style := style o;
     cut_intensity := cut_intensity o;
     language := language o;
     captions := captions o;
     resolution := resolution o;
     content_preset := content_preset o;
     output_resolution := output_resolution o;
     reframe_mode := reframe_mode o;
     fps := fps o;
     filters_enabled := filters_enabled o;
     filter_preset := filter_preset o;
     brightness := brightness o;
     contrast := contrast o;
     saturation := saturation o;
     gamma := gamma o;
     sharpness := sharpness o;
     denoise := denoise o;
     vignette := vignette o;
     grain := grain o;
     captions_enabled := captions_enabled o;
     caption_template := caption_template o;
     caption_position := caption_position o;
     caption_size := caption_size o;
     caption_safe_margin := caption_safe_margin o;
     transition_type := transition_type o;
     transition_duration := transition_duration o;
     audio_enhance := audio_enhance o;
     audio_loudnorm := audio_loudnorm o;
     audio_compressor := audio_compressor o;
     audio_denoise := audio_denoise o;
     voiceover_enabled := voiceover_enabled o;
     voiceover_path := voiceover_path o;
     voiceover_speed := voiceover_speed o;
     voiceover_mode := voiceover_mode o;
     voiceover_pre_sped := voiceover_pre_sped o;
     music_enabled := music_enabled o;
     music_file := music_file o;
     music_volume := music_volume o;
     music_ducking := music_ducking o;
     sfx_items := sfx_items o;
     ai_visuals_enabled := ai_visuals_enabled o;
     ai_visuals_max_overlays := ai_visuals_max_overlays o;
     ai_visuals_transparent_png := ai_visuals_transparent_png o;
     notify_email := notify_email o;
     target_width := v;
     target_height := target_height o;
     other_keys := other_keys o |}.

(** [opts["target_height"] = v]. *)
Definition set_target_height (v : option Z) (o : options) : options :=
  {| duration_s := duration_s o;
     platform := platform o;
     style := style o;
     cut_intensity := cut_intensity o;
     language := language o;
     captions := captions o;
     resolution := resolution o;
     content_preset := content_preset o;
     output_resolution := output_resolution o;
     reframe_mode := reframe_mode o;
     fps := fps o;
     filters_enabled := filters_enabled o;
     filter_preset := filter_preset o;
     brightness := brightness o;
     contrast := contrast o;
     saturation := saturation o;
     gamma := gamma o;
     sharpness := sharpness o;
     denoise := denoise o;
     vignette := vignette o;
     grain := grain o;
     captions_enabled := captions_enabled o;
     caption_template := caption_template o;
     caption_position := caption_position o;
     caption_size := caption_size o;
     caption_safe_margin := caption_safe_margin o;
     transition_type := transition_type o;
     transition_duration := transition_duration o;
     audio_enhance := audio_enhance o;
     audio_loudnorm := audio_loudnorm o;
     audio_compressor := audio_compressor o;
     audio_denoise := audio_denoise o;
     voiceover_enabled := voiceover_enabled o;
     voiceover_path := voiceover_path o;
     voiceover_speed := voiceover_speed o;
     voiceover_mode := voiceover_mode o;
     voiceover_pre_sped := voiceover_pre_sped o;
     music_enabled := music_enabled o;
     music_file := music_file o;
     music_volume := music_volume o;
     music_ducking := music_ducking o;
     sfx_items := sfx_items o;
     ai_visuals_enabled := ai_visuals_enabled o;
     ai_visuals_max_overlays := ai_visuals_max_overlays o;
     ai_visuals_transparent_png := ai_visuals_transparent_png o;
     notify_email := notify_email o;
     target_width := target_width o;
     target_height := v;
     other_keys := other_keys o |}.

(** [opts["other_keys"] = v]. *)
Definition set_other_keys (v : list (string * string)) (o : options) : options :=
  {| duration_s := duration_s o;
     platform := platform o;
     style := style o;
     cut_intensity := cut_intensity o;
     language := language o;
     captions := captions o;
     resolution := resolution o;
     content_preset := content_preset o;
     output_resolution := output_resolution o;
     reframe_mode := reframe_mode o;
     fps := fps o;
     filters_enabled := filters_enabled o;
     filter_preset := filter_preset o;
     brightness := brightness o;
     contrast := contrast o;
     saturation := saturation o;
     gamma := gamma o;
     sharpness := sharpness o;
     denoise := denoise o;
     vignette := vignette o;
     grain := grain o;
     captions_enabled := captions_enabled o;
     caption_template := caption_template o;
     caption_position := caption_position o;
     caption_size := caption_size o;
     caption_safe_margin := caption_safe_margin o;
     transition_type := transition_type o;
     transition_duration := transition_duration o;
     audio_enhance := audio_enhance o;
     audio_loudnorm := audio_loudnorm o;
     audio_compressor := audio_compressor o;
     audio_denoise := audio_denoise o;
     voiceover_enabled := voiceover_enabled o;
     voiceover_path := voiceover_path o;
     voiceover_speed := voiceover_speed o;
     voiceover_mode := voiceover_mode o;
     voiceover_pre_sped := voiceover_pre_sped o;
     music_enabled := music_enabled o;
     music_file := music_file o;
     music_volume := music_volume o;
     music_ducking := music_ducking o;
     sfx_items := sfx_items o;
     ai_visuals_enabled := ai_visuals_enabled o;
     ai_visuals_max_overlays := ai_visuals_max_overlays o;
     ai_visuals_transparent_png := ai_visuals_transparent_png o;
     notify_email := notify_email o;
     target_width := target_width o;
     target_height := target_height o;
     other_keys := v |}.

(** [opts["voiceover_path"] = v]. *)
Definition set_voiceover_path (v : option string) (o : options) : options :=
  {| duration_s := duration_s o;
     platform := platform o;
     style := style o;
     cut_intensity := cut_intensity o;
     language := language o;
     captions := captions o;
     resolution := resolution o;
     content_preset := content_preset o;
     output_resolution := output_resolution o;
     reframe_mode := reframe_mode o;
     fps := fps o;
     filters_enabled := filters_enabled o;
     filter_preset := filter_preset o;
     brightness := brightness o;
     contrast := contrast o;
     saturation := saturation o;
     gamma := gamma o;
     sharpness := sharpness o;
     denoise := denoise o;
     vignette := vignette o;
     grain := grain o;
     captions_enabled := captions_enabled o;
     caption_template := caption_template o;
     caption_position := caption_position o;
     caption_size := caption_size o;
     caption_safe_margin := caption_safe_margin o;
     transition_type := transition_type o;
     transition_duration := transition_duration o;
     audio_enhance := audio_enhance o;
     audio_loudnorm := audio_loudnorm o;
     audio_compressor := audio_compressor o;
     audio_denoise := audio_denoise o;
     voiceover_enabled := voiceover_enabled o;
     voiceover_path := v;
     voiceover_speed := voiceover_speed o;
     voiceover_mode := voiceover_mode o;
     voiceover_pre_sped := voiceover_pre_sped o;
     music_enabled := music_enabled o;
     music_file := music_file o;
     music_volume := music_volume o;
     music_ducking := music_ducking o;
     sfx_items := sfx_items o;
     ai_visuals_enabled := ai_visuals_enabled o;
     ai_visuals_max_overlays := ai_visuals_max_overlays o;
     ai_visuals_transparent_png := ai_visuals_transparent_png o;
     notify_email := notify_email o;
     target_width := target_width o;
     target_height := target_height o;
     other_keys := other_keys o |}.

(** [opts["notify_email"] = v]. *)
Definition set_notify_email (v : option string) (o : options) : options :=
  {| duration_s := duration_s o;
     platform := platform o;
     style := style o;
     cut_intensity := cut_intensity o;
     language := language o;
     captions := captions o;
     resolution := resolution o;
     content_preset := content_preset o;
     output_resolution := output_resolution o;
     reframe_mode := reframe_mode o;
     fps := fps o;
     filters_enabled := filters_enabled o;
     filter_preset := filter_preset o;
     brightness := brightness o;
     contrast := contrast o;
     saturation := saturation o;
     gamma := gamma o;
     sharpness := sharpness o;
     denoise := denoise o;
     vignette := vignette o;
     grain := grain o;
     captions_enabled := captions_enabled o;
     caption_template := caption_template o;
     caption_position := caption_position o;
     caption_size := caption_size o;
     caption_safe_margin := caption_safe_margin o;
     transition_type := transition_type o;
     transition_duration := transition_duration o;
     audio_enhance := audio_enhance o;
     audio_loudnorm := audio_loudnorm o;
     audio_compressor := audio_compressor o;
     audio_denoise := audio_denoise o;
     voiceover_enabled := voiceover_enabled o;
     voiceover_path := voiceover_path o;
     voiceover_speed := voiceover_speed o;
     voiceover_mode := voiceover_mode o;
     voiceover_pre_sped := voiceover_pre_sped o;
     music_enabled := music_enabled o;
     music_file := music_file o;
     music_volume := music_volume o;
     music_ducking := music_ducking o;
     sfx_items := sfx_items o;
     ai_visuals_enabled := ai_visuals_enabled o;
     ai_visuals_max_overlays := ai_visuals_max_overlays o;
     ai_visuals_transparent_png := ai_visuals_transparent_png o;
     notify_email := v;
     target_width := target_width o;
     target_height := target_height o;
     other_keys := other_keys o |}.

End Options.

(** ** app.py: option validation *)

Module Validation.
Import Options.

Definition ALLOWED_PLATFORMS : list string := ["Shorts"; "TikTok"; "Reels"].
Definition ALLOWED_STYLES : list string :=
  ["Energique"; "Pro"; "Storytelling"; "Tutorial"].
Definition ALLOWED_CUTS : list string := ["Soft"; "Medium"; "Hard"].
Definition ALLOWED_LANGS : list string := ["FR"; "EN"].
Definition ALLOWED_CAPTIONS : list string := ["ON"; "OFF"].
Definition ALLOWED_RES : list string := ["1080x1920"; "720x1280"].
Definition ALLOWED_PRESETS : list string :=
  ["auto"; "podcast"; "facecam"; "screen"; "vlog"].
Definition ALLOWED_REFRAME : list string := ["center"; "smart"].
Definition ALLOWED_FPS : list Z := [24%Z; 30%Z; 60%Z].
Definition ALLOWED_FILTERS : list string :=
  ["none"; "clean"; "cinematic"; "vibrant"; "bw"; "retro"; "sharp"; "soft"].
Definition ALLOWED_CAPTION_TEMPLATES : list string :=
  ["tiktok_bold"; "minimal"; "creator"; "high_contrast"].
Definition ALLOWED_CAPTION_POSITIONS : list string := ["bottom"; "center"; "top"].
Definition ALLOWED_CAPTION_SIZES : list string := ["sm"; "md"; "lg"].
Definition ALLOWED_TRANSITIONS : list string :=
  ["auto"; "none"; "fade"; "crossfade"; "dip_black"; "swipe"].
Definition ALLOWED_VOICEOVER_MODES : list string := ["replace"; "mix"; "duck"].

Definition aliases : list (string * string) :=
  [ ("auto (gemini)", "auto");
    ("auto_gemini", "auto");
    ("cross-fade", "crossfade");
    ("cross fade", "crossfade");
    ("dip to black", "dip_black");
    ("dip_black", "dip_black");
    ("swipe", "swipe");
    ("fade", "fade");
    ("none", "none");
    ("auto", "auto") ].

Definition normalize_transition_type (value : option string) : string :=
  match value with
  | None => "auto"
  | Some v =>
      let normalized := Str.lower (Str.strip v) in
      match Str.lookup normalized aliases with
      | Some a => a
      | None => normalized
      end
  end.

Definition bad_request (detail : string) : exn := HTTPException 400 detail.

(** [x not in ALLOWED] for a key read with [opts.get]: [None] is in no
    set. *)
Definition mem_opt (x : option string) (allowed : list string) : bool :=
  match x with Some v => Str.mem v allowed | None => false end.

(** [validate_opts(opts)].  The dict is updated in place, so the result
    carries the dict as the call leaves it, also when it raises.
    [int(opts["fps"])] is [fps opts]: the form declares [fps] an
    [int]. *)
Definition validate_opts (opts : options) : res unit * options :=
  if (duration_s opts <? 30)%Z || (60 <? duration_s opts)%Z then
    (Raise (bad_request "Duration must be 30-60 seconds."), opts)
  else if negb (Str.mem (platform opts) ALLOWED_PLATFORMS) then
    (Raise (bad_request "Invalid platform."), opts)
  else if negb (Str.mem (style opts) ALLOWED_STYLES) then
    (Raise (bad_request "Invalid style."), opts)
  else if negb (Str.mem (cut_intensity opts) ALLOWED_CUTS) then
    (Raise (bad_request "Invalid cut intensity."), opts)
  else if negb (Str.mem (language opts) ALLOWED_LANGS) then
    (Raise (bad_request "Invalid language."), opts)
  else if negb (Str.mem (captions opts) ALLOWED_CAPTIONS) then
    (Raise (bad_request "Invalid captions option."), opts)
  else if negb (Str.mem (resolution opts) ALLOWED_RES) then
    (Raise (bad_request "Invalid resolution."), opts)
  else if negb (Str.mem (content_preset opts) ALLOWED_PRESETS) then
    (Raise (bad_request "Invalid content preset."), opts)
  else if negb (Str.mem (output_resolution opts) ALLOWED_RES) then
    (Raise (bad_request "Invalid output resolution."), opts)
  else if negb (Str.mem (reframe_mode opts) ALLOWED_REFRAME) then
    (Raise (bad_request "Invalid reframe mode."), opts)
  else if negb (Str.memZ (fps opts) ALLOWED_FPS) then
    (Raise (bad_request "Invalid fps."), opts)
  else if negb (Str.mem (filter_preset opts) ALLOWED_FILTERS) then
    (Raise (bad_request "Invalid filter preset."), opts)
  else if negb (Str.mem (caption_template opts) ALLOWED_CAPTION_TEMPLATES) then
    (Raise (bad_request "Invalid caption template."), opts)
  else if negb (Str.mem (caption_position opts) ALLOWED_CAPTION_POSITIONS) then
    (Raise (bad_request "Invalid caption position."), opts)
  else if negb (Str.mem (caption_size opts) ALLOWED_CAPTION_SIZES) then
    (Raise (bad_request "Invalid caption size."), opts)
  else
    let opts :=
      set_transition_type
        (Some (normalize_transition_type (transition_type opts))) opts in
    let opts :=
      if negb (mem_opt (transition_type opts) ALLOWED_TRANSITIONS)
      then set_transition_type (Some "auto") opts
      else opts in
    if negb (mem_opt (voiceover_mode opts) ALLOWED_VOICEOVER_MODES) then
      (Raise (bad_request "Invalid voiceover mode."), opts)
    else (Ok tt, opts).

End Validation.

(** ** The outside world

    Everything the pipeline does outside the interpreter is a [syscall]:
    running a process, touching a file, calling a collaborator.  The
    platform answers each one from its own state, so a call may succeed
    or raise at any time; [trace] keeps the calls in the order they were
    made. *)

Module Effects.

(** An overlay item, as [generate_visual_assets] returns it. *)
Record overlay : Type := mkOverlay {
  ov_path : string;
  ov_start : Q;
  ov_end : Q;
  ov_placement : option string
}.

(** A video stream as [ffprobe] describes it. *)
Record stream_info : Type := mkStreamInfo {
  width : option Z;
  height : option Z;
  r_frame_rate : option string
}.

Inductive syscall : Type :=
| Subprocess (cmd : list string)
| Which (program : string)
| PathExists (path : string)
| WriteText (path text : string)
| AppendText (path text : string)
| AppendBytes (path data : string)
| PathReplace (src dst : string)
| Mkdir (path : string)
| GenerateVisualAssets
    (suggestions out_dir : string) (max_overlays : Z) (transparent_png : bool)
| BuildAss
    (srt resolution template position size : string) (margin : option Z)
| SendReadyEmail (to_email job_id : string).

(** What a call gives back; each caller reads the fields it asked for
    ([stdout] is also the text [build_ass] returns). *)
Record reply : Type := mkReply {
  raised : option exn;
  returncode : Z;
  stdout : string;
  stderr : string;
  truth : bool;
  overlays : list overlay
}.

(** The platform: the operating system and the collaborators, and the
    library functions whose results the model does not compute. *)
Class Platform (E : Type) : Type := {
  sys : syscall -> E -> reply * E;
  str_float : Q -> string;
  float_of_string : string -> option Q;
  int_of_string : string -> option Z;
  json_streams : string -> res (list stream_info);
  str_exn : exn -> string;
  format_exc : exn -> string
}.

(** An entry of the job registry [JOBS]. *)
Record job : Type := mkJob {
  status : string;
  progress : Z;
  error : option string;
  output : option string
}.

Record world (E : Type) : Type := mkWorld {
  env : E;
  trace : list syscall;
  JOBS : list (string * job)
}.
Arguments mkWorld {E} env trace JOBS.
Arguments env {E} w.
Arguments trace {E} w.
Arguments JOBS {E} w.

(** A computation over the world that returns or raises. *)
Definition M (E A : Type) : Type := world E -> res A * world E.

Definition ret {E A} (a : A) : M E A := fun w => (Ok a, w).

Definition raise {E A} (e : exn) : M E A := fun w => (Raise e, w).

Definition bind {E A B} (c : M E A) (k : A -> M E B) : M E B :=
  fun w =>
    match c w with
    | (Ok a, w') => k a w'
    | (Raise e, w') => (Raise e, w')
    end.

(** [try: c  except Exception as e: handler(e)]. *)
Definition try_except {E A} (c : M E A) (handler : exn -> M E A) : M E A :=
  fun w =>
    match c w with
    | (Ok a, w') => (Ok a, w')
    | (Raise e, w') => handler e w'
    end.

Declare Scope monad_scope.
Delimit Scope monad_scope with monad.
Notation "x <- c ;; k" := (bind c (fun x => k))
  (at level 61, c at next level, right associativity) : monad_scope.
Notation "c ;;; k" := (bind c (fun _ => k))
  (at level 61, right associativity) : monad_scope.

(** A loop body run over a list, in order, stopping at the first raise. *)
Fixpoint for_each {E A} (body : A -> M E unit) (l : list A) : M E unit :=
  match l with
  | [] => ret tt
  | a :: l' => bind (body a) (fun _ => for_each body l')
  end.

(** The results of a body run over a list, in order. *)
Fixpoint map_m {E A B} (body : A -> M E B) (l : list A) : M E (list B) :=
  match l with
  | [] => ret []
  | a :: l' =>
      bind (body a) (fun b => bind (map_m body l') (fun bs => ret (b :: bs)))
  end.

Section Calls.
Context {E : Type} {P : Platform E}.

(** One call to the platform. *)
Definition call (c : syscall) : M E reply :=
  fun w =>
    let (r, e') := sys c (env w) in
    let w' := mkWorld e' (trace w ++ [c])%list (JOBS w) in
    match raised r with
    | Some x => (Raise x, w')
    | None => (Ok r, w')
    end.

End Calls.

End Effects.

(** ** editing/ffmpeg_engine.py

    The source writes every stage of a filter graph as one formatted
    string.  The model keeps a stage as a value ([xfade], [vstage],
    [astage]) and prints it with the source's format when the command
    line is assembled, so that the wiring of a graph can be stated on
    the stages. *)

Module FfmpegEngine.
Import Options Effects.
Local Open Scope monad_scope.

(** A cross-fade of the running result [xf_last] with input [xf_idx]. *)
Record xfade : Type := mkXfade {
  xf_last : string;
  xf_idx : nat;
  xf_transition : string;
  xf_duration : Q;
  xf_offset : Q
}.

(** An overlay of input [vo_idx] on [vo_last], shown between two times. *)
Record vstage : Type := mkVstage {
  vo_last : string;
  vo_idx : nat;
  vo_x : string;
  vo_y : string;
  vo_from : Q;
  vo_to : Q
}.

(** A stage of the audio graph, from its input pads to its output pad. *)
Inductive astage : Type :=
| Atempo (src : string) (speed : Q) (dst : string)
| Amix (srcs : list string) (dst : string)
| Sidechaincompress (main control dst : string)
| DelayVolume (src : string) (start_ms : Z) (volume : Q) (dst : string)
| Volume (src : string) (vol : Q) (dst : string)
| Filters (src chain dst : string).

Definition transitions : list (string * string) :=
  [ ("fade", "fade");
    ("crossfade", "fade");
    ("dip_black", "fadeblack");
    ("swipe", "wipeleft") ].

(** The [for idx in range(1, len(clip_paths))] loop: [rest] holds
    [durations[idx:]]. *)
Fixpoint xfade_loop (transition : string) (duration : Q)
    (idx : nat) (last : string) (offset : Q) (rest : list Q)
  : list xfade * string :=
  match rest with
  | [] => ([], last)
  | d :: rest' =>
      let stage := mkXfade last idx transition duration offset in
      let last := ("[v" ++ Str.str_nat idx ++ "]")%string in
      let offset := offset + (d - duration) in
      let (stages, final) :=
        xfade_loop transition duration (S idx) last offset rest' in
      (stage :: stages, final)
  end.

(** The filter graph of [apply_transitions] for probed [durations], and
    the label mapped to the output.  [durations[0]] exists: the graph is
    built for two clips or more. *)
Definition xfade_graph (transition_type : string) (duration : Q)
    (durations : list Q) : list xfade * string :=
  let transition :=
    match Str.lookup transition_type transitions with
    | Some t => t
    | None => "fade"
    end in
  match durations with
  | [] => ([], "[0:v]")
  | d0 :: rest =>
      xfade_loop transition duration 1 "[0:v]" (d0 - duration) rest
  end.

(** [inputs += ["-i", str(path)]] for every path. *)
Definition input_args (paths : list string) : list string :=
  flat_map (fun p => ["-i"; p]) paths.

Definition overlay_stage_of (last : string) (idx : nat) (ov : overlay) : vstage :=
  let top_right :=
    match ov_placement ov with
    | None => true
    | Some p => String.eqb p "top_right"
    end in
  mkVstage last idx
    (if top_right then "W-w-40" else "40")
    (if top_right then "40" else "H-h-40")
    (ov_start ov) (ov_end ov).

(** The [for idx, overlay in enumerate(overlays, start=1)] loop. *)
Fixpoint overlay_loop (idx : nat) (last : string) (items : list overlay)
  : list vstage * string :=
  match items with
  | [] => ([], last)
  | ov :: items' =>
      let stage := overlay_stage_of last idx ov in
      let (stages, final) :=
        overlay_loop (S idx) ("[v" ++ Str.str_nat idx ++ "]")%string items' in
      (stage :: stages, final)
  end.

(** The enhancement chain of [render_final]. *)
Definition audio_filters (opts : options) : list string :=
  ((if audio_enhance opts then ["loudnorm"; "compand"] else [])
   ++ (if audio_loudnorm opts then ["loudnorm"] else [])
   ++ (if audio_compressor opts then ["compand"] else [])
   ++ (if audio_denoise opts then ["afftdn"] else []))%list.

(** [opts.get("voiceover_path") if opts.get("voiceover_enabled") else None],
    with its truth value. *)
Definition voiceover_input (opts : options) : option string :=
  if voiceover_enabled opts then
    match voiceover_path opts with
    | Some p => if Str.truthy p then Some p else None
    | None => None
    end
  else None.

Definition music_input (opts : options) : option string :=
  if music_enabled opts then
    match music_file opts with
    | Some p => if Str.truthy p then Some p else None
    | None => None
    end
  else None.

Definition voiceover_idx (opts : options) : option nat :=
  match voiceover_input opts with Some _ => Some 1%nat | None => None end.

Definition music_idx (opts : options) : option nat :=
  match music_input opts with
  | Some _ =>
      Some (match voiceover_input opts with Some _ => 2%nat | None => 1%nat end)
  | None => None
  end.

Definition audio_pad (idx : nat) : string :=
  ("[" ++ Str.str_nat idx ++ ":a]")%string.

Definition Qabs_gt (x bound : Q) : bool := Qlt_bool bound (Qabs x).

(** The voiceover block: the stages it appends and the new
    [voice_label]. *)
Definition voiceover_stages (opts : options) : list astage * string :=
  match voiceover_idx opts with
  | None => ([], "[0:a]")
  | Some idx =>
      let voiceover_speed :=
        match voiceover_speed opts with Some q => q | None => 1 end in
      let '(tempo, voice_input) :=
        if negb (voiceover_pre_sped opts)
           && Qabs_gt (voiceover_speed - 1) (1 # 100)
        then
          let speed := py_max (5 # 10) (py_min 2 voiceover_speed) in
          ([Atempo (audio_pad idx) speed "[vo]"], "[vo]")
        else ([], audio_pad idx) in
      let mode :=
        match voiceover_mode opts with Some m => m | None => "replace" end in
      if String.eqb mode "replace" then (tempo, voice_input)
      else if String.eqb mode "mix" then
        ((tempo ++ [Amix ["[0:a]"; voice_input] "[voice]"])%list, "[voice]")
      else
        ((tempo ++ [Sidechaincompress "[0:a]" voice_input "[ducked]";
                    Amix ["[ducked]"; voice_input] "[voice]"])%list,
         "[voice]")
  end.

(** The [for offset, item in enumerate(sfx_items)] loop. *)
Fixpoint sfx_loop (sfx_start offset : nat) (items : list sfx_item)
  : list astage * list string :=
  match items with
  | [] => ([], [])
  | item :: items' =>
      let idx := (sfx_start + offset)%nat in
      let start_ms :=
        int_of_float
          ((match item_start item with Some q => q | None => 0 end) * 1000) in
      let volume :=
        match item_volume item with Some q => q | None => 8 # 10 end in
      let label := ("sfx" ++ Str.str_nat offset)%string in
      let stage :=
        DelayVolume (audio_pad idx) start_ms volume ("[" ++ label ++ "]") in
      let (stages, labels) := sfx_loop sfx_start (S offset) items' in
      (stage :: stages, ("[" ++ label ++ "]")%string :: labels)
  end.

Definition sfx_stages (opts : options) (voice_label : string)
  : list astage * string :=
  match sfx_items opts with
  | [] => ([], voice_label)
  | items =>
      let sfx_start :=
        match music_idx opts with
        | Some m => (m + 1)%nat
        | None =>
            match voiceover_idx opts with
            | Some v => (v + 1)%nat
            | None => 1%nat
            end
        end in
      let (stages, sfx_labels) := sfx_loop sfx_start 0 items in
      let inputs := voice_label :: sfx_labels in
      ((stages ++ [Amix inputs "[voice_sfx]"])%list, "[voice_sfx]")
  end.

Definition music_stages (opts : options) (voice_label : string)
  : list astage * string :=
  match music_idx opts with
  | Some idx =>
      let music_vol :=
        match music_volume opts with Some q => q | None => 15 # 100 end in
      let volume := Volume (audio_pad idx) music_vol "[music]" in
      if music_ducking opts then
        ([volume;
          Sidechaincompress "[music]" voice_label "[ducked]";
          Amix [voice_label; "[ducked]"] "[aout]"], "[aout]")
      else
        ([volume; Amix [voice_label; "[music]"] "[aout]"], "[aout]")
  | None => ([], voice_label)
  end.

(** [filter_complex] and [audio_map] as [render_final] leaves them. *)
Definition audio_graph (opts : options) : list astage * string :=
  let (voice, voice_label) := voiceover_stages opts in
  let (sfx, voice_label) := sfx_stages opts voice_label in
  let (music, audio_map) := music_stages opts voice_label in
  let filter_complex := (voice ++ sfx ++ music)%list in
  match audio_filters opts with
  | [] => (filter_complex, audio_map)
  | chain =>
      ((filter_complex ++ [Filters audio_map (Str.join "," chain) "[afinal]"])%list,
       "[afinal]")
  end.

Section WithPlatform.
Context {E : Type} {P : Platform E}.

(** The formatted strings of the source. *)
Definition show_xfade (s : xfade) : string :=
  xf_last s ++ "[" ++ Str.str_nat (xf_idx s) ++ ":v]xfade=transition="
  ++ xf_transition s ++ ":duration=" ++ str_float (xf_duration s)
  ++ ":offset=" ++ str_float (xf_offset s)
  ++ "[v" ++ Str.str_nat (xf_idx s) ++ "]".

Definition show_vstage (s : vstage) : string :=
  vo_last s ++ "[" ++ Str.str_nat (vo_idx s) ++ ":v]overlay="
  ++ vo_x s ++ ":" ++ vo_y s ++ ":enable='between(t,"
  ++ str_float (vo_from s) ++ "," ++ str_float (vo_to s) ++ ")'"
  ++ "[v" ++ Str.str_nat (vo_idx s) ++ "]".

Definition show_astage (s : astage) : string :=
  match s with
  | Atempo src speed dst => src ++ "atempo=" ++ str_float speed ++ dst
  | Amix srcs dst =>
      Str.join "" srcs ++ "amix=inputs=" ++ Str.str_nat (List.length srcs)
      ++ ":duration=first:dropout_transition=2" ++ dst
  | Sidechaincompress main control dst =>
      main ++ control ++ "sidechaincompress=threshold=0.08:ratio=8" ++ dst
  | DelayVolume src start_ms volume dst =>
      src ++ "adelay=" ++ Str.str_int start_ms ++ "|" ++ Str.str_int start_ms
      ++ ",volume=" ++ str_float volume ++ dst
  | Volume src vol dst => src ++ "volume=" ++ str_float vol ++ dst
  | Filters src chain dst => src ++ chain ++ dst
  end.

Definition str_num (n : pynum) : string :=
  match n with
  | PyInt z => Str.str_int z
  | PyFloat q => str_float q
  end.

Definition _run (cmd : list string) (cmd_log stderr_log : string) : M E unit :=
  found <- call (PathExists cmd_log) ;;
  (if truth found then ret tt
   else (_ <- call (WriteText cmd_log "") ;; ret tt)) ;;;
  call (AppendText cmd_log (Str.join " " cmd ++ Str.newline)) ;;;
  result <- call (Subprocess cmd) ;;
  (if Str.truthy (stderr result)
   then (_ <- call (AppendBytes stderr_log (stderr result ++ Str.newline)) ;;
         ret tt)
   else ret tt) ;;;
  if (returncode result =? 0)%Z then ret tt
  else raise (RuntimeError "FFmpeg command failed.").

Definition probe_duration_cmd (path : string) : list string :=
  ["ffprobe"; "-v"; "error"; "-show_entries"; "format=duration";
   "-of"; "default=noprint_wrappers=1:nokey=1"; path].

Definition _probe_duration (path : string) : M E Q :=
  result <- call (Subprocess (probe_duration_cmd path)) ;;
  let text := Str.strip (stdout result) in
  if Str.truthy text then
    match float_of_string text with
    | Some q => ret q
    | None => raise (ValueError "could not convert string to float")
    end
  else ret 0.

Definition default_presets : list (string * (pynum * pynum * pynum * pynum)) :=
  [ ("clean", (PyFloat (2 # 100), PyFloat (105 # 100), PyFloat (105 # 100), PyFloat 1));
    ("cinematic", (PyFloat (-3 # 100), PyFloat (11 # 10), PyFloat (95 # 100), PyFloat (95 # 100)));
    ("vibrant", (PyFloat (5 # 100), PyFloat (11 # 10), PyFloat (12 # 10), PyFloat 1));
    ("bw", (PyFloat 0, PyFloat 1, PyFloat 0, PyFloat 1));
    ("retro", (PyFloat (2 # 100), PyFloat (95 # 100), PyFloat (9 # 10), PyFloat (105 # 100)));
    ("sharp", (PyFloat 0, PyFloat (115 # 100), PyFloat (105 # 100), PyFloat 1));
    ("soft", (PyFloat 0, PyFloat (95 # 100), PyFloat (95 # 100), PyFloat 1)) ].

Fixpoint preset_lookup (key : string)
    (d : list (string * (pynum * pynum * pynum * pynum)))
  : pynum * pynum * pynum * pynum :=
  match d with
  | [] => (PyInt 0, PyInt 1, PyInt 1, PyInt 1)
  | (k, v) :: d' => if String.eqb key k then v else preset_lookup key d'
  end.

Definition or_default (x : option Q) (d : pynum) : pynum :=
  match x with Some q => PyFloat q | None => d end.

Definition build_video_filter (opts : options) : string :=
  let target_width :=
    match target_width opts with Some z => z | None => 1080%Z end in
  let target_height :=
    match target_height opts with Some z => z | None => 1920%Z end in
  let scale :=
    "scale=w='min(iw," ++ Str.str_int target_width ++ ")':h='min(ih,"
    ++ Str.str_int target_height ++ ")'"
    ++ ":force_original_aspect_ratio=decrease" in
  let pad :=
    "pad=" ++ Str.str_int target_width ++ ":" ++ Str.str_int target_height
    ++ ":(ow-iw)/2:(oh-ih)/2" ++ ":color=black" in
  let filters := [scale; pad] in
  let filters :=
    if filters_enabled opts then
      let '(b0, c0, s0, g0) := preset_lookup (filter_preset opts) default_presets in
      let eq :=
        "eq=brightness=" ++ str_num (or_default (brightness opts) b0)
        ++ ":contrast=" ++ str_num (or_default (contrast opts) c0)
        ++ ":saturation=" ++ str_num (or_default (saturation opts) s0)
        ++ ":gamma=" ++ str_num (or_default (gamma opts) g0) in
      let sharp := match sharpness opts with Some q => q | None => 0 end in
      (filters ++ [eq]
       ++ (if Qlt_bool 0 sharp
           then [("unsharp=3:3:" ++ Str.str_int (int_of_float (sharp * 2)))%string]
           else [])
       ++ (if denoise opts then ["hqdn3d=1.5:1.5:6:6"] else [])
       ++ (if vignette opts then ["vignette=0.4"] else [])
       ++ (if grain opts then ["noise=alls=10:allf=t"] else []))%list
    else filters in
  Str.join "," filters.

Definition concat_list_text (clip_paths : list string) : string :=
  Str.join "" (map (fun clip => "file '" ++ clip ++ "'" ++ Str.newline) clip_paths).

Definition concat_cmd (concat_list output_path : string) : list string :=
  ["ffmpeg"; "-y"; "-f"; "concat"; "-safe"; "0"; "-i"; concat_list;
   "-c"; "copy"; output_path].

Definition concat_clips (clip_paths : list string)
    (output_path cmd_log stderr_log : string) : M E unit :=
  let concat_list := Str.path_join (Str.parent output_path) "concat.txt" in
  call (WriteText concat_list (concat_list_text clip_paths)) ;;;
  _run (concat_cmd concat_list output_path) cmd_log stderr_log.

Definition xfade_cmd (clip_paths : list string)
    (graph : list xfade * string) (output_path : string) : list string :=
  (["ffmpeg"; "-y"] ++ input_args clip_paths
   ++ ["-filter_complex"; Str.join ";" (map show_xfade (fst graph));
       "-map"; snd graph; "-an"; output_path])%list.

Definition apply_transitions (clip_paths : list string)
    (transition_type : string) (duration : Q)
    (output_path cmd_log stderr_log : string) : M E unit :=
  if String.eqb transition_type "none" || (List.length clip_paths <? 2)%nat
  then concat_clips clip_paths output_path cmd_log stderr_log
  else
    durations <- map_m _probe_duration clip_paths ;;
    let graph := xfade_graph transition_type duration durations in
    _run (xfade_cmd clip_paths graph output_path) cmd_log stderr_log.

Definition overlay_cmd (base_path : string) (items : list overlay)
    (output_path : string) : list string :=
  let (stages, last) := overlay_loop 1 "[0:v]" items in
  (["ffmpeg"; "-y"] ++ ["-i"; base_path] ++ input_args (map ov_path items)
   ++ ["-filter_complex"; Str.join ";" (map show_vstage stages);
       "-map"; last; "-c:v"; "libx264"; "-preset"; "medium"; "-crf"; "20";
       output_path])%list.

Definition apply_overlays (base_path : string) (items : list overlay)
    (output_path cmd_log stderr_log : string) : M E unit :=
  match items with
  | [] => _ <- call (PathReplace base_path output_path) ;; ret tt
  | _ => _run (overlay_cmd base_path items output_path) cmd_log stderr_log
  end.

Definition render_final_cmd (base_path : string) (captions_ass : option string)
    (opts : options) (output_path : string) : list string :=
  let filters :=
    match captions_ass with
    | Some p => ["subtitles='" ++ Str.replace_char ":" "\\:" p ++ "'"]
    | None => []
    end in
  let audio_filter_arg := Str.join "," (audio_filters opts) in
  let cmd := ["ffmpeg"; "-y"; "-i"; base_path] in
  let cmd :=
    match voiceover_input opts with
    | Some p => (cmd ++ ["-i"; p])%list
    | None => cmd
    end in
  let cmd :=
    match music_input opts with
    | Some p => (cmd ++ ["-stream_loop"; "-1"; "-i"; p])%list
    | None => cmd
    end in
  let cmd := (cmd ++ input_args (map item_path (sfx_items opts)))%list in
  let cmd :=
    match filters with
    | [] => cmd
    | _ => (cmd ++ ["-vf"; Str.join "," filters])%list
    end in
  let (filter_complex, audio_map) := audio_graph opts in
  let cmd :=
    match filter_complex with
    | _ :: _ =>
        (cmd ++ ["-filter_complex"; Str.join ";" (map show_astage filter_complex);
                 "-map"; "0:v"; "-map"; audio_map])%list
    | [] =>
        match audio_filters opts with
        | [] => cmd
        | _ => (cmd ++ ["-af"; audio_filter_arg])%list
        end
    end in
  (cmd ++ ["-c:v"; "libx264"; "-preset"; "slow"; "-crf"; "18";
           "-c:a"; "aac"; "-b:a"; "192k"; output_path])%list.

Definition render_final (base_path : string) (captions_ass : option string)
    (opts : options) (output_path cmd_log stderr_log : string) : M E unit :=
  _run (render_final_cmd base_path captions_ass opts output_path)
       cmd_log stderr_log.

End WithPlatform.

End FfmpegEngine.

(** ** app.py: the render pipeline and the job *)

Module App.
Import PlanValidation Options Effects FfmpegEngine.
Local Open Scope monad_scope.

(** The keys of the plan the pipeline reads. *)
Record plan : Type := mkPlan {
  plan_captions_srt : option string;
  plan_ai_visual_suggestions : string;
  plan_transition : option string
}.

(** A computation on a dict it was handed: besides returning or raising
    it leaves the dict, which the caller still holds, as it last wrote
    it. *)
Definition MD (E A : Type) : Type := world E -> (res A * options) * world E.

(** [job.update(fields)] for the keyword arguments of one [update_job]
    call. *)
Record job_fields : Type := mkFields {
  f_status : option string;
  f_progress : option Z;
  f_error : option string;
  f_output : option string
}.

Definition job_update (fields : job_fields) (j : job) : job :=
  {| status := match f_status fields with Some s => s | None => status j end;
     progress := match f_progress fields with Some p => p | None => progress j end;
     error := match f_error fields with Some e => Some e | None => error j end;
     output := match f_output fields with Some o => Some o | None => output j end |}.

(** [JOBS.get(job_id)] and the update of the entry found. *)
Fixpoint jobs_get (job_id : string) (jobs : list (string * job)) : option job :=
  match jobs with
  | [] => None
  | (k, j) :: jobs' => if String.eqb job_id k then Some j else jobs_get job_id jobs'
  end.

Fixpoint jobs_update (job_id : string) (fields : job_fields)
    (jobs : list (string * job)) : list (string * job) :=
  match jobs with
  | [] => []
  | (k, j) :: jobs' =>
      if String.eqb job_id k then (k, job_update fields j) :: jobs'
      else (k, j) :: jobs_update job_id fields jobs'
  end.

(** [output_info.get("width", 0) < source_info.get("width", 0) or
    output_info.get("height", 0) < source_info.get("height", 0)]. *)
Definition resolution_lower (output_info source_info : stream_info) : bool :=
  let get (x : option Z) := match x with Some z => z | None => 0%Z end in
  (get (width output_info) <? get (width source_info))%Z
  || (get (height output_info) <? get (height source_info))%Z.

(** [{**opts, "ai_visuals_enabled": False, "transition_type": "none"}]. *)
Definition fallback_of (opts : options) : options :=
  set_transition_type (Some "none") (set_ai_visuals_enabled false opts).

Section WithPlatform.
Context {E : Type} {P : Platform E}.
Variable RUNS_DIR : string.

Definition update_job (job_id : string) (fields : job_fields) : M E unit :=
  fun w =>
    match jobs_get job_id (JOBS w) with
    | None => (Ok tt, w)
    | Some _ =>
        (Ok tt, mkWorld (env w) (trace w) (jobs_update job_id fields (JOBS w)))
    end.

Definition ensure_ffmpeg_available : M E unit :=
  found <- call (Which "ffmpeg") ;;
  if truth found then ret tt
  else raise (RuntimeError
                "FFmpeg not found. Please install FFmpeg and ensure it is in PATH.").

Definition inspect_cmd (path : string) : list string :=
  ["ffprobe"; "-v"; "error"; "-select_streams"; "v:0"; "-show_entries";
   "stream=width,height,r_frame_rate"; "-of"; "json"; path].

Definition inspect_video (path : string) : M E stream_info :=
  result <- call (Subprocess (inspect_cmd path)) ;;
  let text := if Str.truthy (stdout result) then stdout result else "{}" in
  match json_streams text with
  | Raise e => raise e
  | Ok [] => ret (mkStreamInfo (Some 0%Z) (Some 0%Z) (Some "0/0"))
  | Ok (stream :: _) => ret stream
  end.

(** utils/logging.py *)
Definition init_job_dir (run_root job_id : string) : M E string :=
  let run_dir := Str.path_join run_root job_id in
  _ <- call (Mkdir (Str.path_join run_dir "assets")) ;;
  ret run_dir.

Definition append_log (path message : string) : M E unit :=
  _ <- call (AppendText path (Str.rstrip message ++ Str.newline)) ;;
  ret tt.

(** [subprocess.run(cmd, check=True, capture_output=True)]. *)
Definition run_checked (cmd : list string) : M E unit :=
  result <- call (Subprocess cmd) ;;
  if (returncode result =? 0)%Z then ret tt
  else raise (CalledProcessError (returncode result) cmd).

Definition clip_cmd (seg_start seg_end source_path filter_chain fps clip_path : string)
  : list string :=
  ["ffmpeg"; "-y"; "-ss"; seg_start; "-to"; seg_end; "-i"; source_path;
   "-vf"; filter_chain; "-r"; fps;
   "-c:v"; "libx264"; "-preset"; "slow"; "-crf"; "18";
   "-c:a"; "aac"; "-b:a"; "192k"; clip_path].

(** The [for idx, seg in enumerate(segments)] loop, from index [idx];
    the result is what it appends to [clip_paths]. *)
Fixpoint make_clips (source_path filter_chain fps run_dir : string)
    (idx : nat) (segments : list segment) : M E (list string) :=
  match segments with
  | [] => ret []
  | sg :: rest =>
      let clip_path :=
        Str.path_join run_dir ("clip_" ++ Str.str_nat idx ++ ".mp4") in
      match seg_start sg, seg_end sg with
      | None, _ => raise (KeyError "start")
      | Some _, None => raise (KeyError "end")
      | Some s, Some e =>
          run_checked (clip_cmd (str_float s) (str_float e) source_path
                         filter_chain fps clip_path) ;;;
          clips <- make_clips source_path filter_chain fps run_dir (S idx) rest ;;
          ret (clip_path :: clips)
      end
  end.

(** The lines of [render_video_pipeline] up to the two writes to
    [opts]: the dict with [target_width] and [target_height] set. *)
Definition resolve_target (source_path : string) (opts : options)
  : M E options :=
  ensure_ffmpeg_available ;;;
  source_info <- inspect_video source_path ;;
  match width source_info with
  | None => raise (KeyError "width")
  | Some source_width =>
      match int_of_string (Str.before_char "x" (output_resolution opts)) with
      | None => raise (ValueError "invalid literal for int()")
      | Some requested =>
          let target_width := Z.max source_width requested in
          let target_height := Z.quot (target_width * 16) 9 in
          ret (set_target_height (Some target_height)
                 (set_target_width (Some target_width) opts))
      end
  end.

(** The transition block: [apply_transitions] inside its
    [try/except Exception]. *)
Definition join_clips (clip_paths : list string) (opts : options)
    (concat_output cmd_log stderr_log : string) : M E unit :=
  let transition_type :=
    match transition_type opts with Some t => t | None => "none" end in
  let transition_duration :=
    match transition_duration opts with Some d => d | None => 3 # 10 end in
  try_except
    (apply_transitions clip_paths transition_type transition_duration
       concat_output cmd_log stderr_log)
    (fun _ => concat_clips clip_paths concat_output cmd_log stderr_log).

(** The rest of [render_video_pipeline]; [opts] is only read from here
    on. *)
Definition render_resolved (source_path : string) (segments : list segment)
    (opts : options) (pl : plan) (run_dir : string) : M E string :=
  let cmd_log := Str.path_join run_dir "ffmpeg_commands.txt" in
  let stderr_log := Str.path_join run_dir "ffmpeg_stderr.log" in
  let filter_chain := build_video_filter opts in
  let fps := Str.str_int (fps opts) in
  clip_paths <- make_clips source_path filter_chain fps run_dir 0 segments ;;
  let concat_output := Str.path_join run_dir "concat.mp4" in
  join_clips clip_paths opts concat_output cmd_log stderr_log ;;;
  items <-
    (if ai_visuals_enabled opts then
       r <- call (GenerateVisualAssets
                    (plan_ai_visual_suggestions pl)
                    (Str.path_join run_dir "assets")
                    (match ai_visuals_max_overlays opts with
                     | Some n => n | None => 2%Z end)
                    (match ai_visuals_transparent_png opts with
                     | Some b => b | None => true end)) ;;
       ret (overlays r)
     else ret []) ;;
  let overlay_output := Str.path_join run_dir "overlay.mp4" in
  overlay_output <-
    try_except
      (apply_overlays concat_output items overlay_output cmd_log stderr_log ;;;
       ret overlay_output)
      (fun _ => ret concat_output) ;;
  captions_ass <-
    (if captions_enabled opts && Str.truthy_opt (plan_captions_srt pl) then
       r <- call (BuildAss
                    (match plan_captions_srt pl with Some s => s | None => "" end)
                    (output_resolution opts) (caption_template opts)
                    (caption_position opts) (caption_size opts)
                    (caption_safe_margin opts)) ;;
       let captions_ass := Str.path_join run_dir "captions.ass" in
       _ <- call (WriteText captions_ass (stdout r)) ;;
       ret (Some captions_ass)
     else ret None) ;;
  let output_path := Str.path_join run_dir "final.mp4" in
  render_final overlay_output captions_ass opts output_path cmd_log stderr_log ;;;
  ret output_path.

Definition render_video_pipeline (source_path : string)
    (segments : list segment) (opts : options) (pl : plan) (run_dir : string)
  : MD E string :=
  fun w =>
    match resolve_target source_path opts w with
    | (Raise e, w1) => ((Raise e, opts), w1)
    | (Ok opts1, w1) =>
        let (r, w2) := render_resolved source_path segments opts1 pl run_dir w1 in
        ((r, opts1), w2)
    end.

(** The rendering block of [process_job]: the three nested attempts.
    The first works on [opts] itself, the other two on the one copy
    [fallback_opts]; the result carries [opts] as the block leaves it. *)
Definition render_with_fallback (render_source : string)
    (segments : list segment) (opts : options) (pl : plan) (run_dir : string)
  : MD E string :=
  fun w =>
    match render_video_pipeline render_source segments opts pl run_dir w with
    | ((Ok output_path, opts1), w1) => ((Ok output_path, opts1), w1)
    | ((Raise _, opts1), w1) =>
        let fallback_opts := fallback_of opts1 in
        match render_video_pipeline render_source segments fallback_opts
                pl run_dir w1 with
        | ((Ok output_path, _), w2) => ((Ok output_path, opts1), w2)
        | ((Raise _, fallback_opts), w2) =>
            let fallback_opts := set_captions_enabled false fallback_opts in
            let '((r, _), w3) :=
              render_video_pipeline render_source segments fallback_opts
                pl run_dir w2 in
            ((r, opts1), w3)
        end
    end.

Definition integrity_error : exn :=
  RuntimeError "Output resolution lower than source.".

(** The lines of [process_job] after a render attempt has succeeded. *)
Definition finish_job (job_id render_source output_path : string)
    (opts : options) (run_dir : string) : M E unit :=
  output_info <- inspect_video output_path ;;
  source_info <- inspect_video render_source ;;
  if resolution_lower output_info source_info then raise integrity_error
  else
    update_job job_id
      (mkFields (Some "done") (Some 100%Z) None (Some output_path)) ;;;
    match notify_email opts with
    | Some to_email =>
        if Str.truthy to_email then
          try_except
            (_ <- call (SendReadyEmail to_email job_id) ;; ret tt)
            (fun exc =>
               append_log (Str.path_join run_dir "server.log")
                 ("EMAIL ERROR: " ++ str_exn exc))
        else ret tt
    | None => ret tt
    end.

(** The handler of the [try] that spans [process_job]. *)
Definition fail_job (job_id : string) (exc : exn) : M E unit :=
  run_dir <- init_job_dir RUNS_DIR job_id ;;
  append_log (Str.path_join run_dir "server.log") ("ERROR: " ++ str_exn exc) ;;;
  append_log (Str.path_join run_dir "server.log") (format_exc exc) ;;;
  update_job job_id
    (mkFields (Some "error") (Some 100%Z) (Some (str_exn exc)) None).

(** [process_job] from [update_job(job_id, status="rendering", ...)] to
    its end, with the state the lines before it have built: the render
    source, the normalised segments, the options, the plan and the job
    directory. *)
Definition process_job_rendering (job_id render_source : string)
    (segments : list segment) (opts : options) (pl : plan) (run_dir : string)
  : M E unit :=
  try_except
    (update_job job_id (mkFields (Some "rendering") (Some 80%Z) None None) ;;;
     fun w =>
       match render_with_fallback render_source segments opts pl run_dir w with
       | ((Raise e, _), w1) => (Raise e, w1)
       | ((Ok output_path, opts1), w1) =>
           finish_job job_id render_source output_path opts1 run_dir w1
       end)
    (fail_job job_id).

End WithPlatform.

End App.

(** ** app.py and media_ingest.py: the steps around the render *)

Module AppFlow.
Import PlanValidation Options Effects Validation App.
Local Open Scope monad_scope.

(** The transition block of [process_job]: an ["auto"] or ["none"]
    choice is replaced by the plan's suggestion when that is an allowed
    transition other than ["none"], and by ["fade"] otherwise. *)
Definition resolve_transition (opts : options) (suggested : option string)
  : options :=
  if mem_opt (transition_type opts) ["auto"; "none"] then
    match suggested with
    | Some s =>
        if Str.mem s ALLOWED_TRANSITIONS && negb (String.eqb s "none")
        then set_transition_type (Some s) opts
        else set_transition_type (Some "fade") opts
    | None => set_transition_type (Some "fade") opts
    end
  else opts.

(** The key whose absence makes [seg["end"] - seg["start"]] raise, for
    the first segment that lacks one. *)
Fixpoint first_missing_key (segments : list segment) : string :=
  match segments with
  | [] => "start"
  | sg :: rest =>
      match seg_end sg, seg_start sg with
      | None, _ => "end"
      | Some _, None => "start"
      | Some _, Some _ => first_missing_key rest
      end
  end.

(** The segment block of [process_job]: normalise the plan's segments,
    refuse fewer than two, clamp the rest to the requested duration. *)
Definition prepare_segments (plan_segments : list segment) (duration_s : Z)
  : res (list segment) :=
  let segments := normalize_segments plan_segments default_min_len in
  if (List.length segments <? 2)%nat then
    Raise (RuntimeError "Plan returned insufficient segments.")
  else
    match clamp_duration_to_range segments (inject_Z duration_s)
            default_min_total default_max_total with
    | Some (segments, _) => Ok segments
    | None => Raise (KeyError (first_missing_key segments))
    end.

(** [f"{n:02}"] and [f"{n:03}"]: the digits, padded with zeros to the
    width, the sign counted in the width. *)
Fixpoint zeros (n : nat) : string :=
  match n with
  | O => EmptyString
  | S n' => String "0" (zeros n')
  end.

Definition zero_pad (width : nat) (z : Z) : string :=
  let sign := if (z <? 0)%Z then "-" else "" in
  let digits := Str.str_int (Z.abs z) in
  sign ++ zeros (width - String.length sign - String.length digits) ++ digits.

(** The four numbers [format_srt_time] prints: hours, minutes, seconds,
    milliseconds.  [//] and [%] round towards minus infinity. *)
Definition srt_fields (seconds : Q) : Z * Z * Z * Z :=
  let millis := int_of_float (seconds * 1000) in
  let hours := (millis / 3600000)%Z in
  let millis := (millis mod 3600000)%Z in
  let minutes := (millis / 60000)%Z in
  let millis := (millis mod 60000)%Z in
  let secs := (millis / 1000)%Z in
  let ms := (millis mod 1000)%Z in
  (hours, minutes, secs, ms).

Definition format_srt_time (seconds : Q) : string :=
  let '(hours, minutes, secs, ms) := srt_fields seconds in
  zero_pad 2 hours ++ ":" ++ zero_pad 2 minutes ++ ":" ++ zero_pad 2 secs
  ++ "," ++ zero_pad 3 ms.

(** The [for word in words] loop of [build_srt_from_stt], with the
    current [chunk]: the groups it appends to [segments], the last one
    by the [if chunk] after the loop. *)
Fixpoint group_words {A : Type} (chunk : list A) (words : list A)
  : list (list A) :=
  match words with
  | [] => match chunk with [] => [] | _ => [chunk] end
  | word :: rest =>
      let chunk := (chunk ++ [word])%list in
      if (6 <=? List.length chunk)%nat then chunk :: group_words [] rest
      else group_words chunk rest
  end.

(** [d[key] = value] on a dict of strings. *)
Fixpoint dict_set (key value : string) (d : list (string * string))
  : list (string * string) :=
  match d with
  | [] => [(key, value)]
  | (k, v) :: d' =>
      if String.eqb key k then (k, value) :: d'
      else (k, v) :: dict_set key value d'
  end.

(** media_ingest.py *)
Record IngestError : Type := mkIngestError {
  code : string;
  message : string
}.

(** [str(exc)]: the constructor passes [message or code] on. *)
Definition ingest_str (exc : IngestError) : string :=
  if Str.truthy (message exc) then message exc else code exc.

Definition sanitize_url_for_logs (url : string) : string := url.

(** [download_url] raises whatever it is given; the model returns the
    exception it raises. *)
Definition download_url (_url _output_path : string) : IngestError :=
  mkIngestError "platform_download_disabled" "URL download is disabled.".

Section WithPlatform.
Context {E : Type} {P : Platform E}.
Variable RUNS_DIR : string.
Variable UPLOADS_DIR : string.

(** [apply_audio_speed]: the speed is clamped to 0.5..2 before it is
    printed into the [atempo] filter. *)
Definition apply_audio_speed_cmd (source_audio output_audio : string)
    (speed : Q) : list string :=
  let speed := py_max (5 # 10) (py_min 2 speed) in
  ["ffmpeg"; "-y"; "-i"; source_audio;
   "-filter:a"; "atempo=" ++ str_float speed; output_audio].

Definition apply_audio_speed (source_audio output_audio : string) (speed : Q)
  : M E unit :=
  ensure_ffmpeg_available ;;;
  run_checked (apply_audio_speed_cmd source_audio output_audio speed).

(** The lines of the voiceover block of [process_job] that follow the
    write of the synthesised [voiceover.mp3]: the file is sped when the
    requested speed is off 1 by more than 0.01, and the path of the
    file to use is written to [opts]. *)
Definition speed_voiceover (run_dir : string) (opts : options) : MD E unit :=
  fun w =>
    let speed := match voiceover_speed opts with Some q => q | None => 1 end in
    let voiceover_path := Str.path_join run_dir "voiceover.mp3" in
    if FfmpegEngine.Qabs_gt (speed - 1) (1 # 100) then
      let sped_path := Str.path_join run_dir "voiceover_sped.mp3" in
      match apply_audio_speed voiceover_path sped_path speed w with
      | (Ok _, w') => ((Ok tt, set_voiceover_path (Some sped_path) opts), w')
      | (Raise e, w') => ((Raise e, opts), w')
      end
    else ((Ok tt, set_voiceover_path (Some voiceover_path) opts), w).

(** [process_job_from_url].  Its [try] body runs up to the call of
    [download_url], which raises; an exception of the platform before
    that goes to [except Exception], the [IngestError] to its own
    handler.  Neither handler is covered by the other.  The result
    carries [opts] with the ["source_url"] the body writes. *)
Definition process_job_from_url (job_id url : string) (opts : options)
  : MD E unit :=
  fun w =>
    let safe_url := sanitize_url_for_logs url in
    let opts1 :=
      set_other_keys (dict_set "source_url" safe_url (other_keys opts)) opts in
    let input_path := Str.path_join UPLOADS_DIR (job_id ++ "_url.mp4") in
    let body : M E unit :=
      update_job job_id (mkFields (Some "queued") (Some 10%Z) None None) ;;;
      update_job job_id (mkFields (Some "fetching_url") (Some 20%Z) None None) ;;;
      update_job job_id (mkFields (Some "downloading") (Some 30%Z) None None) ;;;
      run_dir <- init_job_dir RUNS_DIR job_id ;;
      append_log (Str.path_join run_dir "server.log")
        ("Downloading URL: " ++ safe_url) in
    match body w with
    | (Ok _, w1) =>
        let exc := download_url url input_path in
        let (r, w2) :=
          (run_dir <- init_job_dir RUNS_DIR job_id ;;
           append_log (Str.path_join run_dir "server.log")
             ("ERROR: " ++ code exc ++ " " ++ ingest_str exc) ;;;
           update_job job_id
             (mkFields (Some "error") (Some 100%Z) (Some (ingest_str exc)) None))
            w1 in
        ((r, opts1), w2)
    | (Raise exc, w1) =>
        let (r, w2) := fail_job RUNS_DIR job_id exc w1 in
        ((r, opts1), w2)
    end.

End WithPlatform.

End AppFlow.

(** ** ai/gemini_plan.py: asking the model for a plan *)

Module GeminiPlan.

(** An item of the [contents] of a request: a text or the uploaded
    file. *)
Inductive content : Type :=
| Text (s : string)
| FileObj (name : string).

(** One call of [client.models.generate_content]. *)
Record request : Type := mkRequest {
  req_model : string;
  req_contents : list content
}.

(** What the body of a [for] loop does with the loop: it falls through
    to the next iteration or returns from the function. *)
Inductive flow (A : Type) : Type :=
| Next
| Return (a : A).
Arguments Next {A}.
Arguments Return {A} a.

Section Client.

(** The remote service: its state, the text of the response it gives
    to a request (or the exception of the call), and [json.loads],
    which gives nothing on a [JSONDecodeError]. *)
Variable S : Type.
Variable plan : Type.
Variable generate_content : request -> S -> res string * S.
Variable json_loads : string -> option plan.

(** The service together with the requests made so far. *)
Record client_world : Type := mkClient {
  service : S;
  requests : list request
}.

Definition C (A : Type) : Type := client_world -> res A * client_world.

Definition ask (r : request) : C string :=
  fun w =>
    let (text, s') := generate_content r (service w) in
    (text, mkClient s' (requests w ++ [r])%list).

Definition parse_json_response (text : string) : res plan :=
  match json_loads (Str.strip text) with
  | Some p => Ok p
  | None => Raise (ValueError "JSONDecodeError")
  end.

(** The body of the [for model in ...] loop of [get_plan]. *)
Definition get_plan_body (prompt file_obj model : string)
  : C (flow (plan * string)) :=
  fun w =>
    match ask (mkRequest model [Text prompt; FileObj file_obj]) w with
    | (Raise e, w1) => (Raise e, w1)
    | (Ok response, w1) =>
        match parse_json_response response with
        | Ok p => (Ok (Return (p, prompt)), w1)
        | Raise _ =>
            match ask (mkRequest model
                         [Text "Return valid JSON only."; Text prompt;
                          FileObj file_obj]) w1 with
            | (Raise e, w2) => (Raise e, w2)
            | (Ok retry, w2) =>
                match parse_json_response retry with
                | Ok p => (Ok (Return (p, prompt)), w2)
                | Raise e => (Raise e, w2)
                end
            end
        end
    end.

(** [for x in items: body] followed by [after], in a function that
    may return from inside the loop. *)
Fixpoint for_each_return {A X : Type} (body : X -> C (flow A))
    (items : list X) (after : C A) : C A :=
  match items with
  | [] => after
  | x :: rest =>
      fun w =>
        match body x w with
        | (Raise e, w') => (Raise e, w')
        | (Ok (Return a), w') => (Ok a, w')
        | (Ok Next, w') => for_each_return body rest after w'
        end
  end.

(** [get_plan] after its first line, which builds [prompt]. *)
Definition get_plan (prompt file_obj model_name : string)
    (fallback_models : list string) : C (plan * string) :=
  for_each_return (get_plan_body prompt file_obj)
    (model_name :: fallback_models)
    (fun w => (Raise (RuntimeError "Failed to generate plan."), w)).

End Client.

End GeminiPlan.

(** ** The vocabulary of the properties

    Predicates and sample values the statements below are written
    with. *)

Module PlanProps.
Import PlanValidation.

(** [chain min_len prev out]: every segment of [out] carries both keys,
    starts at or after the end of the one before it ([prev] for the
    first) and is at least [min_len] long. *)
Fixpoint chain (min_len prev : Q) (out : list segment) : Prop :=
  match out with
  | [] => True
  | o :: rest =>
      exists s e,
        seg_start o = Some s /\ seg_end o = Some e /\
        prev <= s /\ min_len <= e - s /\ chain min_len e rest
  end.


End PlanProps.

Module ValidationProps.
Import Options Validation.


Definition duration_out_of_range (opts : options) : bool :=
  (duration_s opts <? 30)%Z || (60 <? duration_s opts)%Z.

(** The message of the first test of [validate_opts] that fails. *)
Definition first_error (opts : options) : option string :=
  if duration_out_of_range opts then Some "Duration must be 30-60 seconds."
  else if negb (Str.mem (platform opts) ALLOWED_PLATFORMS) then
    Some "Invalid platform."
  else if negb (Str.mem (style opts) ALLOWED_STYLES) then
    Some "Invalid style."
  else if negb (Str.mem (cut_intensity opts) ALLOWED_CUTS) then
    Some "Invalid cut intensity."
  else if negb (Str.mem (language opts) ALLOWED_LANGS) then
    Some "Invalid language."
  else if negb (Str.mem (captions opts) ALLOWED_CAPTIONS) then
    Some "Invalid captions option."
  else if negb (Str.mem (resolution opts) ALLOWED_RES) then
    Some "Invalid resolution."
  else if negb (Str.mem (content_preset opts) ALLOWED_PRESETS) then
    Some "Invalid content preset."
  else if negb (Str.mem (output_resolution opts) ALLOWED_RES) then
    Some "Invalid output resolution."
  else if negb (Str.mem (reframe_mode opts) ALLOWED_REFRAME) then
    Some "Invalid reframe mode."
  else if negb (Str.memZ (fps opts) ALLOWED_FPS) then
    Some "Invalid fps."
  else if negb (Str.mem (filter_preset opts) ALLOWED_FILTERS) then
    Some "Invalid filter preset."
  else if negb (Str.mem (caption_template opts) ALLOWED_CAPTION_TEMPLATES) then
    Some "Invalid caption template."
  else if negb (Str.mem (caption_position opts) ALLOWED_CAPTION_POSITIONS) then
    Some "Invalid caption position."
  else if negb (Str.mem (caption_size opts) ALLOWED_CAPTION_SIZES) then
    Some "Invalid caption size."
  else if negb (mem_opt (voiceover_mode opts) ALLOWED_VOICEOVER_MODES) then
    Some "Invalid voiceover mode."
  else None.

(** A request as the form of [start_job] builds it, with a transition
    name outside the allow-list. *)
Definition sample_opts : options :=
  {| duration_s := 45%Z;
     platform := "Shorts";
     style := "Pro";
     cut_intensity := "Medium";
     language := "EN";
     captions := "ON";
     resolution := "1080x1920";
     content_preset := "auto";
     output_resolution := "1080x1920";
     reframe_mode := "center";
     fps := 30%Z;
     filters_enabled := false;
     filter_preset := "none";
     brightness := None;
     contrast := None;
     saturation := None;
     gamma := None;
     sharpness := None;
     denoise := false;
     vignette := false;
     grain := false;
     captions_enabled := true;
     caption_template := "tiktok_bold";
     caption_position := "bottom";
     caption_size := "md";
     caption_safe_margin := Some 40%Z;
     transition_type := Some "zoom";
     transition_duration := Some (3 # 10);
     audio_enhance := false;
     audio_loudnorm := false;
     audio_compressor := false;
     audio_denoise := false;
     voiceover_enabled := false;
     voiceover_path := None;
     voiceover_speed := Some 1;
     voiceover_mode := Some "replace";
     voiceover_pre_sped := false;
     music_enabled := false;
     music_file := None;
     music_volume := Some (15 # 100);
     music_ducking := false;
     sfx_items := [];
     ai_visuals_enabled := false;
     ai_visuals_max_overlays := Some 2%Z;
     ai_visuals_transparent_png := Some true;
     notify_email := Some "";
     target_width := None;
     target_height := None;
     other_keys := [] |}.

(** The same request with a voiceover file. *)
Definition voiceover_opts (speed : Q) (mode : string) (pre_sped : bool)
  : options :=
  {| duration_s := 45%Z;
     platform := "Shorts";
     style := "Pro";
     cut_intensity := "Medium";
     language := "EN";
     captions := "ON";
     resolution := "1080x1920";
     content_preset := "auto";
     output_resolution := "1080x1920";
     reframe_mode := "center";
     fps := 30%Z;
     filters_enabled := false;
     filter_preset := "none";
     brightness := None;
     contrast := None;
     saturation := None;
     gamma := None;
     sharpness := None;
     denoise := false;
     vignette := false;
     grain := false;
     captions_enabled := true;
     caption_template := "tiktok_bold";
     caption_position := "bottom";
     caption_size := "md";
     caption_safe_margin := Some 40%Z;
     transition_type := Some "fade";
     transition_duration := Some (3 # 10);
     audio_enhance := false;
     audio_loudnorm := false;
     audio_compressor := false;
     audio_denoise := false;
     voiceover_enabled := true;
     voiceover_path := Some "uploads/voice.mp3";
     voiceover_speed := Some speed;
     voiceover_mode := Some mode;
     voiceover_pre_sped := pre_sped;
     music_enabled := false;
     music_file := None;
     music_volume := Some (15 # 100);
     music_ducking := false;
     sfx_items := [];
     ai_visuals_enabled := false;
     ai_visuals_max_overlays := Some 2%Z;
     ai_visuals_transparent_png := Some true;
     notify_email := Some "";
     target_width := None;
     target_height := None;
     other_keys := [] |}.


End ValidationProps.

Module EngineProps.
Import Options Effects FfmpegEngine.


Definition is_atempo (s : astage) : bool :=
  match s with Atempo _ _ _ => true | _ => false end.

(** [float(opts.get("voiceover_speed", 1.0))]. *)
Definition speed_of (opts : options) : Q :=
  match voiceover_speed opts with Some q => q | None => 1 end.

(** The processes a trace starts, in order. *)
Definition subprocesses (t : list syscall) : list (list string) :=
  flat_map (fun c => match c with Subprocess cmd => [cmd] | _ => [] end) t.

Section WithPlatform.
Context {E : Type} {P : Platform E}.

(** [spawns c cmds]: whatever the platform answers, [c] only appends to
    the trace, and the processes it starts are [cmds] in this order when
    it returns, and a prefix of [cmds] when it raises. *)
Definition spawns {A} (c : M E A) (cmds : list (list string)) : Prop :=
  forall w r w',
    c w = (r, w') ->
    exists l,
      trace w' = (trace w ++ l)%list /\
      match r with
      | Ok _ => subprocesses l = cmds
      | Raise _ => exists rest, cmds = (subprocesses l ++ rest)%list
      end.

End WithPlatform.

End EngineProps.

Module RetryPolicy.
Import Options Effects App.

(** Equal on every key but [ai_visuals_enabled] and [transition_type]. *)
Definition same_but_visuals_and_transition (a b : options) : Prop :=
  set_transition_type None (set_ai_visuals_enabled false a)
  = set_transition_type None (set_ai_visuals_enabled false b).

(** Equal on every key but [captions_enabled]. *)
Definition same_but_captions (a b : options) : Prop :=
  set_captions_enabled false a = set_captions_enabled false b.

(** Equal on every key but the two the pipeline writes. *)
Definition same_but_target (a b : options) : Prop :=
  set_target_height None (set_target_width None a)
  = set_target_height None (set_target_width None b).

(** The retry policy in the words of the specification: an ordered list
    of option overrides, tried in sequence on the same source, segments
    and plan until one attempt returns; every attempt starts from the
    dict as the attempt before it left it. *)
Definition attempt_overrides : list (options -> options) :=
  [fun o => o; fallback_of; set_captions_enabled false].

Fixpoint retry_in_order {E : Type} (render : options -> MD E string)
    (overrides : list (options -> options)) (o : options) (w : world E)
  : res string * world E :=
  match overrides with
  | [] => (Raise (RuntimeError "no attempt"), w)
  | [f] => let '((r, _), w') := render (f o) w in (r, w')
  | f :: rest =>
      match render (f o) w with
      | ((Ok output_path, _), w') => (Ok output_path, w')
      | ((Raise _, o'), w') => retry_in_order render rest o' w'
      end
  end.

End RetryPolicy.

(** A platform to run the model on: every call succeeds unless the
    [behaviour] says otherwise; [ffprobe] reports five seconds for every
    clip, [output_size] for the final video and 1080x1920 for anything
    else. *)
Module TestPlatform.
Import PlanValidation Options Effects App.

Record behaviour : Type := mkBehaviour {
  assets_fail : bool;
  captions_fail : bool;
  xfade_fail : bool;
  output_size : string
}.

Definition parse_int (s : string) : option Z :=
  match NilZero.int_of_string s with
  | Some d => Some (Z.of_int d)
  | None => None
  end.

Fixpoint after_char (c : ascii) (s : string) : string :=
  match s with
  | EmptyString => EmptyString
  | String d s' => if Ascii.eqb c d then s' else after_char c s'
  end.

Definition ok_reply : reply := mkReply None 0 "" "" true [].

Definition answer (b : behaviour) (c : syscall) : reply :=
  match c with
  | Subprocess ("ffprobe" :: args) =>
      if Str.mem "format=duration" args then mkReply None 0 "5" "" true []
      else if Str.mem "runs/job1/final.mp4" args
           then mkReply None 0 (output_size b) "" true []
           else mkReply None 0 "1080x1920" "" true []
  | Subprocess ("ffmpeg" :: args) =>
      if xfade_fail b && Str.mem "-filter_complex" args
      then mkReply None 1 "" "Error initializing filters" true []
      else ok_reply
  | GenerateVisualAssets _ _ _ _ =>
      if assets_fail b
      then mkReply (Some (RuntimeError "asset generation failed")) 0 "" "" true []
      else ok_reply
  | BuildAss _ _ _ _ _ _ =>
      if captions_fail b
      then mkReply (Some (ValueError "bad captions")) 0 "" "" true []
      else mkReply None 0 "[Script Info]" "" true []
  | _ => ok_reply
  end.

Definition show_exn (e : exn) : string :=
  match e with
  | HTTPException _ d => d
  | RuntimeError m => m
  | KeyError k => k
  | ValueError m => m
  | CalledProcessError _ _ => "Command returned non-zero exit status."
  | OSError m => m
  end.

#[export] Instance platform (b : behaviour) : Platform unit := {|
  sys := fun c e => (answer b c, e);
  str_float := fun q =>
    Str.str_int (Qnum q) ++ "/" ++ Str.str_int (Zpos (Qden q));
  float_of_string := fun s => option_map inject_Z (parse_int s);
  int_of_string := parse_int;
  json_streams := fun text =>
    match parse_int (Str.before_char "x" text), parse_int (after_char "x" text) with
    | Some w, Some h => Ok [mkStreamInfo (Some w) (Some h) (Some "30/1")]
    | _, _ => Ok []
    end;
  str_exn := show_exn;
  format_exc := fun e => "Traceback: " ++ show_exn e
|}.

Definition start : world unit :=
  mkWorld tt [] [("job1", mkJob "planning" 60 None None)].

Definition demo_plan : plan := mkPlan (Some "1\n00:00:00,000 --> 00:00:02,000\nhi") "[]" (Some "fade").

Definition demo_segments : list segment := [seg 0 5 "hook"; seg 5 20 "keep"].

Definition good : behaviour := mkBehaviour false false false "1080x1920".

Definition demo_opts : options :=
  set_ai_visuals_enabled true
    (set_transition_type (Some "fade") ValidationProps.sample_opts).

(** The rendering part of the job on the platform that behaves as [b]. *)
Definition run_demo (b : behaviour) : res unit * world unit :=
  process_job_rendering (P := platform b) "runs" "job1" "uploads/in.mp4"
    demo_segments demo_opts demo_plan "runs/job1" start.

End TestPlatform.

(** ** The vocabulary of the properties of the steps around the claims *)

Module SegmentProps.
Import PlanValidation.

(** [prefix_trim segments out]: [out] is a prefix of [segments], except
    that its last segment may have another end (it keeps the start and
    the other keys). *)
Fixpoint prefix_trim (segments out : list segment) : Prop :=
  match out, segments with
  | [], _ => True
  | o :: out', sg :: segments' =>
      (o = sg /\ prefix_trim segments' out') \/
      (out' = [] /\ seg_start o = seg_start sg /\ seg_reason o = seg_reason sg)
  | _ :: _, [] => False
  end.


End SegmentProps.

Module GraphProps.
Import Options Effects FfmpegEngine.

(** The files a command line attaches, in order: the argument that
    follows each [-i]. *)
Fixpoint cmd_inputs (cmd : list string) : list string :=
  match cmd with
  | [] => []
  | flag :: rest =>
      match rest with
      | [] => []
      | path :: rest' =>
          if String.eqb flag "-i" then path :: cmd_inputs rest'
          else cmd_inputs rest
      end
  end.

(** The files [render_final] attaches after the base video, in the
    order of its [cmd +=] lines. *)
Definition attached (opts : options) : list string :=
  ((match voiceover_input opts with Some p => [p] | None => [] end)
   ++ (match music_input opts with Some p => [p] | None => [] end)
   ++ map item_path (sfx_items opts))%list.



(** The pads an audio stage reads and the pad it writes. *)
Definition stage_srcs (s : astage) : list string :=
  match s with
  | Atempo src _ _ => [src]
  | Amix srcs _ => srcs
  | Sidechaincompress main control _ => [main; control]
  | DelayVolume src _ _ _ => [src]
  | Volume src _ _ => [src]
  | Filters src _ _ => [src]
  end.

Definition stage_dst (s : astage) : string :=
  match s with
  | Atempo _ _ dst => dst
  | Amix _ dst => dst
  | Sidechaincompress _ _ dst => dst
  | DelayVolume _ _ _ dst => dst
  | Volume _ _ dst => dst
  | Filters _ _ dst => dst
  end.

(** A pad that can be read: one a stage has written, or the audio of
    an attached input. *)
Definition readable (inputs defined : list string) (pad : string) : Prop :=
  In pad defined \/
  exists k, pad = audio_pad k /\ nth_error inputs k <> None.

(** [wired inputs defined stages]: every stage reads readable pads
    only, those of [defined] and of the stages before it. *)
Fixpoint wired (inputs defined : list string) (stages : list astage) : Prop :=
  match stages with
  | [] => True
  | s :: rest =>
      Forall (readable inputs defined) (stage_srcs s) /\
      wired inputs (stage_dst s :: defined) rest
  end.

(** The options with a music track: [music_enabled], [music_file] and
    [music_ducking] set, every other key kept. *)
Definition with_music (file : string) (ducking : bool) (o : options)
  : options :=
  {| Options.duration_s := Options.duration_s o;
     Options.platform := Options.platform o;
     Options.style := Options.style o;
     Options.cut_intensity := Options.cut_intensity o;
     Options.language := Options.language o;
     Options.captions := Options.captions o;
     Options.resolution := Options.resolution o;
     Options.content_preset := Options.content_preset o;
     Options.output_resolution := Options.output_resolution o;
     Options.reframe_mode := Options.reframe_mode o;
     Options.fps := Options.fps o;
     Options.filters_enabled := Options.filters_enabled o;
     Options.filter_preset := Options.filter_preset o;
     Options.brightness := Options.brightness o;
     Options.contrast := Options.contrast o;
     Options.saturation := Options.saturation o;
     Options.gamma := Options.gamma o;
     Options.sharpness := Options.sharpness o;
     Options.denoise := Options.denoise o;
     Options.vignette := Options.vignette o;
     Options.grain := Options.grain o;
     Options.captions_enabled := Options.captions_enabled o;
     Options.caption_template := Options.caption_template o;
     Options.caption_position := Options.caption_position o;
     Options.caption_size := Options.caption_size o;
     Options.caption_safe_margin := Options.caption_safe_margin o;
     Options.transition_type := Options.transition_type o;
     Options.transition_duration := Options.transition_duration o;
     Options.audio_enhance := Options.audio_enhance o;
     Options.audio_loudnorm := Options.audio_loudnorm o;
     Options.audio_compressor := Options.audio_compressor o;
     Options.audio_denoise := Options.audio_denoise o;
     Options.voiceover_enabled := Options.voiceover_enabled o;
     Options.voiceover_path := Options.voiceover_path o;
     Options.voiceover_speed := Options.voiceover_speed o;
     Options.voiceover_mode := Options.voiceover_mode o;
     Options.voiceover_pre_sped := Options.voiceover_pre_sped o;
     Options.music_enabled := true;
     Options.music_file := Some file;
     Options.music_volume := Options.music_volume o;
     Options.music_ducking := ducking;
     Options.sfx_items := Options.sfx_items o;
     Options.ai_visuals_enabled := Options.ai_visuals_enabled o;
     Options.ai_visuals_max_overlays := Options.ai_visuals_max_overlays o;
     Options.ai_visuals_transparent_png := Options.ai_visuals_transparent_png o;
     Options.notify_email := Options.notify_email o;
     Options.target_width := Options.target_width o;
     Options.target_height := Options.target_height o;
     Options.other_keys := Options.other_keys o |}.

(** The voiceover is ducked under: present, and mixed in a mode that is
    neither ["replace"] nor ["mix"]. *)
Definition voiceover_ducks (opts : options) : bool :=
  match voiceover_input opts with
  | Some _ =>
      let mode :=
        match voiceover_mode opts with Some m => m | None => "replace" end in
      negb (String.eqb mode "replace") && negb (String.eqb mode "mix")
  | None => false
  end.

(** The music is ducked: present, with [music_ducking] set. *)
Definition music_ducks (opts : options) : bool :=
  match music_input opts with
  | Some _ => music_ducking opts
  | None => false
  end.

End GraphProps.

Module JobProps.
Import Effects App.

Section WithPlatform.
Context {E : Type} {P : Platform E}.

(** [keeps_jobs c]: whatever the platform answers, [c] leaves the job
    registry as it found it. *)
Definition keeps_jobs {A} (c : M E A) : Prop :=
  forall w, JOBS (snd (c w)) = JOBS w.

(** [calls_only allowed c]: whatever the platform answers, [c] only
    appends to the trace, and every call it makes is an [allowed]
    one. *)
Definition calls_only {A} (allowed : syscall -> Prop) (c : M E A) : Prop :=
  forall w,
    exists l,
      trace (snd (c w)) = (trace w ++ l)%list /\ Forall allowed l.

(** The file of clip [idx] and the command lines that cut the clips of
    [segments], numbered from [idx]. *)
Definition clip_file (run_dir : string) (idx : nat) : string :=
  Str.path_join run_dir ("clip_" ++ Str.str_nat idx ++ ".mp4").

Fixpoint clip_cmds (source_path filter_chain fps run_dir : string)
    (idx : nat) (segments : list PlanValidation.segment)
  : list (list string) :=
  match segments with
  | [] => []
  | sg :: rest =>
      clip_cmd (str_float (PlanValidation.get_start sg))
        (str_float (PlanValidation.get_end sg))
        source_path filter_chain fps (clip_file run_dir idx)
      :: clip_cmds source_path filter_chain fps run_dir (S idx) rest
  end.

(** The line [_run] appends to the command log for [cmd]. *)
Definition log_line (cmd_log : string) (cmd : list string) : syscall :=
  AppendText cmd_log (Str.join " " cmd ++ Str.newline).

End WithPlatform.

(** The calls to the two collaborators of the pipeline. *)
Definition asks_assets (c : syscall) : bool :=
  match c with GenerateVisualAssets _ _ _ _ => true | _ => false end.

Definition asks_captions (c : syscall) : bool :=
  match c with BuildAss _ _ _ _ _ _ => true | _ => false end.

(** A call the options permit: no request for overlay assets when
    [ai_visuals_enabled] is off, no request for captions when
    [captions_enabled] is off. *)
Definition permitted (opts : Options.options) (c : syscall) : Prop :=
  (Options.ai_visuals_enabled opts = false -> asks_assets c = false) /\
  (Options.captions_enabled opts = false -> asks_captions c = false).

(** The fields [process_job] writes when the render is accepted. *)
Definition done_fields (output_path : string) : job_fields :=
  mkFields (Some "done") (Some 100%Z) None (Some output_path).

(** A call that only touches the job's own directory: the [mkdir] of
    [init_job_dir] or a line appended to its [server.log]. *)
Definition job_dir_call (run_root job_id : string) (c : syscall) : Prop :=
  c = Mkdir (Str.path_join (Str.path_join run_root job_id) "assets") \/
  exists text,
    c = AppendText
          (Str.path_join (Str.path_join run_root job_id) "server.log") text.

(** A platform on which the mail server is down: [send_ready_email]
    raises, everything else is answered as on the test platform that
    behaves well. *)
Definition mail_down : Platform unit := {|
  sys := fun c e =>
    match c with
    | SendReadyEmail _ _ =>
        (mkReply (Some (OSError "Connection refused")) 0 "" "" true [], e)
    | _ => (TestPlatform.answer TestPlatform.good c, e)
    end;
  str_float := str_float (Platform := TestPlatform.platform TestPlatform.good);
  float_of_string :=
    float_of_string (Platform := TestPlatform.platform TestPlatform.good);
  int_of_string :=
    int_of_string (Platform := TestPlatform.platform TestPlatform.good);
  json_streams :=
    json_streams (Platform := TestPlatform.platform TestPlatform.good);
  str_exn := TestPlatform.show_exn;
  format_exc := fun e => "Traceback: " ++ TestPlatform.show_exn e
|}.

End JobProps.
(** * Properties *)

(** ** Comparisons on rationals *)

Lemma Qlt_bool_iff (x y : Q) : Qlt_bool x y = true <-> x < y.
Proof.
  unfold Qlt_bool. rewrite negb_true_iff.
  split; intro H.
  - destruct (Qlt_le_dec x y) as [L | L]; [exact L |].
    apply Qle_bool_iff in L. congruence.
  - destruct (Qle_bool y x) eqn:E; [| reflexivity].
    apply Qle_bool_iff in E. lra.
Qed.

Lemma Qlt_bool_false (x y : Q) : Qlt_bool x y = false <-> y <= x.
Proof.
  unfold Qlt_bool. rewrite negb_false_iff. apply Qle_bool_iff.
Qed.

Lemma Qle_bool_false (x y : Q) : Qle_bool x y = false <-> y < x.
Proof.
  rewrite <- Qlt_bool_iff. unfold Qlt_bool.
  destruct (Qle_bool x y); simpl; split; congruence.
Qed.




(** ** Plan normalisation *)

Module PlanValidationSpec.
Import PlanValidation PlanProps.

(** Turn the boolean tests of the source into order facts. *)
Ltac qbool :=
  repeat match goal with
  | H : Qle_bool _ _ = true |- _ => apply Qle_bool_iff in H
  | H : Qle_bool _ _ = false |- _ => apply Qle_bool_false in H
  | H : Qlt_bool _ _ = true |- _ => apply Qlt_bool_iff in H
  | H : Qlt_bool _ _ = false |- _ => apply Qlt_bool_false in H
  end.

(** *** The sort *)




(** *** The shape of a normalised list *)

Lemma normalize_loop_chain min_len ordered :
  forall last_end, chain min_len last_end (normalize_loop min_len last_end ordered).
Proof.
  induction ordered as [| sg rest IH]; intro last_end; simpl; [exact I |].
  destruct (Qle_bool (get_end sg) (get_start sg)) eqn:Hdeg; [apply IH |].
  destruct (Qlt_bool (get_start sg) last_end) eqn:Hov.
  - destruct (Qlt_bool (get_end sg - last_end) min_len) eqn:Hlen; [apply IH |].
    simpl. exists last_end, (get_end sg). qbool.
    repeat split; try reflexivity; try lra. apply IH.
  - destruct (Qlt_bool (get_end sg - get_start sg) min_len) eqn:Hlen; [apply IH |].
    simpl. exists (get_start sg), (get_end sg). qbool.
    repeat split; try reflexivity; try lra. apply IH.
Qed.



Lemma chain_no_overlap min_len prev out :
  chain min_len prev out ->
  Sorted (fun a b => get_end a <= get_start b) out.
Proof.
  revert prev.
  induction out as [| o rest IH]; intros prev H; [constructor |].
  destruct H as (s & e & Hs & He & Hp & Hl & Hrest).
  constructor.
  - eapply IH; exact Hrest.
  - destruct rest as [| o' rest']; constructor.
    destruct Hrest as (s' & e' & Hs' & _ & Hp' & _).
    unfold get_end, get_start. rewrite He, Hs'. exact Hp'.
Qed.

Lemma chain_min_len min_len prev out :
  chain min_len prev out ->
  Forall (fun o => min_len <= get_end o - get_start o) out.
Proof.
  revert prev.
  induction out as [| o rest IH]; intros prev H; [constructor |].
  destruct H as (s & e & Hs & He & Hp & Hl & Hrest).
  constructor.
  - unfold get_end, get_start. rewrite Hs, He. exact Hl.
  - eapply IH; exact Hrest.
Qed.


(** The worked example of the specification. *)
Example normalize_spec_example :
  normalize_segments
    [seg 0 5 "hook"; seg 5 20 "keep"; seg 18 30 "keep"] default_min_len
  = [seg 0 5 "hook"; seg 5 20 "keep"; seg 20 30 "keep"].
Proof. reflexivity. Qed.




(** The parts of C2 that need no bound on [min_len]. *)
Lemma normalize_segments_any_min_len (segments : list segment) (min_len : Q) :
  let out := normalize_segments segments min_len in
  Sorted (fun a b => get_end a <= get_start b) out /\
  Forall (fun o => min_len <= get_end o - get_start o) out.
Proof.
  intro out. subst out. unfold normalize_segments.
  pose proof (normalize_loop_chain min_len (sorted get_start segments) 0) as Hc.
  split.
  - eapply chain_no_overlap; eassumption.
  - eapply chain_min_len; eassumption.
Qed.

(** *** Idempotence *)







End PlanValidationSpec.

(** ** Duration clamping *)

Module ClampSpec.
Import PlanValidation.
Import PlanValidationSpec.

Lemma sum_from_shift segments :
  forall a x b,
    sum_from a segments = Some x ->
    exists y, sum_from b segments = Some y /\ y == x + (b - a).
Proof.
  induction segments as [| sg rest IH]; intros a x b H; simpl in *.
  - injection H as <-. exists b. split; [reflexivity | lra].
  - destruct (seg_len sg) as [d |]; [| discriminate].
    destruct (IH _ _ (b + d) H) as (y & Hy & Hyx).
    exists y. split; [exact Hy | lra].
Qed.






(** The rejected clamp: with the target inside the bounds, the original
    list comes back with its total of 100 seconds. *)
Example clamp_rejected_returns_original :
  exists tot,
    clamp_duration_to_range
      [seg 0 (298 # 10) "hook"; seg (298 # 10) 100 "keep"] 30
      default_min_total default_max_total
    = Some ([seg 0 (298 # 10) "hook"; seg (298 # 10) 100 "keep"], tot) /\
    tot == 100 /\ default_max_total < tot.
Proof.
  eexists. split; [reflexivity |]. unfold default_max_total.
  split; [reflexivity | reflexivity].
Qed.

(** The example of the specification: 75 seconds, target 45. *)
Example clamp_spec_example :
  clamp_duration_to_range
    [seg 0 20 "hook"; seg 20 50 "keep"; seg 50 75 "keep"] 45
    default_min_total default_max_total
  = Some ([seg 0 20 "hook"; seg 20 45 "keep"], 45).
Proof. reflexivity. Qed.



End ClampSpec.

(** ** Option validation *)

Module ValidationSpec.
Import Options Validation ValidationProps.

Local Opaque Str.mem Str.memZ mem_opt.

Lemma validate_opts_result (opts : options) :
  fst (validate_opts opts)
  = match first_error opts with
    | Some detail => Raise (HTTPException 400 detail)
    | None => Ok tt
    end.
Proof.
  unfold validate_opts, first_error, duration_out_of_range, bad_request.
  repeat match goal with
  | |- context [Str.mem ?x ?l] => destruct (Str.mem x l); simpl; try reflexivity
  | |- context [Str.memZ ?x ?l] => destruct (Str.memZ x l); simpl; try reflexivity
  | |- context [(?a <? ?b)%Z || ?c] => destruct ((a <? b)%Z || c); simpl; try reflexivity
  end.
  all: destruct (mem_opt (Some (normalize_transition_type (transition_type opts)))
              ALLOWED_TRANSITIONS); simpl.
  all: destruct (mem_opt (voiceover_mode opts) ALLOWED_VOICEOVER_MODES);
    reflexivity.
Qed.


Lemma first_error_transition (opts : options) (t : option string) :
  first_error (set_transition_type t opts) = first_error opts.
Proof. reflexivity. Qed.


(** The examples of the aliases. *)
Example normalize_transition_type_alias :
  normalize_transition_type (Some "  Cross Fade ") = "crossfade".
Proof. reflexivity. Qed.

Example normalize_transition_type_unknown :
  normalize_transition_type (Some "Zoom") = "zoom".
Proof. reflexivity. Qed.

(** An unknown transition passes. *)
Example validate_opts_unknown_transition :
  fst (validate_opts sample_opts) = Ok tt /\
  transition_type (snd (validate_opts sample_opts)) = Some "auto".
Proof. split; reflexivity. Qed.


End ValidationSpec.

(** ** The filter graphs *)

Module FfmpegEngineSpec.
Import Options Effects FfmpegEngine EngineProps ValidationProps.
Import PlanValidationSpec.
Local Open Scope monad_scope.







Lemma sfx_loop_no_atempo sfx_start items :
  forall offset,
    forallb (fun s => negb (is_atempo s)) (fst (sfx_loop sfx_start offset items))
    = true.
Proof.
  induction items as [| item items IH]; intro offset; [reflexivity |].
  simpl. specialize (IH (S offset)).
  destruct (sfx_loop sfx_start (S offset) items). simpl in *. exact IH.
Qed.

Lemma sfx_stages_no_atempo opts voice_label :
  forallb (fun s => negb (is_atempo s)) (fst (sfx_stages opts voice_label)) = true.
Proof.
  unfold sfx_stages. destruct (sfx_items opts) as [| item items]; [reflexivity |].
  pose proof (sfx_loop_no_atempo
                match music_idx opts with
                | Some m => (m + 1)%nat
                | None => match voiceover_idx opts with
                          | Some v => (v + 1)%nat | None => 1%nat end
                end (item :: items) 0%nat) as H.
  destruct (sfx_loop _ 0 (item :: items)) as [stages labels].
  simpl in *. rewrite forallb_app, H. reflexivity.
Qed.

Lemma music_stages_no_atempo opts voice_label :
  forallb (fun s => negb (is_atempo s)) (fst (music_stages opts voice_label)) = true.
Proof.
  unfold music_stages. destruct (music_idx opts); [| reflexivity].
  destruct (music_ducking opts); reflexivity.
Qed.

(** The graph is the voiceover block followed by the later blocks. *)
Lemma audio_graph_split opts :
  exists later,
    fst (audio_graph opts) = (fst (voiceover_stages opts) ++ later)%list /\
    forallb (fun s => negb (is_atempo s)) later = true.
Proof.
  unfold audio_graph.
  destruct (voiceover_stages opts) as [voice vl].
  pose proof (sfx_stages_no_atempo opts vl) as Hs.
  destruct (sfx_stages opts vl) as [sfx vl2].
  pose proof (music_stages_no_atempo opts vl2) as Hm.
  destruct (music_stages opts vl2) as [music am].
  simpl in *.
  destruct (audio_filters opts) as [| f fs]; simpl.
  - exists (sfx ++ music)%list. split; [reflexivity |].
    rewrite forallb_app, Hs, Hm. reflexivity.
  - eexists ((sfx ++ music) ++ [_])%list. split.
    + rewrite !app_assoc. reflexivity.
    + rewrite !forallb_app, Hs, Hm. reflexivity.
Qed.


Section WithPlatform.
Context {E : Type} {P : Platform E}.






(** The strings of the duck stages, as the source formats them. *)
Example show_duck_stage :
  show_astage (Sidechaincompress "[0:a]" "[1:a]" "[ducked]")
  = "[0:a][1:a]sidechaincompress=threshold=0.08:ratio=8[ducked]".
Proof. reflexivity. Qed.

End WithPlatform.





End FfmpegEngineSpec.

(** ** The render orchestration *)

Module AppSpec.
Import PlanValidation Options Effects FfmpegEngine App.
Import EngineProps RetryPolicy ValidationProps.
Local Open Scope monad_scope.

Section WithPlatform.
Context {E : Type} {P : Platform E}.
Variable RUNS_DIR : string.

Lemma subprocesses_app a b :
  subprocesses (a ++ b) = (subprocesses a ++ subprocesses b)%list.
Proof. unfold subprocesses. apply flat_map_app. Qed.

Lemma spawns_ret {A} (a : A) : spawns (ret a : M E A) [].
Proof.
  intros w r w' H. injection H as <- <-. exists []. rewrite app_nil_r.
  split; reflexivity.
Qed.

Lemma spawns_raise {A} (e : exn) : spawns (raise e : M E A) [].
Proof.
  intros w r w' H. injection H as <- <-. exists []. rewrite app_nil_r.
  split; [reflexivity |]. exists []. reflexivity.
Qed.

Lemma spawns_call (c : syscall) : spawns (call c) (subprocesses [c]).
Proof.
  intros w r w' H. unfold call in H.
  destruct (sys c (env w)) as [rep e'].
  destruct (raised rep); injection H as <- <-; exists [c];
    (split; [reflexivity |]); [| reflexivity].
  exists []. rewrite app_nil_r. reflexivity.
Qed.

Lemma spawns_bind {A B} (c : M E A) (k : A -> M E B) l1 l2 :
  spawns c l1 -> (forall a, spawns (k a) l2) ->
  spawns (bind c k) (l1 ++ l2).
Proof.
  intros Hc Hk w r w' H. unfold bind in H.
  destruct (c w) as [[a | e] w1] eqn:Hcw.
  - destruct (Hc _ _ _ Hcw) as (la & Ht & Hs).
    destruct (Hk a _ _ _ H) as (lb & Ht' & Hs').
    exists (la ++ lb)%list. rewrite Ht', Ht, app_assoc. split; [reflexivity |].
    rewrite subprocesses_app, Hs.
    destruct r; [rewrite Hs'; reflexivity |].
    destruct Hs' as (rest & ->). exists rest. rewrite app_assoc. reflexivity.
  - injection H as <- <-.
    destruct (Hc _ _ _ Hcw) as (la & Ht & rest & ->).
    exists la. split; [exact Ht |].
    exists (rest ++ l2)%list. rewrite app_assoc. reflexivity.
Qed.

Lemma spawns_try_ok {A} (c : M E A) (h : exn -> M E A) w a w' :
  c w = (Ok a, w') -> try_except c h w = (Ok a, w').
Proof. intro H. unfold try_except. rewrite H. reflexivity. Qed.





(** *** The fallback cascade *)

Lemma render_video_pipeline_dict source_path segments opts pl run_dir w r o w' :
  render_video_pipeline source_path segments opts pl run_dir w = ((r, o), w') ->
  same_but_target opts o.
Proof.
  unfold render_video_pipeline. intro H.
  destruct (resolve_target source_path opts w) as [[o1 | e] w1] eqn:Hres.
  - destruct (render_resolved source_path segments o1 pl run_dir w1).
    injection H as <- <- <-.
    unfold resolve_target, bind in Hres.
    destruct (ensure_ffmpeg_available w) as [[[] | ?] wa]; [| discriminate].
    destruct (inspect_video source_path wa) as [[info | ?] wb]; [| discriminate].
    destruct (width info); [| discriminate].
    destruct (int_of_string _); [| discriminate].
    unfold ret in Hres.
    injection Hres as <- <-. reflexivity.
  - injection H as <- <- <-. reflexivity.
Qed.

(** A failed cascade ends in the handler of [process_job]. *)
Lemma cascade_failure_fails_job job_id render_source segments opts pl run_dir
    (w : world E) e o w1 :
  render_with_fallback render_source segments opts pl run_dir
    (snd (update_job job_id
            (mkFields (Some "rendering") (Some 80%Z) None None) w))
  = ((Raise e, o), w1) ->
  process_job_rendering RUNS_DIR job_id render_source segments opts pl run_dir w
  = fail_job RUNS_DIR job_id e w1.
Proof.
  intro H. unfold process_job_rendering, try_except, bind.
  destruct (update_job job_id _ w) as [[[] | e'] w0] eqn:Hu.
  - simpl in H. rewrite H. reflexivity.
  - unfold update_job in Hu. destruct (jobs_get job_id (JOBS w)); discriminate.
Qed.

(** C3: the rendering block of [process_job] is the retry policy of the
    specification: the attempts [no override], [ai_visuals_enabled =
    False and transition_type = "none"], [captions_enabled = False in
    addition], tried in this order on the same source, segments and
    plan, each at most once, stopping at the first that returns.  The
    second attempt differs from the dict the first one left only in the
    two overridden keys, the third from the dict the second one left
    only in [captions_enabled], and an attempt leaves the dict as it got
    it up to [target_width] and [target_height].  The block raises only
    when all three attempts raised. *)
Theorem render_fallback_cascade
    (render_source : string) (segments : list segment) (opts : options)
    (pl : plan) (run_dir : string) (w : world E) :
  let render := fun o => render_video_pipeline render_source segments o pl run_dir in
  let cascade := render_with_fallback render_source segments opts pl run_dir in
  (fst (fst (cascade w)), snd (cascade w))
  = retry_in_order render attempt_overrides opts w /\
  (forall o,
      ai_visuals_enabled (fallback_of o) = false /\
      transition_type (fallback_of o) = Some "none" /\
      same_but_visuals_and_transition o (fallback_of o)) /\
  (forall o,
      captions_enabled (set_captions_enabled false o) = false /\
      ai_visuals_enabled (set_captions_enabled false o) = ai_visuals_enabled o /\
      transition_type (set_captions_enabled false o) = transition_type o /\
      same_but_captions o (set_captions_enabled false o)) /\
  (forall output_path o1 w1,
      render opts w = ((Ok output_path, o1), w1) ->
      cascade w = ((Ok output_path, o1), w1)) /\
  (forall e1 o1 w1,
      render opts w = ((Raise e1, o1), w1) ->
      same_but_target opts o1 /\
      (forall output_path o2 w2,
          render (fallback_of o1) w1 = ((Ok output_path, o2), w2) ->
          cascade w = ((Ok output_path, o1), w2)) /\
      (forall e2 o2 w2,
          render (fallback_of o1) w1 = ((Raise e2, o2), w2) ->
          same_but_target (fallback_of o1) o2 /\
          fst (fst (cascade w)) = fst (fst (render (set_captions_enabled false o2) w2)) /\
          snd (cascade w) = snd (render (set_captions_enabled false o2) w2))) /\
  (forall e, fst (fst (cascade w)) = Raise e ->
      exists e1 o1 w1 e2 o2 w2 o3,
        render opts w = ((Raise e1, o1), w1) /\
        render (fallback_of o1) w1 = ((Raise e2, o2), w2) /\
        render (set_captions_enabled false o2) w2 = ((Raise e, o3), snd (cascade w))).
Proof.
  intros render cascade. subst cascade. unfold render_with_fallback.
  fold (render opts).
  split; [| split; [| split; [| split; [| split]]]].
  - simpl. destruct (render opts w) as [[[p | e1] o1] w1]; [reflexivity |].
    fold (render (fallback_of o1)).
    destruct (render (fallback_of o1) w1) as [[[p | e2] o2] w2]; [reflexivity |].
    fold (render (set_captions_enabled false o2)).
    destruct (render (set_captions_enabled false o2) w2) as [[r o3] w3].
    reflexivity.
  - intro o. repeat split.
  - intro o. repeat split.
  - intros p o1 w1 H. rewrite H. reflexivity.
  - intros e1 o1 w1 H. rewrite H. split; [| split].
    + eapply render_video_pipeline_dict. exact H.
    + intros p o2 w2 H2. fold (render (fallback_of o1)). rewrite H2. reflexivity.
    + intros e2 o2 w2 H2. fold (render (fallback_of o1)). rewrite H2.
      split; [eapply render_video_pipeline_dict; exact H2 |].
      fold (render (set_captions_enabled false o2)).
      destruct (render (set_captions_enabled false o2) w2) as [[r o3] w3].
      split; reflexivity.
  - intros e. destruct (render opts w) as [[[p | e1] o1] w1] eqn:H1;
      [discriminate |].
    fold (render (fallback_of o1)).
    destruct (render (fallback_of o1) w1) as [[[p | e2] o2] w2] eqn:H2;
      [discriminate |].
    fold (render (set_captions_enabled false o2)).
    destruct (render (set_captions_enabled false o2) w2) as [[r o3] w3] eqn:H3.
    simpl. intros ->. exists e1, o1, w1, e2, o2, w2, o3. repeat split; assumption.
Qed.

(** *** The integrity check *)

Lemma inspect_video_spawns path : spawns (inspect_video path) [inspect_cmd path].
Proof.
  unfold inspect_video.
  change [inspect_cmd path] with ([inspect_cmd path] ++ [])%list.
  apply spawns_bind; [apply (spawns_call (Subprocess _)) | intro result].
  destruct (json_streams _) as [[| st sts] | e];
    [apply spawns_ret | apply spawns_ret | apply spawns_raise].
Qed.

Lemma update_job_spawns job_id fields :
  spawns (update_job job_id fields : M E unit) [].
Proof.
  intros w r w' H. unfold update_job in H.
  destruct (jobs_get job_id (JOBS w)); injection H as <- <-;
    exists []; simpl; rewrite app_nil_r; split; reflexivity.
Qed.

Lemma append_log_spawns path message : spawns (append_log path message) [].
Proof.
  unfold append_log.
  change (@nil (list string)) with (@nil (list string) ++ [])%list.
  apply spawns_bind; [apply (spawns_call (AppendText _ _)) | intros _].
  apply spawns_ret.
Qed.

Lemma fail_job_spawns job_id exc : spawns (fail_job RUNS_DIR job_id exc) [].
Proof.
  unfold fail_job, init_job_dir.
  change (@nil (list string)) with (([] ++ []) ++ [] ++ [] ++ @nil (list string))%list.
  apply spawns_bind.
  { apply spawns_bind; [apply (spawns_call (Mkdir _)) | intros _].
    apply spawns_ret. }
  intro run_dir.
  apply spawns_bind; [apply append_log_spawns | intros _].
  apply spawns_bind; [apply append_log_spawns | intros _].
  apply update_job_spawns.
Qed.

Lemma call_JOBS c w r w' : call c w = (r, w') -> JOBS w' = JOBS w.
Proof.
  unfold call. destruct (sys c (env w)) as [rep e'].
  destruct (raised rep); intro H; injection H as <- <-; reflexivity.
Qed.

Lemma jobs_update_absent job_id fields jobs :
  jobs_get job_id jobs = None -> jobs_update job_id fields jobs = jobs.
Proof.
  induction jobs as [| [k j] jobs IH]; simpl; [reflexivity |].
  destruct (job_id =? k)%string; [discriminate |].
  intro H. rewrite (IH H). reflexivity.
Qed.

Lemma jobs_get_update job_id fields jobs :
  jobs_get job_id (jobs_update job_id fields jobs)
  = option_map (job_update fields) (jobs_get job_id jobs).
Proof.
  induction jobs as [| [k j] jobs IH]; simpl; [reflexivity |].
  destruct (job_id =? k)%string eqn:Hk; simpl; rewrite Hk; [reflexivity | exact IH].
Qed.

Lemma fail_job_marks_error job_id exc w w' :
  fail_job RUNS_DIR job_id exc w = (Ok tt, w') ->
  jobs_get job_id (JOBS w')
  = option_map
      (job_update (mkFields (Some "error") (Some 100%Z) (Some (str_exn exc)) None))
      (jobs_get job_id (JOBS w)).
Proof.
  unfold fail_job, init_job_dir, append_log, bind. intro H.
  destruct (call (Mkdir _) w) as [[r1 | ?] w1] eqn:H1; [| discriminate].
  unfold ret in H.
  destruct (call (AppendText _ _) w1) as [[r2 | ?] w2] eqn:H2; [| discriminate].
  destruct (call (AppendText _ _) w2) as [[r3 | ?] w3] eqn:H3; [| discriminate].
  apply call_JOBS in H1, H2, H3.
  unfold update_job in H.
  assert (HJ : JOBS w3 = JOBS w) by congruence.
  destruct (jobs_get job_id (JOBS w3)) eqn:Hget; injection H as <-.
  - simpl. rewrite jobs_get_update, HJ. reflexivity.
  - rewrite Hget. rewrite HJ in Hget. rewrite Hget. reflexivity.
Qed.

(** C4: when an attempt has returned and the output is narrower or
    lower than the source, [process_job] raises
    ["Output resolution lower than source."] into its handler: after
    the two probes no process is started any more, so nothing is
    rendered again, and the handler marks the job as failed.  An output
    of 480x854 from a source of 1080x1920 is such a case. *)
Theorem integrity_failure_fails_job
    (job_id render_source : string) (segments : list segment)
    (opts opts1 : options) (pl : plan) (run_dir output_path : string)
    (output_info source_info : stream_info) (w w1 w2 w3 : world E) :
  render_with_fallback render_source segments opts pl run_dir
    (snd (update_job job_id
            (mkFields (Some "rendering") (Some 80%Z) None None) w))
  = ((Ok output_path, opts1), w1) ->
  inspect_video output_path w1 = (Ok output_info, w2) ->
  inspect_video render_source w2 = (Ok source_info, w3) ->
  resolution_lower output_info source_info = true ->
  process_job_rendering RUNS_DIR job_id render_source segments opts pl run_dir w
  = fail_job RUNS_DIR job_id integrity_error w3 /\
  trace w3
  = (trace w1 ++ [Subprocess (inspect_cmd output_path);
                  Subprocess (inspect_cmd render_source)])%list /\
  spawns (fail_job RUNS_DIR job_id integrity_error) [] /\
  (forall w4,
      fail_job RUNS_DIR job_id integrity_error w3 = (Ok tt, w4) ->
      jobs_get job_id (JOBS w4)
      = option_map
          (job_update (mkFields (Some "error") (Some 100%Z)
                         (Some (str_exn integrity_error)) None))
          (jobs_get job_id (JOBS w3))) /\
  (forall rate rate',
      resolution_lower (mkStreamInfo (Some 480%Z) (Some 854%Z) rate)
        (mkStreamInfo (Some 1080%Z) (Some 1920%Z) rate') = true).
Proof.
  intros Hrender Hout Hsrc Hlow.
  split; [| split; [| split; [| split]]].
  - unfold process_job_rendering, try_except, bind.
    destruct (update_job job_id _ w) as [[[] | e] w0] eqn:Hu.
    + simpl in Hrender. rewrite Hrender.
      unfold finish_job, bind. rewrite Hout, Hsrc, Hlow. reflexivity.
    + unfold update_job in Hu. destruct (jobs_get job_id (JOBS w)); discriminate.
  - unfold inspect_video, bind in Hout, Hsrc.
    destruct (call (Subprocess (inspect_cmd output_path)) w1)
      as [[ra | ?] wa] eqn:Ha; [| discriminate].
    destruct (call (Subprocess (inspect_cmd render_source)) w2)
      as [[rb | ?] wb] eqn:Hb; [| discriminate].
    assert (Hwa : wa = w2).
    { destruct (json_streams _) as [[| ? ?] | ?] in Hout;
        unfold ret, raise in Hout; congruence. }
    assert (Hwb : wb = w3).
    { destruct (json_streams _) as [[| ? ?] | ?] in Hsrc;
        unfold ret, raise in Hsrc; congruence. }
    subst wa wb.
    destruct (spawns_call _ _ _ _ Ha) as (la & Hta & _).
    unfold call in Ha, Hb.
    destruct (sys _ (env w1)) as [repa ea]. destruct (sys _ (env w2)) as [repb eb].
    destruct (raised repa); [discriminate |]. destruct (raised repb); [discriminate |].
    injection Ha as _ <-. injection Hb as _ <-. simpl.
    rewrite <- app_assoc. reflexivity.
  - apply fail_job_spawns.
  - intros w4. apply fail_job_marks_error.
  - intros rate rate'. reflexivity.
Qed.

End WithPlatform.

(** *** Runs on the test platform *)

Import TestPlatform.

(** Every stage works: the job is done. *)
Example demo_done :
  jobs_get "job1" (JOBS (snd (run_demo good)))
  = Some (mkJob "done" 100 None (Some "runs/job1/final.mp4")).
Proof. vm_compute. reflexivity. Qed.

(** The asset generator and the caption styler fail: the third attempt
    returns and the job is done. *)
Example demo_third_attempt :
  jobs_get "job1"
    (JOBS (snd (run_demo (mkBehaviour true true false "1080x1920"))))
  = Some (mkJob "done" 100 None (Some "runs/job1/final.mp4")).
Proof. vm_compute. reflexivity. Qed.


Lemma render_fallback_cascade_witness :
  let b := mkBehaviour true false false "1080x1920" in
  exists w',
    retry_in_order
      (fun o => render_video_pipeline (P := platform b) "uploads/in.mp4"
                  demo_segments o demo_plan "runs/job1")
      attempt_overrides demo_opts start
    = (Ok "runs/job1/final.mp4", w').
Proof.
  intros b.
  destruct (render_fallback_cascade (P := platform b) "uploads/in.mp4"
              demo_segments demo_opts demo_plan "runs/job1" start) as (H & _).
  eexists. rewrite <- H. vm_compute. reflexivity.
Defined.

Lemma integrity_failure_fails_job_witness :
  let b := mkBehaviour false false false "480x854" in
  exists w3,
    run_demo b = fail_job (P := platform b) "runs" "job1" integrity_error w3 /\
    jobs_get "job1" (JOBS (snd (run_demo b)))
    = Some (mkJob "error" 100 (Some "Output resolution lower than source.") None).
Proof.
  intros b.
  eexists. split.
  - eapply (integrity_failure_fails_job (P := platform b) "runs" "job1"
              "uploads/in.mp4" demo_segments demo_opts).
    + vm_compute. reflexivity.
    + vm_compute. reflexivity.
    + vm_compute. reflexivity.
    + vm_compute. reflexivity.
  - vm_compute. reflexivity.
Defined.

End AppSpec.

(** ** editing/plan_validation.py and app.py: what the clamp keeps *)

Module PlanFlowSpec.
Import PlanValidation PlanProps SegmentProps AppFlow.
Import PlanValidationSpec ClampSpec.


Lemma prefix_trim_refl segments : prefix_trim segments segments.
Proof. induction segments; simpl; auto. Qed.

Lemma prefix_trim_length segments out :
  prefix_trim segments out -> (List.length out <= List.length segments)%nat.
Proof.
  revert segments.
  induction out as [| o out IH]; intros segments Hp; simpl; [lia |].
  destruct segments as [| sg segments]; [contradiction |].
  simpl in Hp. destruct Hp as [[_ Hp] | [-> _]]; simpl.
  - specialize (IH _ Hp). lia.
  - lia.
Qed.

Lemma clamp_loop_prefix target_s min_total segments :
  forall running trimmed r,
    clamp_loop target_s min_total running segments = Some (trimmed, r) ->
    prefix_trim segments trimmed.
Proof.
  induction segments as [| sg rest IH]; intros running trimmed r H; simpl in H.
  - injection H as <- _. exact I.
  - destruct (seg_len sg) as [len |]; [| discriminate].
    destruct (seg_start sg) as [s |] eqn:Hs; [| discriminate].
    destruct (Qle_bool (running + len) target_s).
    + destruct (clamp_loop target_s min_total (running + len) rest)
        as [[tr r0] |] eqn:Hrec; [| discriminate].
      injection H as <- _. simpl. left. split; [reflexivity |].
      eapply IH. exact Hrec.
    + destruct (Qle_bool (4 # 10) _) in H; injection H as <- _; simpl; auto.
Qed.

Lemma clamp_prefix_trim segments target_s min_total max_total out tot :
  clamp_duration_to_range segments target_s min_total max_total = Some (out, tot) ->
  prefix_trim segments out.
Proof.
  intro H. unfold clamp_duration_to_range in H.
  destruct (total_duration segments); [| discriminate].
  destruct (Qle_bool q max_total).
  - injection H as <- _. apply prefix_trim_refl.
  - destruct (clamp_loop target_s min_total 0 segments) as [[tr r] |] eqn:Hl;
      [| discriminate].
    destruct (Qlt_bool r min_total); injection H as <- _.
    + apply prefix_trim_refl.
    + eapply clamp_loop_prefix. exact Hl.
Qed.

(** X1: whatever [clamp_duration_to_range] returns is a prefix of the
    segments it was given in which only the end of the last segment may
    have changed; the clamp never reorders, never adds and never moves
    a start. *)
Theorem clamp_returns_trimmed_prefix segments target_s min_total max_total out tot :
  clamp_duration_to_range segments target_s min_total max_total = Some (out, tot) ->
  prefix_trim segments out /\ (List.length out <= List.length segments)%nat.
Proof.
  intro H.
  pose proof (clamp_prefix_trim _ _ _ _ _ _ H) as Hp.
  split; [exact Hp | apply prefix_trim_length; exact Hp].
Qed.

Lemma clamp_returns_trimmed_prefix_witness :
  clamp_duration_to_range [seg 0 40 "hook"; seg 40 80 "keep"] 45 30 60
  = Some ([seg 0 40 "hook"; seg 40 45 "keep"], 45) /\
  prefix_trim [seg 0 40 "hook"; seg 40 80 "keep"]
    [seg 0 40 "hook"; seg 40 45 "keep"] /\
  (List.length [seg 0 40 "hook"; seg 40 45 "keep"]
   <= List.length [seg 0 40 "hook"; seg 40 80 "keep"])%nat.
Proof.
  assert (H : clamp_duration_to_range [seg 0 40 "hook"; seg 40 80 "keep"] 45 30 60
              = Some ([seg 0 40 "hook"; seg 40 45 "keep"], 45))
    by (vm_compute; reflexivity).
  split; [exact H |].
  exact (clamp_returns_trimmed_prefix _ _ _ _ _ _ H).
Defined.







(** The check for two segments runs before the clamp only: one long
    first segment leaves a single clip. *)
Example prepare_segments_single_clip :
  prepare_segments [seg 0 50 "hook"; seg 50 90 "keep"] 45
  = Ok [seg 0 45 "hook"].
Proof. vm_compute. reflexivity. Qed.





(** With a target below [min_total] the clamp lengthens the segment it
    cuts: 20 seconds of plan become 30 seconds of video. *)
Example clamp_extends_below_min_total :
  clamp_duration_to_range [seg 0 20 "hook"; seg 20 100 "keep"] 10 30 60
  = Some ([seg 0 30 "hook"], 30).
Proof. vm_compute. reflexivity. Qed.

End PlanFlowSpec.

(** ** app.py: what validation and the transition block guarantee *)

Module ValidationFlowSpec.
Import Options Validation ValidationProps AppFlow.
Import ValidationSpec.

Lemma mem_allowed_transitions t :
  Str.mem t ALLOWED_TRANSITIONS = true ->
  t = "auto" \/ t = "none" \/ t = "fade" \/ t = "crossfade" \/
  t = "dip_black" \/ t = "swipe".
Proof.
  unfold Str.mem, ALLOWED_TRANSITIONS. simpl.
  repeat match goal with
  | |- context [(t =? ?s)%string] =>
      destruct (String.eqb_spec t s); [subst; tauto |]
  end.
  simpl. discriminate.
Qed.

Lemma normalize_allowed t :
  Str.mem t ALLOWED_TRANSITIONS = true ->
  normalize_transition_type (Some t) = t.
Proof.
  intro H. apply mem_allowed_transitions in H.
  destruct H as [-> | [-> | [-> | [-> | [-> | ->]]]]]; reflexivity.
Qed.

Lemma validate_opts_ok_shape (opts : options) :
  first_error opts = None ->
  validate_opts opts
  = (Ok tt,
     set_transition_type
       (Some (let t := normalize_transition_type (transition_type opts) in
              if Str.mem t ALLOWED_TRANSITIONS then t else "auto")) opts).
Proof.
  unfold validate_opts, first_error, duration_out_of_range.
  destruct ((duration_s opts <? 30)%Z || (60 <? duration_s opts)%Z);
    [discriminate |].
  repeat match goal with
  | |- context [if negb (Str.mem ?x ?l) then Some _ else _] =>
      destruct (Str.mem x l); cbn [negb]; cbv iota; [| discriminate]
  | |- context [if negb (Str.memZ ?x ?l) then Some _ else _] =>
      destruct (Str.memZ x l); cbn [negb]; cbv iota; [| discriminate]
  end.
  cbn [transition_type set_transition_type mem_opt].
  destruct (Str.mem (normalize_transition_type (transition_type opts))
              ALLOWED_TRANSITIONS);
    cbn [negb voiceover_mode set_transition_type];
    destruct (mem_opt (voiceover_mode opts) ALLOWED_VOICEOVER_MODES);
    cbn [negb]; try discriminate; intros _; reflexivity.
Qed.



(** X5: [validate_opts] writes no key of the dict but
    [transition_type], whether it returns or raises, and validating a
    dict it has accepted accepts it again and leaves it as it is. *)
Theorem validate_opts_stable (opts : options) :
  (forall t,
      set_transition_type t (snd (validate_opts opts))
      = set_transition_type t opts) /\
  (fst (validate_opts opts) = Ok tt ->
   validate_opts (snd (validate_opts opts))
   = (Ok tt, snd (validate_opts opts))).
Proof.
  split.
  - intro t. unfold validate_opts.
    repeat match goal with
    | |- context [if ?c then (Raise _, _) else _] =>
        destruct c; [reflexivity |]
    end.
    cbn [transition_type set_transition_type mem_opt].
    destruct (negb (Str.mem _ ALLOWED_TRANSITIONS));
      match goal with
      | |- context [if ?c then (Raise _, _) else _] => destruct c; reflexivity
      end.
  - intro Hok. rewrite validate_opts_result in Hok.
    destruct (first_error opts) eqn:Hfe; [discriminate |].
    rewrite (validate_opts_ok_shape opts Hfe). cbn [snd].
    set (a := let t := normalize_transition_type (transition_type opts) in
              if Str.mem t ALLOWED_TRANSITIONS then t else "auto").
    assert (Ha : Str.mem a ALLOWED_TRANSITIONS = true).
    { subst a. cbv zeta.
      destruct (Str.mem (normalize_transition_type (transition_type opts))
                  ALLOWED_TRANSITIONS) eqn:Hm; [exact Hm | reflexivity]. }
    rewrite validate_opts_ok_shape
      by (rewrite first_error_transition; exact Hfe).
    cbn [transition_type set_transition_type].
    rewrite (normalize_allowed a Ha). cbv zeta. rewrite Ha. reflexivity.
Qed.

(** *** strip and lower *)

Lemma is_space_lower c : Str.is_space (Str.lower_char c) = Str.is_space c.
Proof. destruct c as [[] [] [] [] [] [] [] []]; reflexivity. Qed.

Lemma lower_char_idem c : Str.lower_char (Str.lower_char c) = Str.lower_char c.
Proof. destruct c as [[] [] [] [] [] [] [] []]; reflexivity. Qed.

Local Opaque Str.is_space Str.lower_char.

Lemma lower_idem s : Str.lower (Str.lower s) = Str.lower s.
Proof.
  induction s as [| c s IH]; simpl; [reflexivity |].
  rewrite lower_char_idem, IH. reflexivity.
Qed.

Lemma lower_lstrip s : Str.lower (Str.lstrip s) = Str.lstrip (Str.lower s).
Proof.
  induction s as [| c s IH]; simpl; [reflexivity |].
  rewrite is_space_lower. destruct (Str.is_space c); [exact IH | reflexivity].
Qed.

Lemma lower_rstrip s : Str.lower (Str.rstrip s) = Str.rstrip (Str.lower s).
Proof.
  induction s as [| c s IH]; simpl; [reflexivity |].
  rewrite <- IH, is_space_lower.
  destruct (Str.rstrip s) as [| d t]; simpl.
  - destruct (Str.is_space c); reflexivity.
  - reflexivity.
Qed.

Lemma lstrip_idem s : Str.lstrip (Str.lstrip s) = Str.lstrip s.
Proof.
  induction s as [| c s IH]; simpl; [reflexivity |].
  destruct (Str.is_space c) eqn:Hc; [exact IH |].
  simpl. rewrite Hc. reflexivity.
Qed.

Lemma rstrip_idem s : Str.rstrip (Str.rstrip s) = Str.rstrip s.
Proof.
  induction s as [| c s IH]; simpl; [reflexivity |].
  destruct (Str.rstrip s) as [| d t] eqn:Hr.
  - destruct (Str.is_space c) eqn:Hc; simpl; [reflexivity |].
    rewrite Hc. reflexivity.
  - simpl in *. rewrite IH. reflexivity.
Qed.

Lemma lstrip_rstrip s : Str.lstrip (Str.rstrip s) = Str.rstrip (Str.lstrip s).
Proof.
  induction s as [| c s IH]; simpl; [reflexivity |].
  destruct (Str.is_space c) eqn:Hc.
  - rewrite <- IH. destruct (Str.rstrip s) as [| d t]; simpl.
    + reflexivity.
    + rewrite Hc. reflexivity.
  - simpl. destruct (Str.rstrip s) as [| d t]; simpl; rewrite Hc; reflexivity.
Qed.

Lemma strip_idem s : Str.strip (Str.strip s) = Str.strip s.
Proof.
  unfold Str.strip.
  rewrite lstrip_rstrip, rstrip_idem, lstrip_idem. reflexivity.
Qed.

Lemma lower_strip s : Str.lower (Str.strip s) = Str.strip (Str.lower s).
Proof. unfold Str.strip. rewrite lower_rstrip, lower_lstrip. reflexivity. Qed.

(** X6: [normalize_transition_type] is idempotent: a normalised name
    (stripped, lower-cased, aliases resolved) normalises to itself. *)
Theorem normalize_transition_type_idempotent (value : option string) :
  normalize_transition_type (Some (normalize_transition_type value))
  = normalize_transition_type value.
Proof.
  destruct value as [v |]; [| reflexivity].
  unfold normalize_transition_type at 2 3.
  set (n := Str.lower (Str.strip v)).
  assert (Hn : Str.lower (Str.strip n) = n).
  { subst n. rewrite lower_strip, lower_idem, <- lower_strip, strip_idem.
    reflexivity. }
  clearbody n.
  destruct (Str.lookup n aliases) as [a |] eqn:Hl.
  - unfold aliases in Hl. cbn [Str.lookup] in Hl.
    repeat match type of Hl with
    | (if ?c then _ else _) = _ =>
        destruct c; [injection Hl as <-; vm_compute; reflexivity |]
    end.
    discriminate.
  - unfold normalize_transition_type. rewrite Hn, Hl. reflexivity.
Qed.

Local Transparent Str.is_space Str.lower_char.

Lemma resolve_transition_cases (opts : options) (suggested : option string)
    (t : string) :
  transition_type opts = Some t ->
  exists t',
    resolve_transition opts suggested = set_transition_type (Some t') opts /\
    t' <> "none" /\
    (t <> "auto" -> t <> "none" -> t' = t) /\
    (Str.mem t ALLOWED_TRANSITIONS = true ->
     Str.mem t' ALLOWED_TRANSITIONS = true).
Proof.
  intro Ht. unfold resolve_transition. rewrite Ht.
  unfold mem_opt, Str.mem. cbn [existsb].
  assert (Hsame : set_transition_type (Some t) opts = opts)
    by (destruct opts; unfold set_transition_type; simpl in *;
        rewrite Ht; reflexivity).
  destruct (String.eqb_spec t "auto") as [-> | Hauto];
    [| destruct (String.eqb_spec t "none") as [-> | Hnone]]; cbn [orb].
  1, 2: destruct suggested as [s |];
    [destruct (existsb (String.eqb s) ALLOWED_TRANSITIONS
               && negb (s =? "none")%string) eqn:Hs |];
    eexists; (split; [reflexivity |]);
    repeat split; try congruence; try discriminate.
  - apply andb_true_iff in Hs. destruct Hs as [_ Hs].
    apply negb_true_iff, String.eqb_neq in Hs. exact Hs.
  - intros _. apply andb_true_iff in Hs. tauto.
  - apply andb_true_iff in Hs. destruct Hs as [_ Hs].
    apply negb_true_iff, String.eqb_neq in Hs. exact Hs.
  - intros _. apply andb_true_iff in Hs. tauto.
  - exists t. rewrite Hsame. repeat split; auto.
Qed.



(** X8: a dict that [validate_opts] accepted leaves the transition
    block of [process_job] with an allowed transition other than
    ["none"], whatever the request and the plan said: the first render
    attempt of a validated job never asks [apply_transitions] for a
    plain concatenation. *)
Theorem validated_job_never_cuts (opts : options) (suggested : option string) :
  fst (validate_opts opts) = Ok tt ->
  exists t,
    transition_type (resolve_transition (snd (validate_opts opts)) suggested)
    = Some t /\
    t <> "none" /\ Str.mem t ALLOWED_TRANSITIONS = true.
Proof.
  intro Hok. rewrite validate_opts_result in Hok.
  destruct (first_error opts) eqn:Hfe; [discriminate |].
  rewrite (validate_opts_ok_shape opts Hfe). cbn [snd].
  set (a := let t := normalize_transition_type (transition_type opts) in
            if Str.mem t ALLOWED_TRANSITIONS then t else "auto").
  assert (Ha : Str.mem a ALLOWED_TRANSITIONS = true).
  { subst a. cbv zeta.
    destruct (Str.mem (normalize_transition_type (transition_type opts))
                ALLOWED_TRANSITIONS) eqn:Hm; [exact Hm | reflexivity]. }
  destruct (resolve_transition_cases (set_transition_type (Some a) opts)
              suggested a eq_refl) as (t' & -> & Hn & _ & Hal).
  exists t'. split; [reflexivity |]. split; [exact Hn | exact (Hal Ha)].
Qed.

Lemma validated_job_never_cuts_witness :
  fst (validate_opts (set_transition_type (Some "None") sample_opts)) = Ok tt /\
  exists t,
    transition_type
      (resolve_transition
         (snd (validate_opts (set_transition_type (Some "None") sample_opts)))
         None)
    = Some t /\
    t <> "none" /\ Str.mem t ALLOWED_TRANSITIONS = true.
Proof.
  split; [reflexivity |].
  apply (validated_job_never_cuts
           (set_transition_type (Some "None") sample_opts) None).
  reflexivity.
Defined.

(** A request for no transition is rendered with a fade, and a plan
    that suggests ["auto"] leaves ["auto"] in the dict. *)
Example none_becomes_fade :
  transition_type
    (resolve_transition
       (snd (validate_opts (set_transition_type (Some " None ") sample_opts)))
       None)
  = Some "fade".
Proof. reflexivity. Qed.

Example suggested_auto_is_kept :
  transition_type
    (resolve_transition
       (snd (validate_opts (set_transition_type (Some "auto") sample_opts)))
       (Some "auto"))
  = Some "auto".
Proof. reflexivity. Qed.

End ValidationFlowSpec.

(** ** editing/ffmpeg_engine.py: the wiring of the filter graphs *)

Module GraphSpec.
Import Options Effects FfmpegEngine EngineProps GraphProps ValidationProps.
Import FfmpegEngineSpec.

Lemma cmd_inputs_skip flag rest :
  String.eqb flag "-i" = false -> cmd_inputs (flag :: rest) = cmd_inputs rest.
Proof.
  intro H. destruct rest as [| p rest]; [reflexivity |].
  cbn [cmd_inputs]. rewrite H. reflexivity.
Qed.

Lemma cmd_inputs_take path rest :
  cmd_inputs ("-i" :: path :: rest) = path :: cmd_inputs rest.
Proof. reflexivity. Qed.

Lemma cmd_inputs_input_args paths rest :
  cmd_inputs (input_args paths ++ rest) = (paths ++ cmd_inputs rest)%list.
Proof.
  induction paths as [| p paths IH]; [reflexivity |].
  change (input_args (p :: paths) ++ rest)%list
    with ("-i" :: p :: (input_args paths ++ rest))%list.
  cbn [cmd_inputs]. cbn. rewrite IH. reflexivity.
Qed.

Lemma nth_error_prefix {A} (l rest : list A) k x :
  nth_error l k = Some x -> nth_error (l ++ rest) k = Some x.
Proof.
  intro H. rewrite nth_error_app1; [exact H |].
  apply nth_error_Some. congruence.
Qed.









Lemma sfx_loop_cons sfx_start offset item items :
  sfx_loop sfx_start offset (item :: items)
  = (DelayVolume (audio_pad (sfx_start + offset))
       (int_of_float
          ((match item_start item with Some q => q | None => 0 end) * 1000))
       (match item_volume item with Some q => q | None => 8 # 10 end)
       ("[" ++ ("sfx" ++ Str.str_nat offset) ++ "]")
       :: fst (sfx_loop sfx_start (S offset) items),
     ("[" ++ ("sfx" ++ Str.str_nat offset) ++ "]")
       :: snd (sfx_loop sfx_start (S offset) items)).
Proof.
  simpl. destruct (sfx_loop sfx_start (S offset) items). reflexivity.
Qed.

Lemma sfx_loop_stage sfx_start items :
  forall offset j item,
    nth_error items j = Some item ->
    exists ms vol,
      nth_error (fst (sfx_loop sfx_start offset items)) j
      = Some (DelayVolume (audio_pad (sfx_start + (offset + j))) ms vol
                ("[" ++ ("sfx" ++ Str.str_nat (offset + j)) ++ "]")).
Proof.
  induction items as [| it items IH]; intros offset j item H.
  - destruct j; discriminate.
  - rewrite sfx_loop_cons. destruct j as [| j]; simpl in H.
    + rewrite Nat.add_0_r. eexists _, _. reflexivity.
    + destruct (IH (S offset) j item H) as (ms & vol & Hn).
      exists ms, vol. cbn [fst nth_error]. rewrite Hn.
      replace (S offset + j)%nat with (offset + S j)%nat by lia. reflexivity.
Qed.

Lemma readable_mono inputs d d' pad :
  incl d d' -> readable inputs d pad -> readable inputs d' pad.
Proof. intros Hi [H | H]; [left; apply Hi; exact H | right; exact H]. Qed.

Lemma wired_mono inputs stages :
  forall d d', incl d d' -> wired inputs d stages -> wired inputs d' stages.
Proof.
  induction stages as [| s stages IH]; intros d d' Hi H; [exact I |].
  destruct H as [Hs Hrest]. split.
  - eapply Forall_impl; [| exact Hs]. intros pad. apply readable_mono. exact Hi.
  - eapply IH; [| exact Hrest]. intros x [-> | Hx]; [left; reflexivity |].
    right. apply Hi. exact Hx.
Qed.

Lemma wired_app inputs a :
  forall d b,
    wired inputs d a ->
    wired inputs (rev (map stage_dst a) ++ d) b ->
    wired inputs d (a ++ b).
Proof.
  induction a as [| s a IH]; intros d b Ha Hb; [exact Hb |].
  destruct Ha as [Hs Ha]. split; [exact Hs |].
  apply IH; [exact Ha |].
  simpl in Hb. rewrite <- app_assoc in Hb. exact Hb.
Qed.

(** The pads of the attached inputs can be read. *)
Lemma input_readable base tail opts d k :
  (k <= List.length (attached opts))%nat ->
  readable (base :: attached opts ++ tail) d (audio_pad k).
Proof.
  intro Hk. right. exists k. split; [reflexivity |].
  apply nth_error_Some. simpl. rewrite length_app. lia.
Qed.

Lemma voiceover_attached opts :
  voiceover_input opts <> None -> (1 <= List.length (attached opts))%nat.
Proof.
  unfold attached. destruct (voiceover_input opts); [simpl; lia | congruence].
Qed.

Lemma music_attached opts i :
  music_idx opts = Some i -> (i <= List.length (attached opts))%nat.
Proof.
  unfold music_idx, attached.
  destruct (music_input opts); [| discriminate].
  destruct (voiceover_input opts); intro H; injection H as <-; simpl; lia.
Qed.

Lemma sfx_attached opts j :
  (j < List.length (sfx_items opts))%nat ->
  (match music_idx opts with
   | Some m => m + 1
   | None => match voiceover_idx opts with
             | Some v => v + 1
             | None => 1
             end
   end + j <= List.length (attached opts))%nat.
Proof.
  unfold music_idx, voiceover_idx, attached.
  destruct (voiceover_input opts); destruct (music_input opts);
    simpl; rewrite ?length_map; lia.
Qed.

Section Wiring.
Variable inputs : list string.
Variable opts : options.
Hypothesis Hin :
  forall d k, (k <= List.length (attached opts))%nat ->
              readable inputs d (audio_pad k).

Lemma readable_here d pad rest : readable inputs (pad :: rest ++ d) pad.
Proof. left. left. reflexivity. Qed.

Lemma voiceover_wired d :
  wired inputs d (fst (voiceover_stages opts)) /\
  readable inputs (rev (map stage_dst (fst (voiceover_stages opts))) ++ d)
    (snd (voiceover_stages opts)).
Proof.
  pose proof (Hin d 0%nat (Nat.le_0_l _)) as H0.
  change (audio_pad 0) with "[0:a]" in H0.
  unfold voiceover_stages, voiceover_idx.
  destruct (voiceover_input opts) as [p |] eqn:Hp; [| split; [exact I | exact H0]].
  assert (H1 : forall d, readable inputs d (audio_pad 1)).
  { intro d'. apply Hin. apply voiceover_attached. congruence. }
  destruct (negb (voiceover_pre_sped opts) && _);
    destruct (String.eqb _ "replace"); try destruct (String.eqb _ "mix");
    cbn [fst snd map rev app stage_dst wired stage_srcs];
    repeat match goal with
    | |- _ /\ _ => split
    | |- True => exact I
    | |- Forall _ _ => constructor
    | |- readable _ _ (audio_pad 1) => apply H1
    | |- readable _ _ "[0:a]" =>
        eapply readable_mono; [| exact H0]; intros x Hx; simpl; tauto
    | |- readable _ _ _ => left; simpl; tauto
    end.
Qed.

Lemma sfx_labels_dsts start items :
  forall offset,
    snd (sfx_loop start offset items)
    = map stage_dst (fst (sfx_loop start offset items)).
Proof.
  induction items as [| it items IH]; intro offset; [reflexivity |].
  rewrite sfx_loop_cons. cbn [fst snd map stage_dst]. rewrite IH. reflexivity.
Qed.

Lemma sfx_loop_wired start items :
  forall offset d,
    (forall j d', (j < List.length items)%nat ->
                  readable inputs d' (audio_pad (start + (offset + j)))) ->
    wired inputs d (fst (sfx_loop start offset items)).
Proof.
  induction items as [| it items IH]; intros offset d H; [exact I |].
  rewrite sfx_loop_cons. cbn [fst wired stage_srcs stage_dst]. split.
  - constructor; [| constructor].
    specialize (H 0%nat d). rewrite Nat.add_0_r in H. apply H. simpl. lia.
  - apply IH. intros j d' Hj.
    replace (S offset + j)%nat with (offset + S j)%nat by lia.
    apply H. simpl. lia.
Qed.

Lemma sfx_wired d voice_label :
  readable inputs d voice_label ->
  wired inputs d (fst (sfx_stages opts voice_label)) /\
  readable inputs
    (rev (map stage_dst (fst (sfx_stages opts voice_label))) ++ d)
    (snd (sfx_stages opts voice_label)).
Proof.
  intro Hv. unfold sfx_stages.
  pose proof (sfx_attached opts) as Hs.
  destruct (sfx_items opts) as [| it items];
    [split; [exact I | exact Hv] |].
  set (start := match music_idx opts with
                | Some m => (m + 1)%nat
                | None => match voiceover_idx opts with
                          | Some v => (v + 1)%nat
                          | None => 1%nat
                          end
                end) in *.
  pose proof (sfx_labels_dsts start (it :: items) 0%nat) as Hl.
  pose proof (sfx_loop_wired start (it :: items) 0%nat d) as Hw.
  destruct (sfx_loop start 0 (it :: items)) as [stages labels].
  cbn [fst snd] in *. split.
  - apply wired_app.
    + apply Hw. intros j d' Hj. apply Hin. apply Hs. exact Hj.
    + cbn [wired stage_srcs]. split; [| exact I].
      constructor.
      * eapply readable_mono; [| exact Hv]. apply incl_appr, incl_refl.
      * subst labels. apply Forall_forall. intros x Hx. left.
        apply in_or_app. left. apply in_rev. rewrite rev_involutive. exact Hx.
  - left. rewrite map_app, rev_app_distr. left. reflexivity.
Qed.

Lemma music_wired d voice_label :
  readable inputs d voice_label ->
  wired inputs d (fst (music_stages opts voice_label)) /\
  readable inputs
    (rev (map stage_dst (fst (music_stages opts voice_label))) ++ d)
    (snd (music_stages opts voice_label)).
Proof.
  intro Hv. unfold music_stages.
  pose proof (music_attached opts) as Hm.
  destruct (music_idx opts) as [i |]; [| split; [exact I | exact Hv]].
  specialize (Hm i eq_refl).
  destruct (music_ducking opts);
    cbn [fst snd map rev app stage_dst wired stage_srcs];
    repeat match goal with
    | |- _ /\ _ => split
    | |- True => exact I
    | |- Forall _ _ => constructor
    | |- readable _ _ (audio_pad i) => apply Hin; exact Hm
    | |- readable _ _ voice_label =>
        eapply readable_mono; [| exact Hv]; intros x Hx; simpl; tauto
    | |- readable _ _ _ => left; simpl; tauto
    end.
Qed.

Lemma audio_graph_wired_in :
  wired inputs [] (fst (audio_graph opts)) /\
  readable inputs (rev (map stage_dst (fst (audio_graph opts))))
    (snd (audio_graph opts)).
Proof.
  unfold audio_graph.
  destruct (voiceover_wired []) as [Hv Hvl].
  destruct (voiceover_stages opts) as [voice vl]. cbn [fst snd] in Hv, Hvl.
  destruct (sfx_wired _ vl Hvl) as [Hs Hsl].
  destruct (sfx_stages opts vl) as [sfx vl2]. cbn [fst snd] in Hs, Hsl.
  destruct (music_wired _ vl2 Hsl) as [Hm Hml].
  destruct (music_stages opts vl2) as [music am]. cbn [fst snd] in Hm, Hml.
  assert (Hw : wired inputs [] (voice ++ sfx ++ music)).
  { apply wired_app; [exact Hv |]. apply wired_app; [exact Hs | exact Hm]. }
  assert (Hr : readable inputs (rev (map stage_dst (voice ++ sfx ++ music))) am).
  { rewrite !map_app, !rev_app_distr, <- app_assoc.
    rewrite !app_nil_r in Hml. exact Hml. }
  destruct (audio_filters opts) as [| f fs]; cbn [fst snd].
  - split; [exact Hw | exact Hr].
  - split.
    + apply wired_app; [exact Hw |]. cbn [wired stage_srcs]. split; [| exact I].
      constructor; [| constructor]. rewrite app_nil_r. exact Hr.
    + left. rewrite map_app, rev_app_distr. left. reflexivity.
Qed.

End Wiring.

Lemma last_of_app {A} (a : list A) x front y :
  (a ++ [x])%list = (front ++ [y])%list -> x = y.
Proof. intro H. apply app_inj_tail in H. tauto. Qed.

Lemma audio_map_last opts front s :
  fst (audio_graph opts) = (front ++ [s])%list ->
  snd (audio_graph opts) = stage_dst s.
Proof.
  unfold audio_graph.
  destruct (voiceover_stages opts) as [voice vl] eqn:Hv.
  destruct (sfx_stages opts vl) as [sfx vl2] eqn:Hs.
  destruct (music_stages opts vl2) as [music am] eqn:Hm.
  destruct (audio_filters opts) as [| f fs]; cbn [fst snd].
  2: { intro H. apply last_of_app in H. subst s. reflexivity. }
  (* no enhancement chain: the last stage comes from the last block
     that is not empty *)
  unfold music_stages in Hm.
  destruct (music_idx opts) as [i |].
  { destruct (music_ducking opts); injection Hm as <- <-; intro H;
      rewrite !app_assoc in H;
      match type of H with
      | (?a ++ [?x; ?y; ?z])%list = _ =>
          change (a ++ [x; y; z])%list with (a ++ [x; y] ++ [z])%list in H;
          rewrite app_assoc in H
      | (?a ++ [?x; ?y])%list = _ =>
          change (a ++ [x; y])%list with (a ++ [x] ++ [y])%list in H;
          rewrite app_assoc in H
      end;
      apply last_of_app in H; subst s; reflexivity. }
  injection Hm as <- <-. rewrite app_nil_r.
  unfold sfx_stages in Hs.
  destruct (sfx_items opts) as [| it items].
  2: { destruct (sfx_loop _ 0 (it :: items)) as [stages labels].
       injection Hs as <- <-. intro H. rewrite app_assoc in H.
       apply last_of_app in H. subst s. reflexivity. }
  injection Hs as <- <-. rewrite app_nil_r.
  unfold voiceover_stages in Hv.
  destruct (voiceover_idx opts) as [i |];
    [| injection Hv as <- <-; intro H; destruct front; discriminate].
  destruct (negb (voiceover_pre_sped opts) && _);
    destruct (String.eqb _ "replace"); try destruct (String.eqb _ "mix");
    injection Hv as <- <-; cbn [app]; intro H;
    try (destruct front; discriminate);
    match type of H with
    | [?x] = _ => change [x] with ([] ++ [x])%list in H
    | [?x; ?y] = _ => change [x; y] with ([x] ++ [y])%list in H
    | [?x; ?y; ?z] = _ => change [x; y; z] with ([x; y] ++ [z])%list in H
    end;
    apply last_of_app in H; subst s; reflexivity.
Qed.

Lemma to_int_not_nil z :
  Z.to_int z <> Decimal.Pos Decimal.Nil /\ Z.to_int z <> Decimal.Neg Decimal.Nil.
Proof.
  destruct z as [| p | p]; simpl; split; try discriminate;
    intro H; injection H as H;
    exact (DecimalPos.Unsigned.to_uint_nonnil p H).
Qed.

Lemma str_int_inj a b : Str.str_int a = Str.str_int b -> a = b.
Proof.
  unfold Str.str_int. intro H. apply DecimalZ.to_int_inj.
  destruct (to_int_not_nil a) as [Ha1 Ha2].
  destruct (to_int_not_nil b) as [Hb1 Hb2].
  pose proof (NilZero.isi _ Ha1 Ha2) as Ia.
  pose proof (NilZero.isi _ Hb1 Hb2) as Ib.
  rewrite H in Ia. rewrite Ia in Ib. injection Ib as Ib. exact Ib.
Qed.

Lemma str_nat_inj a b : Str.str_nat a = Str.str_nat b -> a = b.
Proof.
  unfold Str.str_nat. intro H. apply str_int_inj in H. lia.
Qed.

Lemma length_append (a b : string) :
  String.length (a ++ b) = (String.length a + String.length b)%nat.
Proof. induction a as [| x a IH]; simpl; [reflexivity | rewrite IH; reflexivity]. Qed.

Lemma append_inj_l (a b c : string) : (a ++ c = b ++ c) -> a = b.
Proof.
  intro H.
  assert (Hlen : String.length a = String.length b).
  { apply (f_equal String.length) in H.
    rewrite !length_append in H. lia. }
  revert b H Hlen. induction a as [| x a IH]; intros [| y b] H Hlen;
    simpl in *; try discriminate; [reflexivity |].
  injection H as -> H. f_equal. apply IH; [exact H | lia].
Qed.

Lemma sfx_label_inj a b :
  "[" ++ ("sfx" ++ Str.str_nat a) ++ "]" = "[" ++ ("sfx" ++ Str.str_nat b) ++ "]" ->
  a = b.
Proof.
  simpl. intro H. injection H as H. apply append_inj_l in H.
  apply str_nat_inj. exact H.
Qed.

Lemma sfx_labels_form start items :
  forall offset x,
    In x (snd (sfx_loop start offset items)) ->
    exists j, (offset <= j)%nat /\ x = "[" ++ ("sfx" ++ Str.str_nat j) ++ "]".
Proof.
  induction items as [| it items IH]; intros offset x H; [contradiction |].
  rewrite sfx_loop_cons in H. cbn [snd] in H. destruct H as [<- | H].
  - exists offset. split; [lia | reflexivity].
  - apply IH in H. destruct H as (j & Hj & ->). exists j. split; [lia | reflexivity].
Qed.

Lemma sfx_labels_nodup start items :
  forall offset, NoDup (snd (sfx_loop start offset items)).
Proof.
  induction items as [| it items IH]; intro offset; [constructor |].
  rewrite sfx_loop_cons. cbn [snd]. constructor; [| apply IH].
  intro H. apply sfx_labels_form in H. destruct H as (j & Hj & Heq).
  apply sfx_label_inj in Heq. lia.
Qed.

Lemma NoDup_middle (a l b : list string) :
  NoDup l -> (forall x, In x l -> ~ In x (a ++ b)) ->
  NoDup (a ++ l ++ b) <-> NoDup (a ++ b).
Proof.
  intros Hl Hd.
  assert (Hp : Permutation (a ++ l ++ b) (l ++ a ++ b))
    by apply Permutation_app_swap_app.
  split; intro H.
  - eapply Permutation_NoDup in H; [| exact Hp].
    eapply NoDup_app_remove_l. exact H.
  - eapply Permutation_NoDup; [symmetry; exact Hp |].
    apply NoDup_app; assumption.
Qed.

Ltac app_prefix l :=
  lazymatch l with
  | ?x :: ?r => let p := app_prefix r in constr:(x :: p)
  | (_ ++ _)%list => constr:(@nil string)
  end.

Ltac app_rest l :=
  lazymatch l with
  | _ :: ?r => app_rest r
  | (?m ++ ?b)%list => constr:((m, b))
  end.

Ltac fixed_nodup :=
  lazymatch goal with
  | |- NoDup _ <-> true = false =>
      split; [| discriminate];
      let H := fresh "H" in
      intro H; exfalso;
      repeat (let Hn := fresh "Hn" in
              apply NoDup_cons_iff in H; destruct H as [Hn H];
              try (apply Hn; simpl; tauto))
  | |- NoDup _ <-> false = false =>
      split; [intros _; reflexivity | intros _];
      repeat constructor; simpl; intuition discriminate
  end.

(** X13: the stages of the audio graph write pairwise different pads
    except in one configuration: with a voiceover mixed in a mode other
    than ["replace"] and ["mix"] and a music track with [music_ducking],
    both side-chain stages write [[ducked]]. *)
Theorem ducked_pad_written_twice (opts : options) :
  NoDup (map stage_dst (fst (audio_graph opts))) <->
  voiceover_ducks opts && music_ducks opts = false.
Proof.
  unfold audio_graph, voiceover_stages, sfx_stages, music_stages,
    voiceover_ducks, music_ducks, voiceover_idx, music_idx.
  destruct (voiceover_input opts) as [v |];
    destruct (music_input opts) as [m |];
    try destruct (negb (voiceover_pre_sped opts) && _);
    try destruct (String.eqb _ "replace");
    try destruct (String.eqb _ "mix");
    destruct (music_ducking opts);
    destruct (audio_filters opts) as [| f fs];
    (destruct (sfx_items opts) as [| it items];
     [ cbn [fst snd map app stage_dst negb andb]; fixed_nodup
     | match goal with
       | |- context [sfx_loop ?start 0 (it :: items)] =>
           pose proof (sfx_labels_dsts start (it :: items) 0%nat) as Hl;
           pose proof (sfx_labels_nodup start (it :: items) 0%nat) as Hn;
           pose proof (sfx_labels_form start (it :: items) 0%nat) as Hf;
           destruct (sfx_loop start 0 (it :: items)) as [stages labels]
       end;
       cbn [fst snd] in Hl, Hn, Hf; cbn [fst snd negb andb];
       rewrite ?map_app; cbn [map stage_dst]; rewrite <- Hl;
       rewrite <- ?app_assoc; cbn [app];
       match goal with
       | |- NoDup ?l <-> _ =>
           let a := app_prefix l in
           let mb := app_rest l in
           lazymatch mb with
           | (?mid, ?b) =>
               etransitivity;
               [ apply (NoDup_middle a mid b);
                 [ exact Hn
                 | let x := fresh "x" in
                   let Hx := fresh "Hx" in
                   intros x Hx; apply Hf in Hx;
                   destruct Hx as (? & _ & ->); simpl;
                   intuition discriminate ]
               | cbn [app]; fixed_nodup ]
           end
       end ]).
Qed.

Section WithPlatform.
Context {E : Type} {P : Platform E}.



Lemma render_final_cmd_inputs base captions_ass opts out :
  exists tail,
    cmd_inputs (render_final_cmd base captions_ass opts out)
    = (base :: attached opts ++ tail)%list.
Proof.
  unfold render_final_cmd, attached.
  destruct (audio_graph opts) as [fc am].
  destruct (voiceover_input opts) as [v |]; destruct (music_input opts) as [m |];
    destruct captions_ass as [c |]; destruct fc as [| s fc];
    destruct (audio_filters opts) as [| f fs];
    cbv zeta; repeat rewrite <- app_assoc; cbn [app];
    repeat (rewrite cmd_inputs_take
            || (rewrite cmd_inputs_skip by reflexivity));
    rewrite cmd_inputs_input_args; eexists; reflexivity.
Qed.

Lemma sfx_stage_in_graph opts j item :
  nth_error (sfx_items opts) j = Some item ->
  exists k ms vol,
    In (DelayVolume (audio_pad k) ms vol ("[sfx" ++ Str.str_nat j ++ "]"))
       (fst (audio_graph opts)) /\
    nth_error (attached opts) (k - 1) = Some (item_path item) /\ (1 <= k)%nat.
Proof.
  intro H. unfold audio_graph.
  destruct (voiceover_stages opts) as [voice vl].
  unfold sfx_stages.
  destruct (sfx_items opts) as [| it items] eqn:Hitems;
    [destruct j; discriminate |].
  set (start := match music_idx opts with
                | Some m => (m + 1)%nat
                | None => match voiceover_idx opts with
                          | Some v => (v + 1)%nat
                          | None => 1%nat
                          end
                end).
  destruct (sfx_loop_stage start (it :: items) 0%nat j item H) as (ms & vol & Hn).
  destruct (sfx_loop start 0 (it :: items)) as [stages labels].
  cbn [fst] in Hn. apply nth_error_In in Hn.
  destruct (music_stages opts "[voice_sfx]") as [music am].
  exists (start + j)%nat, ms, vol. split; [| split].
  - assert (Hin : In (DelayVolume (audio_pad (start + j)) ms vol
                        ("[sfx" ++ Str.str_nat j ++ "]"))
                    (voice ++ (stages ++ [Amix (vl :: labels) "[voice_sfx]"])
                     ++ music)%list).
    { apply in_or_app. right. apply in_or_app. left.
      apply in_or_app. left. exact Hn. }
    destruct (audio_filters opts); cbn [fst];
      [exact Hin | apply in_or_app; left; exact Hin].
  - unfold attached. rewrite Hitems. subst start.
    unfold music_idx, voiceover_idx.
    destruct (voiceover_input opts); destruct (music_input opts);
      cbn [app]; simpl Nat.sub;
      repeat match goal with
      | |- context [(?a + 1 + j - 1)%nat] =>
          replace (a + 1 + j - 1)%nat with (a + j)%nat by lia
      | |- context [(1 + j - 0)%nat] =>
          replace (1 + j - 0)%nat with (S j) by lia
      end; cbn [Nat.add nth_error];
      rewrite ?Nat.sub_0_r; rewrite nth_error_map, H; reflexivity.
  - subst start. destruct (music_idx opts); [lia |].
    destruct (voiceover_idx opts); lia.
Qed.

(** X11: the input indices the audio graph of [render_final] uses are
    the positions of the files on its command line: input 0 is the base
    video, [voiceover_idx] is where the voiceover file is attached,
    [music_idx] where the music file is, and the delay stage of sound
    effect [j] reads the input that is that effect's file. *)
Theorem audio_pads_match_inputs (base_path : string)
    (captions_ass : option string) (opts : options) (output_path : string) :
  let inputs :=
    cmd_inputs (render_final_cmd base_path captions_ass opts output_path) in
  nth_error inputs 0 = Some base_path /\
  (forall p, voiceover_input opts = Some p ->
     exists i, voiceover_idx opts = Some i /\ nth_error inputs i = Some p) /\
  (forall p, music_input opts = Some p ->
     exists i, music_idx opts = Some i /\ nth_error inputs i = Some p) /\
  (forall j item, nth_error (sfx_items opts) j = Some item ->
     exists k ms vol,
       In (DelayVolume (audio_pad k) ms vol ("[sfx" ++ Str.str_nat j ++ "]"))
          (fst (audio_graph opts)) /\
       nth_error inputs k = Some (item_path item)).
Proof.
  intro inputs. subst inputs.
  destruct (render_final_cmd_inputs base_path captions_ass opts output_path)
    as [tail ->].
  split; [reflexivity |]. split; [| split].
  - intros p Hp. unfold voiceover_idx, attached. rewrite Hp.
    exists 1%nat. split; reflexivity.
  - intros p Hp. unfold music_idx, attached. rewrite Hp.
    destruct (voiceover_input opts); eexists; split; reflexivity.
  - intros j item H.
    destruct (sfx_stage_in_graph opts j item H) as (k & ms & vol & Hin & Hn & Hk).
    exists k, ms, vol. split; [exact Hin |].
    destruct k as [| k]; [lia |]. cbn [nth_error].
    apply nth_error_prefix. simpl in Hn. rewrite Nat.sub_0_r in Hn. exact Hn.
Qed.

(** X12: the audio graph of [render_final] is well formed: every stage
    reads only pads of attached inputs or pads an earlier stage wrote,
    the pad mapped to the output can be read, and when the graph has a
    stage the mapped pad is the one its last stage writes. *)
Theorem audio_graph_wired (base_path : string) (captions_ass : option string)
    (opts : options) (output_path : string) :
  let inputs :=
    cmd_inputs (render_final_cmd base_path captions_ass opts output_path) in
  let stages := fst (audio_graph opts) in
  let audio_map := snd (audio_graph opts) in
  wired inputs [] stages /\
  readable inputs (map stage_dst stages) audio_map /\
  (forall front s, stages = (front ++ [s])%list -> audio_map = stage_dst s).
Proof.
  intros inputs stages audio_map. subst inputs stages audio_map.
  destruct (render_final_cmd_inputs base_path captions_ass opts output_path)
    as [tail ->].
  destruct (audio_graph_wired_in (base_path :: attached opts ++ tail) opts
              (fun d k => input_readable base_path tail opts d k))
    as [Hw Hr].
  split; [exact Hw |]. split.
  - eapply readable_mono; [| exact Hr]. intros x Hx. apply in_rev. exact Hx.
  - apply audio_map_last.
Qed.

End WithPlatform.


(** The graph of a voiceover that ducks the base track, under a music
    track that is ducked itself, names [[ducked]] twice. *)
Example ducked_twice_example :
  map stage_dst
    (fst (audio_graph
            (with_music "uploads/music.mp3" true
               (voiceover_opts 1 "duck" false))))
  = ["[ducked]"; "[voice]"; "[music]"; "[ducked]"; "[aout]"].
Proof. reflexivity. Qed.

End GraphSpec.

(** ** app.py: the job registry, the pipeline's calls and the URL job *)

Module JobSpec.
Import PlanValidation Options Effects FfmpegEngine App AppFlow.
Import EngineProps RetryPolicy ValidationProps JobProps.
Import GraphProps.
Import FfmpegEngineSpec AppSpec.
Local Open Scope monad_scope.

Lemma jobs_get_update_other k job_id fields jobs :
  k <> job_id ->
  jobs_get k (jobs_update job_id fields jobs) = jobs_get k jobs.
Proof.
  intro Hk. induction jobs as [| [k0 j] jobs IH]; simpl; [reflexivity |].
  destruct (String.eqb_spec job_id k0) as [-> | Hne]; simpl.
  - destruct (String.eqb_spec k k0); [contradiction | reflexivity].
  - destruct (k =? k0)%string; [reflexivity | exact IH].
Qed.

Lemma jobs_update_keys job_id fields jobs :
  map fst (jobs_update job_id fields jobs) = map fst jobs.
Proof.
  induction jobs as [| [k0 j] jobs IH]; simpl; [reflexivity |].
  destruct (job_id =? k0)%string; simpl; [reflexivity | rewrite IH; reflexivity].
Qed.

Lemma bind_ok {E A B} (c : M E A) (k : A -> M E B) w b w' :
  bind c k w = (Ok b, w') ->
  exists a w1, c w = (Ok a, w1) /\ k a w1 = (Ok b, w').
Proof.
  unfold bind. destruct (c w) as [[a | e] w1]; [| discriminate].
  intro H. exists a, w1. split; [reflexivity | exact H].
Qed.

Lemma lookup_dict_set key value d :
  Str.lookup key (dict_set key value d) = Some value.
Proof.
  induction d as [| [k v] d IH]; simpl.
  - rewrite String.eqb_refl. reflexivity.
  - destruct (key =? k)%string eqn:Hk; simpl; rewrite Hk; [reflexivity | exact IH].
Qed.

Section WithPlatform.
Context {E : Type} {P : Platform E}.
Variable RUNS_DIR : string.
Variable UPLOADS_DIR : string.

Lemma keeps_ret {A} (a : A) : keeps_jobs (ret a : M E A).
Proof. intro w. reflexivity. Qed.

Lemma keeps_raise {A} (e : exn) : keeps_jobs (raise e : M E A).
Proof. intro w. reflexivity. Qed.

Lemma keeps_call (c : syscall) : keeps_jobs (call c).
Proof.
  intro w. destruct (call c w) as [r w'] eqn:H.
  apply call_JOBS in H. exact H.
Qed.

Lemma keeps_bind {A B} (c : M E A) (k : A -> M E B) :
  keeps_jobs c -> (forall a, keeps_jobs (k a)) -> keeps_jobs (bind c k).
Proof.
  intros Hc Hk w. unfold bind. specialize (Hc w).
  destruct (c w) as [[a | e] w1]; simpl in *; [| exact Hc].
  rewrite (Hk a w1). exact Hc.
Qed.

Lemma keeps_try {A} (c : M E A) (h : exn -> M E A) :
  keeps_jobs c -> (forall e, keeps_jobs (h e)) -> keeps_jobs (try_except c h).
Proof.
  intros Hc Hh w. unfold try_except. specialize (Hc w).
  destruct (c w) as [[a | e] w1]; simpl in *; [exact Hc |].
  rewrite (Hh e w1). exact Hc.
Qed.

Lemma keeps_map_m {A B} (body : A -> M E B) (l : list A) :
  (forall a, keeps_jobs (body a)) -> keeps_jobs (map_m body l).
Proof.
  intro Hb. induction l as [| a l IH]; simpl; [apply keeps_ret |].
  apply keeps_bind; [apply Hb | intro b].
  apply keeps_bind; [exact IH | intro bs; apply keeps_ret].
Qed.

Ltac keeps :=
  repeat first
    [ apply keeps_ret
    | apply keeps_raise
    | apply keeps_call
    | apply keeps_bind; [| intros ?]
    | apply keeps_try; [| intros ?]
    | apply keeps_map_m; intros ?
    | assumption
    | match goal with
      | |- keeps_jobs (if ?c then _ else _) => destruct c
      | |- keeps_jobs (match ?x with _ => _ end) => destruct x
      end ].

Lemma keeps_run cmd cmd_log stderr_log :
  keeps_jobs (_run cmd cmd_log stderr_log).
Proof. unfold _run. keeps. Qed.

Lemma keeps_probe path : keeps_jobs (_probe_duration path).
Proof. unfold _probe_duration. keeps. Qed.

Lemma keeps_concat clip_paths output_path cmd_log stderr_log :
  keeps_jobs (concat_clips clip_paths output_path cmd_log stderr_log).
Proof. unfold concat_clips. keeps. Qed.

Lemma keeps_transitions clip_paths transition_type duration
    output_path cmd_log stderr_log :
  keeps_jobs (apply_transitions clip_paths transition_type duration
                output_path cmd_log stderr_log).
Proof.
  unfold apply_transitions.
  destruct (_ || _); [apply keeps_concat |].
  apply keeps_bind; [apply keeps_map_m; intro; apply keeps_probe | intro].
  apply keeps_run.
Qed.

Lemma keeps_overlays base_path items output_path cmd_log stderr_log :
  keeps_jobs (apply_overlays base_path items output_path cmd_log stderr_log).
Proof.
  unfold apply_overlays. destruct items; [keeps | apply keeps_run].
Qed.

Lemma keeps_inspect path : keeps_jobs (inspect_video path).
Proof. unfold inspect_video. keeps. Qed.

Lemma keeps_append_log path message : keeps_jobs (append_log path message).
Proof. unfold append_log. keeps. Qed.

Lemma keeps_init_job_dir run_root job_id :
  keeps_jobs (init_job_dir run_root job_id).
Proof. unfold init_job_dir. keeps. Qed.

Lemma keeps_make_clips source_path filter_chain fps run_dir segments :
  forall idx,
    keeps_jobs (make_clips source_path filter_chain fps run_dir idx segments).
Proof.
  induction segments as [| sg rest IH]; intro idx; simpl; [apply keeps_ret |].
  destruct (seg_start sg); [| apply keeps_raise].
  destruct (seg_end sg); [| apply keeps_raise].
  apply keeps_bind; [unfold run_checked; keeps | intro].
  apply keeps_bind; [apply IH | intro; apply keeps_ret].
Qed.

Lemma keeps_resolve_target source_path opts :
  keeps_jobs (resolve_target source_path opts).
Proof.
  unfold resolve_target, ensure_ffmpeg_available.
  apply keeps_bind; [keeps | intro].
  apply keeps_bind; [apply keeps_inspect | intro info]. keeps.
Qed.

Lemma keeps_render_resolved source_path segments opts pl run_dir :
  keeps_jobs (render_resolved source_path segments opts pl run_dir).
Proof.
  unfold render_resolved, join_clips, render_final.
  apply keeps_bind; [apply keeps_make_clips | intro clips].
  apply keeps_bind;
    [apply keeps_try; [apply keeps_transitions | intro; apply keeps_concat] | intro].
  apply keeps_bind; [keeps | intro items].
  apply keeps_bind;
    [apply keeps_try;
     [apply keeps_bind; [apply keeps_overlays | intro; apply keeps_ret]
     | intro; apply keeps_ret] | intro].
  apply keeps_bind; [keeps | intro].
  apply keeps_bind; [apply keeps_run | intro; apply keeps_ret].
Qed.

Lemma render_video_pipeline_JOBS source_path segments opts pl run_dir w :
  JOBS (snd (render_video_pipeline source_path segments opts pl run_dir w))
  = JOBS w.
Proof.
  unfold render_video_pipeline.
  pose proof (keeps_resolve_target source_path opts w) as H1.
  destruct (resolve_target source_path opts w) as [[o1 | e] w1];
    simpl in *; [| exact H1].
  pose proof (keeps_render_resolved source_path segments o1 pl run_dir w1) as H2.
  destruct (render_resolved source_path segments o1 pl run_dir w1) as [r w2].
  simpl in *. congruence.
Qed.

Lemma render_with_fallback_JOBS render_source segments opts pl run_dir w :
  JOBS (snd (render_with_fallback render_source segments opts pl run_dir w))
  = JOBS w.
Proof.
  unfold render_with_fallback.
  pose proof (render_video_pipeline_JOBS render_source segments opts pl run_dir w)
    as H1.
  destruct (render_video_pipeline render_source segments opts pl run_dir w)
    as [[[p | e] o1] w1]; simpl in *; [exact H1 |].
  pose proof (render_video_pipeline_JOBS render_source segments (fallback_of o1)
                pl run_dir w1) as H2.
  destruct (render_video_pipeline render_source segments (fallback_of o1)
              pl run_dir w1) as [[[p | e2] o2] w2]; simpl in *; [congruence |].
  pose proof (render_video_pipeline_JOBS render_source segments
                (set_captions_enabled false o2) pl run_dir w2) as H3.
  destruct (render_video_pipeline render_source segments
              (set_captions_enabled false o2) pl run_dir w2) as [[r o3] w3].
  simpl in *. congruence.
Qed.

Lemma update_job_eq job_id fields (w : world E) :
  update_job job_id fields w
  = (Ok tt, mkWorld (env w) (trace w) (jobs_update job_id fields (JOBS w))).
Proof.
  unfold update_job. destruct (jobs_get job_id (JOBS w)) eqn:Hg; [reflexivity |].
  rewrite (jobs_update_absent _ _ _ Hg). destruct w. reflexivity.
Qed.

(** X14: [update_job] always returns, makes no call and touches no
    entry of the registry but the one of its job, whose fields it
    overwrites with the ones given; for an id the registry does not
    hold it changes nothing at all. *)
Theorem update_job_frame (job_id : string) (fields : job_fields) (w : world E) :
  let w' := snd (update_job job_id fields w) in
  fst (update_job job_id fields w) = Ok tt /\
  env w' = env w /\ trace w' = trace w /\
  map fst (JOBS w') = map fst (JOBS w) /\
  jobs_get job_id (JOBS w')
  = option_map (job_update fields) (jobs_get job_id (JOBS w)) /\
  (forall k, k <> job_id -> jobs_get k (JOBS w') = jobs_get k (JOBS w)) /\
  (jobs_get job_id (JOBS w) = None -> w' = w).
Proof.
  intro w'. subst w'. rewrite update_job_eq. cbn [fst snd env trace JOBS].
  repeat split.
  - apply jobs_update_keys.
  - apply jobs_get_update.
  - intros k Hk. apply jobs_get_update_other. exact Hk.
  - intro Hg. rewrite (jobs_update_absent _ _ _ Hg). destruct w. reflexivity.
Qed.

Lemma render_resolved_path source_path segments opts pl run_dir
    (w w' : world E) p :
  render_resolved source_path segments opts pl run_dir w = (Ok p, w') ->
  p = Str.path_join run_dir "final.mp4".
Proof.
  unfold render_resolved. intro H.
  repeat (apply bind_ok in H; destruct H as (? & ? & _ & H)).
  unfold ret in H. injection H as <- _. reflexivity.
Qed.

Lemma render_video_pipeline_path source_path segments opts pl run_dir
    (w w' : world E) p o :
  render_video_pipeline source_path segments opts pl run_dir w
  = ((Ok p, o), w') ->
  p = Str.path_join run_dir "final.mp4".
Proof.
  unfold render_video_pipeline.
  destruct (resolve_target source_path opts w) as [[o1 | e] w1]; [| discriminate].
  destruct (render_resolved source_path segments o1 pl run_dir w1)
    as [r w2] eqn:Hr.
  intro H. injection H as -> _ _. eapply render_resolved_path. exact Hr.
Qed.

Lemma render_with_fallback_path render_source segments opts pl run_dir
    (w w' : world E) p o :
  render_with_fallback render_source segments opts pl run_dir w
  = ((Ok p, o), w') ->
  p = Str.path_join run_dir "final.mp4".
Proof.
  unfold render_with_fallback.
  destruct (render_video_pipeline render_source segments opts pl run_dir w)
    as [[[p1 | e1] o1] w1] eqn:H1.
  - intro H. injection H as <- _ _. eapply render_video_pipeline_path. exact H1.
  - destruct (render_video_pipeline render_source segments (fallback_of o1)
                pl run_dir w1) as [[[p2 | e2] o2] w2] eqn:H2.
    + intro H. injection H as <- _ _. eapply render_video_pipeline_path. exact H2.
    + destruct (render_video_pipeline render_source segments
                  (set_captions_enabled false o2) pl run_dir w2)
        as [[r o3] w3] eqn:H3.
      intro H. injection H as -> _ _. eapply render_video_pipeline_path. exact H3.
Qed.

Lemma finish_job_JOBS job_id render_source output_path opts run_dir
    (w w' : world E) r :
  finish_job job_id render_source output_path opts run_dir w = (r, w') ->
  (r = Ok tt ->
   JOBS w' = jobs_update job_id (done_fields output_path) (JOBS w)) /\
  (JOBS w' = JOBS w \/
   JOBS w' = jobs_update job_id (done_fields output_path) (JOBS w)).
Proof.
  unfold finish_job, bind.
  pose proof (keeps_inspect output_path w) as H1.
  destruct (inspect_video output_path w) as [[oi | e1] w1]; simpl in H1.
  2: { intro H. injection H as <- <-. split; [discriminate | left; exact H1]. }
  pose proof (keeps_inspect render_source w1) as H2.
  destruct (inspect_video render_source w1) as [[si | e2] w2]; simpl in H2.
  2: { intro H. injection H as <- <-. split; [discriminate | left; congruence]. }
  destruct (resolution_lower oi si).
  { unfold raise. intro H. injection H as <- <-.
    split; [discriminate | left; congruence]. }
  rewrite update_job_eq.
  set (w3 := mkWorld (env w2) (trace w2) _).
  assert (H3 : JOBS w3 = jobs_update job_id (done_fields output_path) (JOBS w))
    by (subst w3; simpl; unfold done_fields; congruence).
  assert (Hk : forall (c : M E unit), keeps_jobs c ->
                 c w3 = (r, w') -> JOBS w' = JOBS w3).
  { intros c Hc Hr. specialize (Hc w3). rewrite Hr in Hc. exact Hc. }
  intro H.
  assert (HJ : JOBS w' = JOBS w3).
  { revert H. apply Hk.
    destruct (notify_email opts) as [to_email |]; [| apply keeps_ret].
    destruct (Str.truthy to_email); [| apply keeps_ret].
    apply keeps_try.
    - apply keeps_bind; [apply keeps_call | intro; apply keeps_ret].
    - intro. apply keeps_append_log. }
  split; [intros _ | right]; congruence.
Qed.

Lemma fail_job_JOBS job_id exc (w w' : world E) :
  fail_job RUNS_DIR job_id exc w = (Ok tt, w') ->
  JOBS w'
  = jobs_update job_id
      (mkFields (Some "error") (Some 100%Z) (Some (str_exn exc)) None) (JOBS w).
Proof.
  unfold fail_job. intro H.
  apply bind_ok in H. destruct H as (rd & w1 & H1 & H).
  apply bind_ok in H. destruct H as (u2 & w2 & H2 & H).
  apply bind_ok in H. destruct H as (u3 & w3 & H3 & H).
  rewrite update_job_eq in H. injection H as <-. cbn [JOBS].
  pose proof (keeps_init_job_dir RUNS_DIR job_id w) as K1. rewrite H1 in K1.
  pose proof (keeps_append_log (Str.path_join rd "server.log")
                ("ERROR: " ++ str_exn exc) w1) as K2. rewrite H2 in K2.
  pose proof (keeps_append_log (Str.path_join rd "server.log")
                (format_exc exc) w2) as K3. rewrite H3 in K3.
  simpl in *. congruence.
Qed.

(** X15: when the rendering part of [process_job] returns for a job
    of the registry, that job is finished, at progress 100: either
    ["done"], with the output [final.mp4] of its directory and its
    error field untouched, or ["error"], with the text of an exception;
    no other job has changed. *)
Theorem rendering_ends_done_or_error
    (job_id render_source : string) (segments : list segment)
    (opts : options) (pl : plan) (run_dir : string) (w w' : world E) (j : job) :
  jobs_get job_id (JOBS w) = Some j ->
  process_job_rendering RUNS_DIR job_id render_source segments opts pl run_dir w
  = (Ok tt, w') ->
  (exists j',
      jobs_get job_id (JOBS w') = Some j' /\ progress j' = 100%Z /\
      ((status j' = "done" /\
        output j' = Some (Str.path_join run_dir "final.mp4") /\
        error j' = error j) \/
       (status j' = "error" /\ exists exc, error j' = Some (str_exn exc)))) /\
  (forall k, k <> job_id -> jobs_get k (JOBS w') = jobs_get k (JOBS w)).
Proof.
  intros Hj H. unfold process_job_rendering, try_except, bind in H.
  rewrite update_job_eq in H.
  set (rendering := mkFields (Some "rendering") (Some 80%Z) None None) in H.
  set (w0 := mkWorld (env w) (trace w) (jobs_update job_id rendering (JOBS w))) in H.
  pose proof (render_with_fallback_JOBS render_source segments opts pl run_dir w0)
    as HJ1.
  destruct (render_with_fallback render_source segments opts pl run_dir w0)
    as [[[p | e] o1] w1] eqn:Hr; simpl in HJ1.
  - apply render_with_fallback_path in Hr. subst p.
    destruct (finish_job job_id render_source (Str.path_join run_dir "final.mp4")
                o1 run_dir w1) as [[[] | e] w2] eqn:Hf.
    + injection H as <-. apply finish_job_JOBS in Hf. destruct Hf as [Hf _].
      rewrite (Hf eq_refl), HJ1. subst w0. cbn [JOBS]. split.
      * rewrite !jobs_get_update, Hj. cbn [option_map].
        eexists. split; [reflexivity |]. split; [reflexivity |].
        left. repeat split.
      * intros k Hk. rewrite !jobs_get_update_other by exact Hk. reflexivity.
    + apply finish_job_JOBS in Hf. destruct Hf as [_ Hf].
      apply fail_job_JOBS in H. rewrite H. split.
      * rewrite jobs_get_update.
        destruct Hf as [-> | ->]; rewrite HJ1; subst w0; cbn [JOBS];
          rewrite !jobs_get_update, Hj; cbn [option_map];
          (eexists; split; [reflexivity |]; split; [reflexivity |];
           right; split; [reflexivity | exists e; reflexivity]).
      * intros k Hk. rewrite jobs_get_update_other by exact Hk.
        destruct Hf as [-> | ->]; rewrite HJ1; subst w0; cbn [JOBS];
          rewrite !jobs_get_update_other by exact Hk; reflexivity.
  - apply fail_job_JOBS in H. rewrite H, HJ1. subst w0. cbn [JOBS]. split.
    + rewrite !jobs_get_update, Hj. cbn [option_map].
      eexists. split; [reflexivity |]. split; [reflexivity |].
      right. split; [reflexivity | exists e; reflexivity].
    + intros k Hk. rewrite !jobs_get_update_other by exact Hk. reflexivity.
Qed.

Lemma only_ret {A} allowed (a : A) : calls_only allowed (ret a : M E A).
Proof. intro w. exists []. rewrite app_nil_r. split; [reflexivity | constructor]. Qed.

Lemma only_raise {A} allowed (e : exn) : calls_only allowed (raise e : M E A).
Proof. intro w. exists []. rewrite app_nil_r. split; [reflexivity | constructor]. Qed.

Lemma only_call (allowed : syscall -> Prop) (c : syscall) :
  allowed c -> calls_only allowed (call c).
Proof.
  intros Hc w. exists [c]. split; [| constructor; [exact Hc | constructor]].
  unfold call. destruct (sys c (env w)) as [r e'].
  destruct (raised r); reflexivity.
Qed.

Lemma only_bind {A B} allowed (c : M E A) (k : A -> M E B) :
  calls_only allowed c -> (forall a, calls_only allowed (k a)) ->
  calls_only allowed (bind c k).
Proof.
  intros Hc Hk w. unfold bind. destruct (Hc w) as (l1 & H1 & F1).
  destruct (c w) as [[a | e] w1]; simpl in *.
  - destruct (Hk a w1) as (l2 & H2 & F2). exists (l1 ++ l2)%list.
    rewrite H2, H1, app_assoc. split; [reflexivity |].
    apply Forall_app. split; assumption.
  - exists l1. split; assumption.
Qed.

Lemma only_update_job allowed job_id fields :
  calls_only allowed (update_job job_id fields : M E unit).
Proof.
  intro w. rewrite update_job_eq. exists []. rewrite app_nil_r.
  split; [reflexivity | constructor].
Qed.

Lemma only_init_job_dir job_id :
  calls_only (job_dir_call RUNS_DIR job_id) (init_job_dir RUNS_DIR job_id).
Proof.
  unfold init_job_dir. apply only_bind; [| intro; apply only_ret].
  apply only_call. left. reflexivity.
Qed.

Lemma only_append_log job_id message :
  calls_only (job_dir_call RUNS_DIR job_id)
    (append_log (Str.path_join (Str.path_join RUNS_DIR job_id) "server.log")
       message).
Proof.
  unfold append_log. apply only_bind; [| intro; apply only_ret].
  apply only_call. right. eexists. reflexivity.
Qed.

Lemma init_job_dir_value job_id (w w' : world E) run_dir :
  init_job_dir RUNS_DIR job_id w = (Ok run_dir, w') ->
  run_dir = Str.path_join RUNS_DIR job_id.
Proof.
  unfold init_job_dir, bind. destruct (call _ w) as [[r | e] w1]; [| discriminate].
  unfold ret. intro H. injection H as <- _. reflexivity.
Qed.

(** [init_job_dir] gives the same directory whenever it returns, so a
    computation that continues with it can be studied at that
    directory. *)
Lemma only_with_job_dir {A} job_id (k : string -> M E A) :
  calls_only (job_dir_call RUNS_DIR job_id) (k (Str.path_join RUNS_DIR job_id)) ->
  calls_only (job_dir_call RUNS_DIR job_id)
    (bind (init_job_dir RUNS_DIR job_id) k).
Proof.
  intros Hk w. unfold bind.
  destruct (only_init_job_dir job_id w) as (l1 & H1 & F1).
  destruct (init_job_dir RUNS_DIR job_id w) as [[rd | e] w1] eqn:Hi; simpl in *.
  - apply init_job_dir_value in Hi. subst rd.
    destruct (Hk w1) as (l2 & H2 & F2). exists (l1 ++ l2)%list.
    rewrite H2, H1, app_assoc. split; [reflexivity |].
    apply Forall_app. split; assumption.
  - exists l1. split; assumption.
Qed.

Lemma only_fail_job job_id exc :
  calls_only (job_dir_call RUNS_DIR job_id) (fail_job RUNS_DIR job_id exc).
Proof.
  unfold fail_job. apply only_with_job_dir.
  apply only_bind; [apply only_append_log | intro].
  apply only_bind; [apply only_append_log | intro].
  apply only_update_job.
Qed.

(** X16: [process_job_from_url] starts no process and makes no call
    but the [mkdir] of the job's directory and appends to the job's
    [server.log], whatever the platform answers. *)
Theorem url_job_only_logs (job_id url : string) (opts : options) (w : world E) :
  let w' := snd (process_job_from_url RUNS_DIR UPLOADS_DIR job_id url opts w) in
  exists l,
    trace w' = (trace w ++ l)%list /\
    Forall (job_dir_call RUNS_DIR job_id) l /\
    subprocesses l = [].
Proof.
  intro w'. subst w'.
  assert (Hsub : forall l, Forall (job_dir_call RUNS_DIR job_id) l ->
                           subprocesses l = []).
  { induction l as [| c l IH]; intro F; [reflexivity |].
    inversion F as [| ? ? Hc F']; subst. unfold subprocesses in *. simpl.
    rewrite (IH F'). destruct Hc as [-> | [text ->]]; reflexivity. }
  assert (Hall : exists l,
             trace (snd (process_job_from_url RUNS_DIR UPLOADS_DIR job_id url opts w))
             = (trace w ++ l)%list /\ Forall (job_dir_call RUNS_DIR job_id) l).
  { unfold process_job_from_url. cbv zeta.
    match goal with
    | |- context [match ?body w with _ => _ end] =>
        assert (Hb : calls_only (job_dir_call RUNS_DIR job_id) body)
    end.
    { apply only_bind; [apply only_update_job | intro].
      apply only_bind; [apply only_update_job | intro].
      apply only_bind; [apply only_update_job | intro].
      apply only_with_job_dir. apply only_append_log. }
    destruct (Hb w) as (l1 & H1 & F1).
    match goal with
    | |- context [match ?body w with _ => _ end] =>
        destruct (body w) as [[[] | exc] w1]
    end; simpl in H1.
    - match goal with
      | |- context [let (r, w2) := ?h w1 in _] =>
          assert (Hh : calls_only (job_dir_call RUNS_DIR job_id) h)
      end.
      { apply only_with_job_dir.
        apply only_bind; [apply only_append_log | intro].
        apply only_update_job. }
      destruct (Hh w1) as (l2 & H2 & F2).
      match goal with
      | |- context [let (r, w2) := ?h w1 in _] => destruct (h w1) as [r w2]
      end.
      simpl in *. exists (l1 ++ l2)%list. rewrite H2, H1, app_assoc.
      split; [reflexivity | apply Forall_app; split; assumption].
    - destruct (only_fail_job job_id exc w1) as (l2 & H2 & F2).
      destruct (fail_job RUNS_DIR job_id exc w1) as [r w2].
      simpl in *. exists (l1 ++ l2)%list. rewrite H2, H1, app_assoc.
      split; [reflexivity | apply Forall_app; split; assumption]. }
  destruct Hall as (l & Ht & F). exists l.
  split; [exact Ht | split; [exact F | apply Hsub; exact F]].
Qed.

Lemma call_returns (c : syscall) (w : world E) :
  raised (fst (sys c (env w))) = None ->
  exists r w', call c w = (Ok r, w') /\ JOBS w' = JOBS w.
Proof.
  unfold call. destruct (sys c (env w)) as [r e']. simpl. intros ->.
  eexists _, _. split; reflexivity.
Qed.

(** X17: [process_job_from_url] records the URL under ["source_url"]
    and never renders: when it returns, the job is in state ["error"]
    at progress 100 with its output untouched; and when the job's
    directory and log can be written it does return, with the error
    ["URL download is disabled."]. *)
Theorem url_job_reports_disabled (job_id url : string) (opts : options)
    (w : world E) (j : job) :
  jobs_get job_id (JOBS w) = Some j ->
  let run := process_job_from_url RUNS_DIR UPLOADS_DIR job_id url opts w in
  let r := fst (fst run) in
  let opts' := snd (fst run) in
  let w' := snd run in
  Str.lookup "source_url" (other_keys opts') = Some url /\
  (r = Ok tt ->
   exists j',
     jobs_get job_id (JOBS w') = Some j' /\
     status j' = "error" /\ progress j' = 100%Z /\
     output j' = output j /\ exists message, error j' = Some message) /\
  ((forall c e, job_dir_call RUNS_DIR job_id c -> raised (fst (sys c e)) = None) ->
   r = Ok tt /\
   exists j',
     jobs_get job_id (JOBS w') = Some j' /\
     error j' = Some "URL download is disabled.").
Proof.
  intros Hj run r opts' w'. subst r opts' w' run.
  unfold process_job_from_url. cbv zeta.
  set (J3 := jobs_update job_id
               (mkFields (Some "downloading") (Some 30%Z) None None)
               (jobs_update job_id
                  (mkFields (Some "fetching_url") (Some 20%Z) None None)
                  (jobs_update job_id
                     (mkFields (Some "queued") (Some 10%Z) None None) (JOBS w)))).
  set (w3 := mkWorld (env w) (trace w) J3).
  set (log := Str.path_join (Str.path_join RUNS_DIR job_id) "server.log").
  assert (Hget : exists j3, jobs_get job_id J3 = Some j3 /\ output j3 = output j).
  { subst J3. rewrite !jobs_get_update, Hj. eexists. split; reflexivity. }
  destruct Hget as (j3 & Hj3 & Ho3).
  assert (Hbw : forall k : M E unit,
             bind (update_job job_id
                     (mkFields (Some "queued") (Some 10%Z) None None))
               (fun _ =>
                  bind (update_job job_id
                          (mkFields (Some "fetching_url") (Some 20%Z) None None))
                    (fun _ =>
                       bind (update_job job_id
                               (mkFields (Some "downloading") (Some 30%Z)
                                  None None))
                         (fun _ => k))) w
             = k w3).
  { intro k. unfold bind. rewrite update_job_eq. cbv iota beta.
    rewrite update_job_eq. cbv iota beta. cbn [env trace JOBS].
    rewrite update_job_eq. cbv iota beta. cbn [env trace JOBS]. reflexivity. }
  rewrite Hbw. clear Hbw.
  (* the rest of the body *)
  assert (Hbody :
            JOBS (snd (bind (init_job_dir RUNS_DIR job_id)
                         (fun run_dir =>
                            append_log (Str.path_join run_dir "server.log")
                              ("Downloading URL: " ++ sanitize_url_for_logs url))
                         w3))
            = J3).
  { assert (K : keeps_jobs
                  (bind (init_job_dir RUNS_DIR job_id)
                     (fun run_dir =>
                        append_log (Str.path_join run_dir "server.log")
                          ("Downloading URL: " ++ sanitize_url_for_logs url))))
      by (apply keeps_bind; [apply keeps_init_job_dir
                            | intro; apply keeps_append_log]).
    exact (K w3). }
  split; [| split].
  - destruct (bind (B := unit) (init_job_dir RUNS_DIR job_id) _ w3) as [[[] | exc] w1].
    + destruct (bind (B := unit) (init_job_dir RUNS_DIR job_id) _ w1) as [r2 w2].
      cbn [fst snd other_keys set_other_keys]. apply lookup_dict_set.
    + destruct (fail_job RUNS_DIR job_id exc w1) as [r2 w2].
      cbn [fst snd other_keys set_other_keys]. apply lookup_dict_set.
  - destruct (bind (B := unit) (init_job_dir RUNS_DIR job_id) _ w3) as [[[] | exc] w1];
      cbn [snd] in Hbody; rename Hbody into Hb.
    + destruct (bind (B := unit) (init_job_dir RUNS_DIR job_id) _ w1) as [r2 w2] eqn:Hh.
      cbn [fst snd]. intros ->.
      apply bind_ok in Hh. destruct Hh as (rd & wa & Ha & Hh).
      apply bind_ok in Hh. destruct Hh as (u & wb & Hb2 & Hh).
      rewrite update_job_eq in Hh. injection Hh as <-. cbn [JOBS].
      pose proof (keeps_init_job_dir RUNS_DIR job_id w1) as Ka. rewrite Ha in Ka.
      pose proof (keeps_append_log (Str.path_join rd "server.log")
                    ("ERROR: " ++
                     code (download_url url
                             (Str.path_join UPLOADS_DIR (job_id ++ "_url.mp4")))
                     ++ " " ++
                     ingest_str (download_url url
                             (Str.path_join UPLOADS_DIR (job_id ++ "_url.mp4"))))
                    wa) as Kb.
      rewrite Hb2 in Kb. simpl in Ka, Kb.
      rewrite Kb, Ka, Hb, jobs_get_update, Hj3. cbn [option_map].
      eexists. split; [reflexivity |]. repeat split; try exact Ho3.
      eexists. reflexivity.
    + destruct (fail_job RUNS_DIR job_id exc w1) as [r2 w2] eqn:Hf.
      cbn [fst snd]. intros ->. apply fail_job_JOBS in Hf.
      rewrite Hf, Hb, jobs_get_update, Hj3. cbn [option_map].
      eexists. split; [reflexivity |]. repeat split; try exact Ho3.
      eexists. reflexivity.
  - intro Hhealthy.
    assert (Hmk : forall w0 : world E,
               exists w1, init_job_dir RUNS_DIR job_id w0
                          = (Ok (Str.path_join RUNS_DIR job_id), w1)
                          /\ JOBS w1 = JOBS w0).
    { intro w0. unfold init_job_dir, bind.
      destruct (call_returns
                  (Mkdir (Str.path_join (Str.path_join RUNS_DIR job_id) "assets"))
                  w0) as (r0 & w1 & Hc & HJ).
      { apply Hhealthy. left. reflexivity. }
      rewrite Hc. exists w1. split; [reflexivity | exact HJ]. }
    assert (Hlog : forall message (w0 : world E),
               exists w1, append_log log message w0 = (Ok tt, w1)
                          /\ JOBS w1 = JOBS w0).
    { intros message w0. unfold append_log, bind.
      destruct (call_returns
                  (AppendText log (Str.rstrip message ++ Str.newline)) w0)
        as (r0 & w1 & Hc & HJ).
      { apply Hhealthy. right. eexists. reflexivity. }
      rewrite Hc. exists w1. split; [reflexivity | exact HJ]. }
    match goal with
    | |- fst (fst ?run) = _ /\ _ => destruct run as [[r o] w'] eqn:Hrun
    end.
    unfold bind at 1 in Hrun.
    destruct (Hmk w3) as (wa & Ha & HJa). rewrite Ha in Hrun.
    fold log in Hrun.
    destruct (Hlog ("Downloading URL: " ++ sanitize_url_for_logs url) wa)
      as (wb & Hb & HJb).
    rewrite Hb in Hrun.
    unfold bind at 1 in Hrun.
    destruct (Hmk wb) as (wc & Hc & HJc). rewrite Hc in Hrun. fold log in Hrun.
    unfold bind at 1 in Hrun.
    match type of Hrun with
    | context [append_log log ?m wc] =>
        destruct (Hlog m wc) as (wd & Hd & HJd); rewrite Hd in Hrun
    end.
    rewrite update_job_eq in Hrun. injection Hrun as <- _ <-.
    cbn [fst snd JOBS].
    split; [reflexivity |].
    rewrite HJd, HJc, HJb, HJa. subst w3. cbn [JOBS].
    rewrite jobs_get_update, Hj3. cbn [option_map].
    eexists. split; reflexivity.
Qed.

Lemma call_trace (c : syscall) (w : world E) :
  trace (snd (call c w)) = (trace w ++ [c])%list.
Proof.
  unfold call. destruct (sys c (env w)) as [r e']. destruct (raised r); reflexivity.
Qed.

Lemma run_checked_trace cmd (w : world E) :
  trace (snd (run_checked cmd w)) = (trace w ++ [Subprocess cmd])%list.
Proof.
  unfold run_checked, bind.
  pose proof (call_trace (Subprocess cmd) w) as H.
  destruct (call (Subprocess cmd) w) as [[r | e] w1]; simpl in H; [| exact H].
  destruct (returncode r =? 0)%Z; exact H.
Qed.

Lemma run_checked_JOBS cmd (w : world E) :
  JOBS (snd (run_checked cmd w)) = JOBS w.
Proof.
  apply (keeps_bind (call _) _ (keeps_call _)). intro r.
  destruct (returncode r =? 0)%Z; [apply keeps_ret | apply keeps_raise].
Qed.

Lemma make_clips_trace (source_path filter_chain fps run_dir : string)
    (segments : list segment) :
  forall (idx : nat) (w : world E) r w',
    make_clips source_path filter_chain fps run_dir idx segments w = (r, w') ->
    exists k,
      (k <= List.length segments)%nat /\
      trace w'
      = (trace w
         ++ map Subprocess
              (firstn k (clip_cmds source_path filter_chain fps run_dir idx
                           segments)))%list /\
      JOBS w' = JOBS w /\
      (forall clips,
          r = Ok clips ->
          k = List.length segments /\
          clips = map (clip_file run_dir) (seq idx (List.length segments))).
Proof.
  induction segments as [| sg rest IH]; intros idx w r w' H.
  - injection H as <- <-. exists 0%nat. simpl. rewrite app_nil_r.
    repeat split; try lia. injection H as <-. reflexivity.
  - cbn [make_clips] in H. cbn [clip_cmds]. unfold get_start, get_end.
    destruct (seg_start sg) as [s |].
    2: { injection H as <- <-. exists 0%nat. simpl. rewrite app_nil_r.
         repeat split; try lia; discriminate. }
    destruct (seg_end sg) as [e |].
    2: { injection H as <- <-. exists 0%nat. simpl. rewrite app_nil_r.
         repeat split; try lia; discriminate. }
    unfold bind at 1 in H. fold (clip_file run_dir idx) in H.
    pose proof (run_checked_trace
                  (clip_cmd (str_float s) (str_float e) source_path filter_chain
                     fps (clip_file run_dir idx)) w) as Ht.
    pose proof (run_checked_JOBS
                  (clip_cmd (str_float s) (str_float e) source_path filter_chain
                     fps (clip_file run_dir idx)) w) as HJ.
    destruct (run_checked _ w) as [[[] | exc] w1]; cbn [snd] in Ht, HJ.
    + unfold bind in H.
      destruct (make_clips source_path filter_chain fps run_dir (S idx) rest w1)
        as [r2 w2] eqn:Hrec.
      destruct (IH _ _ _ _ Hrec) as (k & Hk & Htr & HJ' & Hok).
      exists (S k). split; [simpl; lia |].
      destruct r2 as [clips | exc]; unfold ret in H; injection H as <- <-;
        (split; [| split]);
        try (rewrite Htr, Ht, <- app_assoc; reflexivity);
        try congruence.
      intros clips' H. injection H as <-.
      destruct (Hok clips eq_refl) as [-> ->]. split; reflexivity.
    + injection H as <- <-. exists 1%nat. cbn [firstn map].
      split; [simpl; lia |].
      split; [exact Ht |]. split; [exact HJ | discriminate].
Qed.

(** X18: the clip loop of [render_video_pipeline] starts one [ffmpeg]
    process per segment, in order, each cutting its segment's own
    bounds into [clip_<idx>.mp4], and makes no other call (these
    command lines are not written to the command log); it stops at the
    first segment that fails, and when it returns the clip paths are
    those of all segments, in order. *)
Theorem make_clips_outcome (source_path filter_chain fps run_dir : string)
    (segments : list segment) (idx : nat) (w : world E) :
  let run := make_clips source_path filter_chain fps run_dir idx segments w in
  exists k,
    (k <= List.length segments)%nat /\
    trace (snd run)
    = (trace w
       ++ map Subprocess
            (firstn k (clip_cmds source_path filter_chain fps run_dir idx segments)))%list /\
    JOBS (snd run) = JOBS w /\
    (forall clips,
        fst run = Ok clips ->
        k = List.length segments /\
        clips = map (clip_file run_dir) (seq idx (List.length segments))).
Proof.
  intro run. subst run.
  destruct (make_clips source_path filter_chain fps run_dir idx segments w)
    as [r w'] eqn:H.
  exact (make_clips_trace _ _ _ _ _ _ _ _ _ H).
Qed.

(** X19: when [render_video_pipeline] gets past its first lines, the
    target width it writes into the options is the larger of the
    source width and the requested width, so never below either, the
    target height is that width times 16/9 rounded down, and no other
    key of the options is written. *)
Theorem resolve_target_covers_source (source_path : string) (opts opts1 : options)
    (w w1 : world E) :
  resolve_target source_path opts w = (Ok opts1, w1) ->
  exists source_width requested target,
    (exists info wa,
        ensure_ffmpeg_available w = (Ok tt, wa) /\
        inspect_video source_path wa = (Ok info, w1) /\
        width info = Some source_width) /\
    int_of_string (Str.before_char "x" (output_resolution opts)) = Some requested /\
    target_width opts1 = Some target /\
    target_height opts1 = Some (Z.quot (target * 16) 9) /\
    (source_width <= target)%Z /\ (requested <= target)%Z /\
    (target = source_width \/ target = requested) /\
    same_but_target opts1 opts.
Proof.
  unfold resolve_target. intro H.
  apply bind_ok in H. destruct H as ([] & wa & He & H).
  apply bind_ok in H. destruct H as (info & wb & Hi & H).
  destruct (width info) as [sw |] eqn:Hw; [| discriminate].
  destruct (int_of_string _) as [rq |] eqn:Hr; [| discriminate].
  unfold ret in H. injection H as <- <-.
  exists sw, rq, (Z.max sw rq). split; [| split; [| split; [| split]]].
  - exists info, wa. split; [exact He |]. split; assumption.
  - reflexivity.
  - reflexivity.
  - reflexivity.
  - split; [lia |]. split; [lia |]. split; [lia |].
    unfold same_but_target. destruct opts. reflexivity.
Qed.

Lemma _run_trace (cmd : list string) (cmd_log stderr_log : string)
    (w : world E) r w' :
  _run cmd cmd_log stderr_log w = (r, w') ->
  exists l,
    trace w' = (trace w ++ l)%list /\
    (forall before cmd' after,
        l = (before ++ Subprocess cmd' :: after)%list ->
        cmd' = cmd /\
        exists earlier, before = (earlier ++ [log_line cmd_log cmd])%list) /\
    (r = Ok tt -> subprocesses l = [cmd]).
Proof.
  unfold _run, bind, log_line, ret, raise. intro Hrun.
  repeat match type of Hrun with
  | context [call ?c ?w0] =>
      let H := fresh "H" in
      pose proof (call_trace c w0) as H;
      let r := fresh "r" in
      let e := fresh "e" in
      let w' := fresh "w" in
      destruct (call c w0) as [[r | e] w']; cbn [snd] in H;
      cbv beta iota in Hrun
  | context [if ?c then _ else _] => destruct c; cbv beta iota in Hrun
  end;
  injection Hrun as <- <-;
  repeat match goal with
  | H : trace ?a = _, H' : trace ?b = (trace ?a ++ _)%list |- _ =>
      rewrite H in H'; rewrite <- app_assoc in H'; cbn [app] in H'
  end;
  match goal with
  | H : trace ?a = (trace w ++ ?l)%list |- context [trace ?a] =>
      exists l; split; [exact H |]
  end;
  (split;
   [ intros before cmd' after Hl;
     repeat (destruct before as [| ? before]; cbn [app] in Hl;
             [try discriminate Hl | try discriminate Hl;
              injection Hl as <- Hl]);
     try discriminate Hl;
     try (injection Hl as <- _; split; [reflexivity |];
          first [ exists [PathExists cmd_log]; reflexivity
                | exists [PathExists cmd_log; WriteText cmd_log ""]; reflexivity ])
   | try discriminate; intros _; reflexivity ]).
Qed.

(** X20: [_run] starts no process but [cmd], and that one only after
    its command line has been appended to the command log, as the call
    just before it; when [_run] returns the process has been
    started exactly once. *)
Theorem _run_logs_before_running (cmd : list string)
    (cmd_log stderr_log : string) (w : world E) :
  let run := _run cmd cmd_log stderr_log w in
  exists l,
    trace (snd run) = (trace w ++ l)%list /\
    (forall before cmd' after,
        l = (before ++ Subprocess cmd' :: after)%list ->
        cmd' = cmd /\
        exists earlier, before = (earlier ++ [log_line cmd_log cmd])%list) /\
    (fst run = Ok tt -> subprocesses l = [cmd]).
Proof.
  intro run. subst run.
  destruct (_run cmd cmd_log stderr_log w) as [r w'] eqn:H.
  exact (_run_trace _ _ _ _ _ _ H).
Qed.

Lemma only_try {A} allowed (c : M E A) (h : exn -> M E A) :
  calls_only allowed c -> (forall e, calls_only allowed (h e)) ->
  calls_only allowed (try_except c h).
Proof.
  intros Hc Hh w. unfold try_except. destruct (Hc w) as (l1 & H1 & F1).
  destruct (c w) as [[a | e] w1]; simpl in *.
  - exists l1. split; assumption.
  - destruct (Hh e w1) as (l2 & H2 & F2). exists (l1 ++ l2)%list.
    rewrite H2, H1, app_assoc. split; [reflexivity |].
    apply Forall_app. split; assumption.
Qed.

Lemma only_map_m {A B} allowed (body : A -> M E B) (l : list A) :
  (forall a, calls_only allowed (body a)) -> calls_only allowed (map_m body l).
Proof.
  intro Hb. induction l as [| a l IH]; simpl; [apply only_ret |].
  apply only_bind; [apply Hb | intro b].
  apply only_bind; [exact IH | intro bs; apply only_ret].
Qed.

Section Permitted.
Variable opts : options.

Ltac plain_call :=
  apply only_call; split; intros _; reflexivity.

Ltac only_calls :=
  repeat first
    [ apply only_ret
    | apply only_raise
    | plain_call
    | apply only_bind; [| intros ?]
    | apply only_try; [| intros ?]
    | apply only_map_m; intros ?
    | assumption
    | match goal with
      | |- calls_only _ (if ?c then _ else _) => destruct c
      | |- calls_only _ (match ?x with _ => _ end) => destruct x
      end ].

Lemma only_run cmd cmd_log stderr_log :
  calls_only (permitted opts) (_run cmd cmd_log stderr_log).
Proof. unfold _run. only_calls. Qed.

Lemma only_concat clip_paths output_path cmd_log stderr_log :
  calls_only (permitted opts)
    (concat_clips clip_paths output_path cmd_log stderr_log).
Proof. unfold concat_clips. only_calls. Qed.

Lemma only_transitions clip_paths transition_type duration
    output_path cmd_log stderr_log :
  calls_only (permitted opts)
    (apply_transitions clip_paths transition_type duration
       output_path cmd_log stderr_log).
Proof.
  unfold apply_transitions.
  destruct (_ || _); [apply only_concat |].
  apply only_bind;
    [apply only_map_m; intro; unfold _probe_duration; only_calls | intro].
  apply only_run.
Qed.

Lemma only_overlays base_path items output_path cmd_log stderr_log :
  calls_only (permitted opts)
    (apply_overlays base_path items output_path cmd_log stderr_log).
Proof. unfold apply_overlays. destruct items; [only_calls | apply only_run]. Qed.

Lemma only_make_clips source_path filter_chain fps run_dir segments :
  forall idx,
    calls_only (permitted opts)
      (make_clips source_path filter_chain fps run_dir idx segments).
Proof.
  induction segments as [| sg rest IH]; intro idx; simpl; [apply only_ret |].
  destruct (seg_start sg); [| apply only_raise].
  destruct (seg_end sg); [| apply only_raise].
  apply only_bind; [unfold run_checked; only_calls | intro].
  apply only_bind; [apply IH | intro; apply only_ret].
Qed.

Lemma only_resolve_target source_path o :
  calls_only (permitted opts) (resolve_target source_path o).
Proof.
  unfold resolve_target, ensure_ffmpeg_available, inspect_video. only_calls.
Qed.

Lemma only_render_resolved source_path segments o pl run_dir :
  ai_visuals_enabled o = ai_visuals_enabled opts ->
  captions_enabled o = captions_enabled opts ->
  calls_only (permitted opts)
    (render_resolved source_path segments o pl run_dir).
Proof.
  intros Ha Hc.
  unfold render_resolved, join_clips, render_final.
  apply only_bind; [apply only_make_clips | intro clips].
  apply only_bind;
    [apply only_try; [apply only_transitions | intro; apply only_concat] | intro].
  apply only_bind.
  { destruct (ai_visuals_enabled o) eqn:Hv; [| apply only_ret].
    apply only_bind; [| intro; apply only_ret].
    apply only_call. split; [intro H; congruence | intros _; reflexivity]. }
  intro items.
  apply only_bind;
    [apply only_try;
     [apply only_bind; [apply only_overlays | intro; apply only_ret]
     | intro; apply only_ret] | intro].
  apply only_bind.
  { destruct (captions_enabled o) eqn:Hv; cbn [andb]; [| apply only_ret].
    destruct (Str.truthy_opt (plan_captions_srt pl)); [| apply only_ret].
    apply only_bind; [| intro; apply only_bind; [plain_call | intro; apply only_ret]].
    apply only_call. split; [intros _; reflexivity | intro H; congruence]. }
  intro. apply only_bind; [apply only_run | intro; apply only_ret].
Qed.

End Permitted.

(** X21: [render_video_pipeline] only appends to the trace, never asks
    for overlay assets when [ai_visuals_enabled] is off, and never asks
    for captions when [captions_enabled] is off, whatever the platform
    answers: the retries of [process_job], which switch these off,
    cannot fail in the collaborator that was switched off. *)
Theorem disabled_collaborators_not_called (source_path : string)
    (segments : list segment) (opts : options) (pl : plan) (run_dir : string)
    (w : world E) :
  let w' := snd (render_video_pipeline source_path segments opts pl run_dir w) in
  exists l,
    trace w' = (trace w ++ l)%list /\
    (ai_visuals_enabled opts = false ->
     forallb (fun c => negb (asks_assets c)) l = true) /\
    (captions_enabled opts = false ->
     forallb (fun c => negb (asks_captions c)) l = true).
Proof.
  intro w'. subst w'.
  assert (H : exists l,
             trace (snd (render_video_pipeline source_path segments opts pl
                           run_dir w))
             = (trace w ++ l)%list /\ Forall (permitted opts) l).
  { unfold render_video_pipeline.
    destruct (only_resolve_target opts source_path opts w) as (l1 & H1 & F1).
    assert (Hflags : forall o1 w1,
               resolve_target source_path opts w = (Ok o1, w1) ->
               ai_visuals_enabled o1 = ai_visuals_enabled opts /\
               captions_enabled o1 = captions_enabled opts).
    { intros o1 w1 Hr. unfold resolve_target in Hr.
      apply bind_ok in Hr. destruct Hr as (u & wa & _ & Hr).
      apply bind_ok in Hr. destruct Hr as (info & wb & _ & Hr).
      destruct (width info); [| discriminate].
      destruct (int_of_string _); [| discriminate].
      unfold ret in Hr. injection Hr as <- _. split; reflexivity. }
    destruct (resolve_target source_path opts w) as [[o1 | e] w1]; simpl in H1.
    - destruct (Hflags o1 w1 eq_refl) as [Ha Hc].
      destruct (only_render_resolved opts source_path segments o1 pl run_dir
                  Ha Hc w1) as (l2 & H2 & F2).
      destruct (render_resolved source_path segments o1 pl run_dir w1) as [r w2].
      simpl in *. exists (l1 ++ l2)%list. rewrite H2, H1, app_assoc.
      split; [reflexivity | apply Forall_app; split; assumption].
    - exists l1. split; assumption. }
  destruct H as (l & Ht & F). exists l. split; [exact Ht |].
  split; intro Hoff; apply forallb_forall; intros c Hc;
    rewrite Forall_forall in F; destruct (F c Hc) as [Fa Fc].
  - rewrite (Fa Hoff). reflexivity.
  - rewrite (Fc Hoff). reflexivity.
Qed.

Lemma path_join_truthy dir name : Str.truthy (Str.path_join dir name) = true.
Proof. unfold Str.path_join. destruct dir; reflexivity. Qed.

Lemma tempo_stage_first (opts : options) (p : string) :
  voiceover_input opts = Some p ->
  voiceover_pre_sped opts = false ->
  Qabs_gt (speed_of opts - 1) (1 # 100) = true ->
  In (Atempo (audio_pad 1) (py_max (5 # 10) (py_min 2 (speed_of opts))) "[vo]")
     (fst (audio_graph opts)).
Proof.
  intros Hp Hpre Hgt.
  destruct (audio_graph_split opts) as (later & -> & _).
  apply in_or_app. left.
  unfold voiceover_stages, voiceover_idx. rewrite Hp, Hpre.
  unfold speed_of in Hgt |- *. rewrite Hgt. cbn [negb andb].
  destruct (String.eqb _ "replace"); [left; reflexivity |].
  destruct (String.eqb _ "mix"); left; reflexivity.
Qed.

Lemma fail_job_returns job_id exc (w : world E) :
  (forall c e, job_dir_call RUNS_DIR job_id c -> raised (fst (sys c e)) = None) ->
  exists w', fail_job RUNS_DIR job_id exc w = (Ok tt, w').
Proof.
  intro Hh. unfold fail_job, init_job_dir, append_log.
  unfold bind at 1. unfold bind at 1.
  destruct (call_returns
              (Mkdir (Str.path_join (Str.path_join RUNS_DIR job_id) "assets")) w)
    as (r1 & w1 & H1 & _).
  { apply Hh. left. reflexivity. }
  rewrite H1. unfold ret at 1.
  unfold bind at 1. unfold bind at 1.
  match goal with
  | |- context [call ?c w1] =>
      destruct (call_returns c w1) as (r2 & w2 & H2 & _);
      [apply Hh; right; eexists; reflexivity |]; rewrite H2
  end.
  unfold ret at 1.
  unfold bind at 1. unfold bind at 1.
  match goal with
  | |- context [call ?c w2] =>
      destruct (call_returns c w2) as (r3 & w3 & H3 & _);
      [apply Hh; right; eexists; reflexivity |]; rewrite H3
  end.
  unfold ret at 1. rewrite update_job_eq. eexists. reflexivity.
Qed.

(** X25: when the job's directory and its [server.log] can be
    written, the rendering part of [process_job] returns whatever else
    the platform answers: every exception of the render, of the
    integrity check and of the notification ends in the handler. *)
Theorem rendering_always_settles
    (job_id render_source : string) (segments : list segment)
    (opts : options) (pl : plan) (run_dir : string) (w : world E) :
  (forall c e, job_dir_call RUNS_DIR job_id c -> raised (fst (sys c e)) = None) ->
  fst (process_job_rendering RUNS_DIR job_id render_source segments opts pl
         run_dir w)
  = Ok tt.
Proof.
  intro Hh. unfold process_job_rendering, try_except.
  match goal with
  | |- context [match ?body w with _ => _ end] =>
      destruct (body w) as [[[] | exc] w1]
  end.
  - reflexivity.
  - destruct (fail_job_returns job_id exc w1 Hh) as [w2 ->]. reflexivity.
Qed.

(** X26: the voiceover block of [process_job] speeds the synthesised
    file with [atempo] when the requested speed is off 1 by more than
    0.01 and hands the sped file to the renderer; unless the request
    itself set [voiceover_pre_sped], the audio graph of [render_final]
    then applies the same [atempo] factor to that file again. *)
Theorem synthesized_voiceover_sped_twice (run_dir : string)
    (opts opts' : options) (w w' : world E) :
  voiceover_enabled opts = true ->
  voiceover_pre_sped opts = false ->
  Qabs_gt (speed_of opts - 1) (1 # 100) = true ->
  speed_voiceover run_dir opts w = ((Ok tt, opts'), w') ->
  let sped := Str.path_join run_dir "voiceover_sped.mp3" in
  trace w'
  = (trace w
     ++ [Which "ffmpeg";
         Subprocess
           (apply_audio_speed_cmd (Str.path_join run_dir "voiceover.mp3") sped
              (speed_of opts))])%list /\
  In ("atempo=" ++ str_float (py_max (5 # 10) (py_min 2 (speed_of opts))))
     (apply_audio_speed_cmd (Str.path_join run_dir "voiceover.mp3") sped
        (speed_of opts)) /\
  voiceover_input opts' = Some sped /\
  In (Atempo (audio_pad 1) (py_max (5 # 10) (py_min 2 (speed_of opts))) "[vo]")
     (fst (audio_graph opts')).
Proof.
  intros Hen Hpre Hgt Hrun sped. subst sped.
  unfold speed_voiceover in Hrun. unfold speed_of in Hgt.
  rewrite Hgt in Hrun. fold (speed_of opts) in Hrun, Hgt.
  destruct (apply_audio_speed _ _ _ w) as [[[] | exc] w1] eqn:Ha;
    [| discriminate].
  injection Hrun as <- <-.
  assert (Hin : voiceover_input
                  (set_voiceover_path
                     (Some (Str.path_join run_dir "voiceover_sped.mp3")) opts)
                = Some (Str.path_join run_dir "voiceover_sped.mp3")).
  { unfold voiceover_input. cbn [voiceover_enabled voiceover_path set_voiceover_path].
    rewrite Hen, path_join_truthy. reflexivity. }
  split; [| split; [| split]].
  - unfold apply_audio_speed, ensure_ffmpeg_available, run_checked, bind in Ha.
    pose proof (call_trace (Which "ffmpeg") w) as T1.
    destruct (call (Which "ffmpeg") w) as [[r1 | e1] w2]; [| discriminate].
    cbn [snd] in T1.
    destruct (truth r1); [| discriminate]. unfold ret at 1 in Ha.
    match type of Ha with
    | context [call ?c w2] =>
        pose proof (call_trace c w2) as T2;
        destruct (call c w2) as [[r2 | e2] w3]; [| discriminate]
    end.
    cbn [snd] in T2.
    destruct (returncode r2 =? 0)%Z; [| discriminate].
    unfold ret in Ha. injection Ha as <-.
    rewrite T2, T1, <- app_assoc. reflexivity.
  - unfold apply_audio_speed_cmd. simpl. tauto.
  - exact Hin.
  - apply (tempo_stage_first _ _ Hin).
    + exact Hpre.
    + exact Hgt.
Qed.

(** X28: once an attempt has returned and its output is not smaller
    than the source, a failure of the notification cannot fail the
    job: when the line for [server.log] can be written, [process_job]
    finishes with the job ["done"] and its output set, whatever
    [send_ready_email] does, and starts no process after the two
    probes. *)
Theorem notification_failure_keeps_done
    (job_id render_source output_path : string) (opts : options)
    (run_dir : string) (w w1 w2 : world E) (j : job)
    (output_info source_info : stream_info) :
  jobs_get job_id (JOBS w) = Some j ->
  inspect_video output_path w = (Ok output_info, w1) ->
  inspect_video render_source w1 = (Ok source_info, w2) ->
  resolution_lower output_info source_info = false ->
  (forall text e,
      raised (fst (sys (AppendText (Str.path_join run_dir "server.log") text) e))
      = None) ->
  exists w',
    finish_job job_id render_source output_path opts run_dir w = (Ok tt, w') /\
    jobs_get job_id (JOBS w')
    = Some (job_update (done_fields output_path) j) /\
    subprocesses (trace w') = subprocesses (trace w2).
Proof.
  intros Hj Ho Hs Hlow Hlog.
  assert (J1 : JOBS w1 = JOBS w).
  { pose proof (keeps_inspect output_path w) as K. rewrite Ho in K. exact K. }
  assert (J2 : JOBS w2 = JOBS w1).
  { pose proof (keeps_inspect render_source w1) as K. rewrite Hs in K. exact K. }
  unfold finish_job, bind. rewrite Ho, Hs, Hlow, update_job_eq.
  set (w3 := mkWorld (env w2) (trace w2) _).
  assert (Hget : jobs_get job_id (JOBS w3)
                 = Some (job_update (done_fields output_path) j)).
  { subst w3. cbn [JOBS]. rewrite jobs_get_update, J2, J1, Hj. reflexivity. }
  assert (Ht : trace w3 = trace w2) by reflexivity.
  clearbody w3.
  destruct (notify_email opts) as [to_email |];
    [| exists w3; repeat split; [exact Hget | rewrite Ht; reflexivity]].
  destruct (Str.truthy to_email);
    [| exists w3; repeat split; [exact Hget | rewrite Ht; reflexivity]].
  unfold try_except, bind.
  pose proof (call_JOBS (SendReadyEmail to_email job_id) w3) as Kc.
  pose proof (call_trace (SendReadyEmail to_email job_id) w3) as Tc.
  destruct (call (SendReadyEmail to_email job_id) w3) as [[r | exc] w4];
    cbn [snd] in Tc; specialize (Kc _ _ eq_refl).
  - exists w4. unfold ret. split; [reflexivity |]. split; [congruence |].
    rewrite Tc, subprocesses_app, Ht. simpl. apply app_nil_r.
  - unfold append_log, bind.
    match goal with
    | |- context [call ?c w4] =>
        destruct (call_returns c w4 (Hlog _ _)) as (r5 & w5 & H5 & J5);
        pose proof (call_trace c w4) as T5; rewrite H5 in T5 |- *
    end.
    cbn [snd] in T5. exists w5. unfold ret. split; [reflexivity |].
    split; [congruence |].
    rewrite T5, Tc, !subprocesses_app, Ht. simpl. rewrite !app_nil_r.
    reflexivity.
Qed.

End WithPlatform.

Lemma rendering_ends_done_or_error_witness :
  jobs_get "job1" (JOBS TestPlatform.start)
  = Some (mkJob "planning" 60 None None) /\
  process_job_rendering (P := TestPlatform.platform TestPlatform.good)
    "runs" "job1" "uploads/in.mp4" TestPlatform.demo_segments
    TestPlatform.demo_opts TestPlatform.demo_plan "runs/job1" TestPlatform.start
  = (Ok tt, snd (TestPlatform.run_demo TestPlatform.good)) /\
  (exists j',
      jobs_get "job1" (JOBS (snd (TestPlatform.run_demo TestPlatform.good)))
      = Some j' /\
      progress j' = 100%Z /\
      ((status j' = "done" /\
        output j' = Some (Str.path_join "runs/job1" "final.mp4") /\
        error j' = error (mkJob "planning" 60 None None)) \/
       (status j' = "error" /\
        exists exc,
          error j'
          = Some (str_exn (Platform := TestPlatform.platform TestPlatform.good)
                    exc)))) /\
  (forall k, k <> "job1" ->
     jobs_get k (JOBS (snd (TestPlatform.run_demo TestPlatform.good)))
     = jobs_get k (JOBS TestPlatform.start)).
Proof.
  assert (H1 : jobs_get "job1" (JOBS TestPlatform.start)
               = Some (mkJob "planning" 60 None None)) by reflexivity.
  assert (H2 : process_job_rendering
                 (P := TestPlatform.platform TestPlatform.good)
                 "runs" "job1" "uploads/in.mp4" TestPlatform.demo_segments
                 TestPlatform.demo_opts TestPlatform.demo_plan "runs/job1"
                 TestPlatform.start
               = (Ok tt, snd (TestPlatform.run_demo TestPlatform.good)))
    by (vm_compute; reflexivity).
  split; [exact H1 |]. split; [exact H2 |].
  exact (rendering_ends_done_or_error
           (P := TestPlatform.platform TestPlatform.good)
           "runs" "job1" "uploads/in.mp4" TestPlatform.demo_segments
           TestPlatform.demo_opts TestPlatform.demo_plan "runs/job1"
           TestPlatform.start (snd (TestPlatform.run_demo TestPlatform.good))
           (mkJob "planning" 60 None None) H1 H2).
Defined.

Lemma url_job_reports_disabled_witness :
  jobs_get "job1" (JOBS TestPlatform.start)
  = Some (mkJob "planning" 60 None None) /\
  let run :=
    process_job_from_url (P := TestPlatform.platform TestPlatform.good)
      "runs" "uploads" "job1" "https://example.com/v.mp4"
      TestPlatform.demo_opts TestPlatform.start in
  let r := fst (fst run) in
  let opts' := snd (fst run) in
  let w' := snd run in
  Str.lookup "source_url" (other_keys opts') = Some "https://example.com/v.mp4" /\
  (r = Ok tt ->
   exists j',
     jobs_get "job1" (JOBS w') = Some j' /\
     status j' = "error" /\ progress j' = 100%Z /\
     output j' = output (mkJob "planning" 60 None None) /\
     exists message, error j' = Some message) /\
  ((forall c e,
       job_dir_call "runs" "job1" c ->
       raised (fst (sys (Platform := TestPlatform.platform TestPlatform.good)
                      c e)) = None) ->
   r = Ok tt /\
   exists j',
     jobs_get "job1" (JOBS w') = Some j' /\
     error j' = Some "URL download is disabled.").
Proof.
  assert (H1 : jobs_get "job1" (JOBS TestPlatform.start)
               = Some (mkJob "planning" 60 None None)) by reflexivity.
  split; [exact H1 |].
  exact (url_job_reports_disabled
           (P := TestPlatform.platform TestPlatform.good)
           "runs" "uploads" "job1" "https://example.com/v.mp4"
           TestPlatform.demo_opts TestPlatform.start
           (mkJob "planning" 60 None None) H1).
Defined.

(** The URL job on the test platform: it returns, and the job carries
    the error of the disabled download. *)
Example url_job_demo :
  let run :=
    process_job_from_url (P := TestPlatform.platform TestPlatform.good)
      "runs" "uploads" "job1" "https://example.com/v.mp4"
      TestPlatform.demo_opts TestPlatform.start in
  fst (fst run) = Ok tt /\
  jobs_get "job1" (JOBS (snd run))
  = Some (mkJob "error" 100 (Some "URL download is disabled.") None) /\
  subprocesses (trace (snd run)) = [].
Proof. vm_compute. repeat split. Qed.

Lemma resolve_target_covers_source_witness :
  resolve_target (P := TestPlatform.platform TestPlatform.good)
    "uploads/in.mp4" TestPlatform.demo_opts TestPlatform.start
  = (Ok (set_target_height (Some 1920%Z)
           (set_target_width (Some 1080%Z) TestPlatform.demo_opts)),
     snd (resolve_target (P := TestPlatform.platform TestPlatform.good)
            "uploads/in.mp4" TestPlatform.demo_opts TestPlatform.start)) /\
  exists source_width requested target,
    (exists info wa,
        ensure_ffmpeg_available (P := TestPlatform.platform TestPlatform.good)
          TestPlatform.start = (Ok tt, wa) /\
        inspect_video (P := TestPlatform.platform TestPlatform.good)
          "uploads/in.mp4" wa
        = (Ok info,
           snd (resolve_target (P := TestPlatform.platform TestPlatform.good)
                  "uploads/in.mp4" TestPlatform.demo_opts TestPlatform.start)) /\
        width info = Some source_width) /\
    int_of_string (Platform := TestPlatform.platform TestPlatform.good)
      (Str.before_char "x" (output_resolution TestPlatform.demo_opts))
    = Some requested /\
    target_width
      (set_target_height (Some 1920%Z)
         (set_target_width (Some 1080%Z) TestPlatform.demo_opts))
    = Some target /\
    target_height
      (set_target_height (Some 1920%Z)
         (set_target_width (Some 1080%Z) TestPlatform.demo_opts))
    = Some (Z.quot (target * 16) 9) /\
    (source_width <= target)%Z /\ (requested <= target)%Z /\
    (target = source_width \/ target = requested) /\
    same_but_target
      (set_target_height (Some 1920%Z)
         (set_target_width (Some 1080%Z) TestPlatform.demo_opts))
      TestPlatform.demo_opts.
Proof.
  assert (H : resolve_target (P := TestPlatform.platform TestPlatform.good)
                "uploads/in.mp4" TestPlatform.demo_opts TestPlatform.start
              = (Ok (set_target_height (Some 1920%Z)
                       (set_target_width (Some 1080%Z) TestPlatform.demo_opts)),
                 snd (resolve_target
                        (P := TestPlatform.platform TestPlatform.good)
                        "uploads/in.mp4" TestPlatform.demo_opts
                        TestPlatform.start)))
    by (vm_compute; reflexivity).
  split; [exact H |].
  exact (resolve_target_covers_source
           (P := TestPlatform.platform TestPlatform.good)
           "uploads/in.mp4" TestPlatform.demo_opts _ TestPlatform.start _ H).
Defined.

Lemma rendering_always_settles_witness :
  (forall c e,
      job_dir_call "runs" "job1" c ->
      raised (fst (sys (Platform := TestPlatform.platform
                          (TestPlatform.mkBehaviour true true true "480x854"))
                     c e)) = None) /\
  fst (process_job_rendering
         (P := TestPlatform.platform
                 (TestPlatform.mkBehaviour true true true "480x854"))
         "runs" "job1" "uploads/in.mp4" TestPlatform.demo_segments
         TestPlatform.demo_opts TestPlatform.demo_plan "runs/job1"
         TestPlatform.start)
  = Ok tt.
Proof.
  assert (H : forall c e,
             job_dir_call "runs" "job1" c ->
             raised (fst (sys (Platform := TestPlatform.platform
                                 (TestPlatform.mkBehaviour true true true
                                    "480x854"))
                            c e)) = None).
  { intros c e [-> | [text ->]]; reflexivity. }
  split; [exact H |].
  exact (rendering_always_settles
           (P := TestPlatform.platform
                   (TestPlatform.mkBehaviour true true true "480x854"))
           "runs" "job1" "uploads/in.mp4" TestPlatform.demo_segments
           TestPlatform.demo_opts TestPlatform.demo_plan "runs/job1"
           TestPlatform.start H).
Defined.

Lemma synthesized_voiceover_sped_twice_witness :
  voiceover_enabled (set_voiceover_path None (voiceover_opts (3 # 2) "mix" false)) = true /\
  voiceover_pre_sped (set_voiceover_path None (voiceover_opts (3 # 2) "mix" false)) = false /\
  Qabs_gt (speed_of (set_voiceover_path None (voiceover_opts (3 # 2) "mix" false)) - 1) (1 # 100) = true /\
  speed_voiceover (P := TestPlatform.platform TestPlatform.good) "runs/job1"
    (set_voiceover_path None (voiceover_opts (3 # 2) "mix" false)) TestPlatform.start
  = ((Ok tt,
      (set_voiceover_path (Some "runs/job1/voiceover_sped.mp3")
       (set_voiceover_path None (voiceover_opts (3 # 2) "mix" false)))),
     (snd (speed_voiceover (P := TestPlatform.platform TestPlatform.good)
          "runs/job1" (set_voiceover_path None (voiceover_opts (3 # 2) "mix" false))
          TestPlatform.start))) /\
  let sped := Str.path_join "runs/job1" "voiceover_sped.mp3" in
  trace
    (snd (speed_voiceover (P := TestPlatform.platform TestPlatform.good)
          "runs/job1" (set_voiceover_path None (voiceover_opts (3 # 2) "mix" false))
          TestPlatform.start))
  = (trace TestPlatform.start
     ++ [Which "ffmpeg";
         Subprocess
           (apply_audio_speed_cmd
              (P := TestPlatform.platform TestPlatform.good)
              (Str.path_join "runs/job1" "voiceover.mp3") sped
              (speed_of (set_voiceover_path None (voiceover_opts (3 # 2) "mix" false))))])%list /\
  In ("atempo="
      ++ str_float (Platform := TestPlatform.platform TestPlatform.good)
           (py_max (5 # 10) (py_min 2 (speed_of (set_voiceover_path None (voiceover_opts (3 # 2) "mix" false))))))
     (apply_audio_speed_cmd (P := TestPlatform.platform TestPlatform.good)
        (Str.path_join "runs/job1" "voiceover.mp3") sped
        (speed_of (set_voiceover_path None (voiceover_opts (3 # 2) "mix" false)))) /\
  voiceover_input
    (set_voiceover_path (Some "runs/job1/voiceover_sped.mp3")
       (set_voiceover_path None (voiceover_opts (3 # 2) "mix" false)))
  = Some sped /\
  In (Atempo (audio_pad 1)
        (py_max (5 # 10) (py_min 2 (speed_of (set_voiceover_path None (voiceover_opts (3 # 2) "mix" false))))) "[vo]")
     (fst (audio_graph
             (set_voiceover_path (Some "runs/job1/voiceover_sped.mp3")
       (set_voiceover_path None (voiceover_opts (3 # 2) "mix" false))))).
Proof.
  assert (H1 : voiceover_enabled (set_voiceover_path None (voiceover_opts (3 # 2) "mix" false)) = true) by reflexivity.
  assert (H2 : voiceover_pre_sped (set_voiceover_path None (voiceover_opts (3 # 2) "mix" false)) = false) by reflexivity.
  assert (H3 : Qabs_gt (speed_of (set_voiceover_path None (voiceover_opts (3 # 2) "mix" false)) - 1) (1 # 100) = true) by reflexivity.
  assert (H4 : speed_voiceover (P := TestPlatform.platform TestPlatform.good)
                 "runs/job1" (set_voiceover_path None (voiceover_opts (3 # 2) "mix" false)) TestPlatform.start
               = ((Ok tt,
                   (set_voiceover_path (Some "runs/job1/voiceover_sped.mp3")
       (set_voiceover_path None (voiceover_opts (3 # 2) "mix" false)))),
                  (snd (speed_voiceover (P := TestPlatform.platform TestPlatform.good)
          "runs/job1" (set_voiceover_path None (voiceover_opts (3 # 2) "mix" false))
          TestPlatform.start))))
    by (vm_compute; reflexivity).
  split; [exact H1 |]. split; [exact H2 |]. split; [exact H3 |].
  split; [exact H4 |].
  exact (synthesized_voiceover_sped_twice
           (P := TestPlatform.platform TestPlatform.good) "runs/job1"
           _ _ _ _ H1 H2 H3 H4).
Defined.

(** The synthesised voiceover at speed 1.5: the file is sped by an
    [atempo] of 1.5 and the final graph speeds that file by 1.5
    again. *)
Example sped_twice_example :
  let run :=
    speed_voiceover (P := TestPlatform.platform TestPlatform.good) "runs/job1"
      (set_voiceover_path None (voiceover_opts (3 # 2) "mix" false))
      TestPlatform.start in
  subprocesses (trace (snd run))
  = [["ffmpeg"; "-y"; "-i"; "runs/job1/voiceover.mp3";
      "-filter:a"; "atempo=3/2"; "runs/job1/voiceover_sped.mp3"]] /\
  map (show_astage (P := TestPlatform.platform TestPlatform.good))
    (fst (audio_graph (snd (fst run))))
  = ["[1:a]atempo=3/2[vo]";
     "[0:a][vo]amix=inputs=2:duration=first:dropout_transition=2[voice]"].
Proof. vm_compute. split; reflexivity. Qed.

Lemma notification_failure_keeps_done_witness :
  let opts := set_notify_email (Some "me@example.com") TestPlatform.demo_opts in
  let w := TestPlatform.start in
  let w1 := snd (inspect_video (P := mail_down) "runs/job1/final.mp4" w) in
  let w2 := snd (inspect_video (P := mail_down) "uploads/in.mp4" w1) in
  let info := mkStreamInfo (Some 1080%Z) (Some 1920%Z) (Some "30/1") in
  jobs_get "job1" (JOBS w) = Some (mkJob "planning" 60 None None) /\
  inspect_video (P := mail_down) "runs/job1/final.mp4" w = (Ok info, w1) /\
  inspect_video (P := mail_down) "uploads/in.mp4" w1 = (Ok info, w2) /\
  resolution_lower info info = false /\
  (forall text e,
      raised (fst (sys (Platform := mail_down)
                     (AppendText (Str.path_join "runs/job1" "server.log") text)
                     e))
      = None) /\
  exists w',
    finish_job (P := mail_down) "job1" "uploads/in.mp4" "runs/job1/final.mp4"
      opts "runs/job1" w = (Ok tt, w') /\
    jobs_get "job1" (JOBS w')
    = Some (job_update (done_fields "runs/job1/final.mp4")
              (mkJob "planning" 60 None None)) /\
    subprocesses (trace w') = subprocesses (trace w2).
Proof.
  intros opts w w1 w2 info.
  assert (H1 : jobs_get "job1" (JOBS w) = Some (mkJob "planning" 60 None None))
    by reflexivity.
  assert (H2 : inspect_video (P := mail_down) "runs/job1/final.mp4" w
               = (Ok info, w1)) by (vm_compute; reflexivity).
  assert (H3 : inspect_video (P := mail_down) "uploads/in.mp4" w1
               = (Ok info, w2)) by (vm_compute; reflexivity).
  assert (H4 : resolution_lower info info = false) by reflexivity.
  assert (H5 : forall text e,
             raised (fst (sys (Platform := mail_down)
                            (AppendText (Str.path_join "runs/job1" "server.log")
                               text) e))
             = None) by (intros; reflexivity).
  split; [exact H1 |]. split; [exact H2 |]. split; [exact H3 |].
  split; [exact H4 |]. split; [exact H5 |].
  exact (notification_failure_keeps_done (P := mail_down)
           "job1" "uploads/in.mp4" "runs/job1/final.mp4" opts "runs/job1"
           w w1 w2 _ info info H1 H2 H3 H4 H5).
Defined.

(** With the mail server down the failure is logged and the job stays
    done. *)
Example mail_down_example :
  let run :=
    finish_job (P := mail_down) "job1" "uploads/in.mp4" "runs/job1/final.mp4"
      (set_notify_email (Some "me@example.com") TestPlatform.demo_opts)
      "runs/job1" TestPlatform.start in
  fst run = Ok tt /\
  jobs_get "job1" (JOBS (snd run))
  = Some (mkJob "done" 100 None (Some "runs/job1/final.mp4")) /\
  last (trace (snd run)) (Which "")
  = AppendText "runs/job1/server.log"
      ("EMAIL ERROR: Connection refused" ++ Str.newline).
Proof. vm_compute. repeat split. Qed.

End JobSpec.

(** ** app.py: subtitles from a transcript *)

Module SrtSpec.
Import AppFlow.

Lemma group_words_from {A : Type} (words : list A) :
  forall chunk : list A,
    (List.length chunk < 6)%nat ->
    let groups := group_words chunk words in
    List.concat groups = (chunk ++ words)%list /\
    Forall (fun g => (1 <= List.length g <= 6)%nat) groups /\
    Forall (fun g => List.length g = 6%nat) (removelast groups) /\
    List.length groups = ((List.length chunk + List.length words + 5) / 6)%nat.
Proof.
  induction words as [| word rest IH]; intros chunk Hc groups; subst groups.
  - cbn [group_words]. rewrite app_nil_r, Nat.add_0_r.
    destruct chunk as [| c chunk].
    + simpl. repeat split; constructor.
    + cbn [List.concat removelast List.length]. rewrite app_nil_r.
      repeat split; try constructor; try (simpl in *; lia); try constructor.
      simpl in Hc. apply Nat.div_unique with (r := (List.length chunk)%nat);
        lia.
  - cbn [group_words].
    assert (Hlen : List.length (chunk ++ [word]) = S (List.length chunk))
      by (rewrite length_app; simpl; lia).
    destruct (6 <=? List.length (chunk ++ [word]))%nat eqn:Hfull.
    + apply Nat.leb_le in Hfull.
      destruct (IH [] ltac:(simpl; lia)) as (Hcat & Hall & Hfront & Hn).
      split; [| split; [| split]].
      * cbn [List.concat]. rewrite Hcat, <- app_assoc. reflexivity.
      * constructor; [lia | exact Hall].
      * cbn [removelast].
        destruct (group_words [] rest) as [| g gs] eqn:Hg; [constructor |].
        constructor; [lia | exact Hfront].
      * cbn [List.length]. rewrite Hn. simpl List.length.
        replace (List.length chunk + S (List.length rest) + 5)%nat
          with (1 * 6 + (0 + List.length rest + 5))%nat by lia.
        rewrite Nat.div_add_l by lia. lia.
    + apply Nat.leb_gt in Hfull.
      destruct (IH (chunk ++ [word])%list Hfull) as (Hcat & Hall & Hfront & Hn).
      split; [| split; [| split]].
      * rewrite Hcat, <- app_assoc. reflexivity.
      * exact Hall.
      * exact Hfront.
      * rewrite Hn, Hlen. simpl List.length. f_equal. lia.
Qed.

(** X22: the word loop of [build_srt_from_stt] cuts the words into
    consecutive groups without losing, repeating or reordering a word:
    no group is empty, every group but the last has exactly six words,
    the last has at most six, and there are [ceil(n / 6)] groups. *)
Theorem group_words_partition {A : Type} (words : list A) :
  let groups := group_words [] words in
  List.concat groups = words /\
  Forall (fun g => (1 <= List.length g <= 6)%nat) groups /\
  Forall (fun g => List.length g = 6%nat) (removelast groups) /\
  List.length groups = ((List.length words + 5) / 6)%nat.
Proof.
  exact (group_words_from words [] ltac:(simpl; lia)).
Qed.

(** X23: the four numbers [format_srt_time] prints recombine to the
    time in whole milliseconds: minutes and seconds lie in 0..59 and
    milliseconds in 0..999 for every input, also a negative one, and
    the hours are not negative when the time is not. *)
Theorem srt_fields_decompose (seconds : Q) :
  let '(hours, minutes, secs, ms) := srt_fields seconds in
  (0 <= minutes < 60)%Z /\ (0 <= secs < 60)%Z /\ (0 <= ms < 1000)%Z /\
  (((hours * 60 + minutes) * 60 + secs) * 1000 + ms
   = int_of_float (seconds * 1000))%Z /\
  (0 <= seconds -> (0 <= hours)%Z).
Proof.
  unfold srt_fields.
  set (millis := int_of_float (seconds * 1000)).
  assert (Hpos : 0 <= seconds -> (0 <= millis)%Z).
  { intro H. subst millis. unfold int_of_float.
    apply Z.quot_pos; [| reflexivity].
    unfold Qle in H. simpl in *. lia. }
  pose proof (Z.div_mod millis 3600000 ltac:(lia)) as H1.
  pose proof (Z.mod_pos_bound millis 3600000 ltac:(lia)) as B1.
  set (m1 := (millis mod 3600000)%Z) in *.
  pose proof (Z.div_mod m1 60000 ltac:(lia)) as H2.
  pose proof (Z.mod_pos_bound m1 60000 ltac:(lia)) as B2.
  set (m2 := (m1 mod 60000)%Z) in *.
  pose proof (Z.div_mod m2 1000 ltac:(lia)) as H3.
  pose proof (Z.mod_pos_bound m2 1000 ltac:(lia)) as B3.
  assert (Hm : (0 <= m1 / 60000 < 60)%Z).
  { split; [apply Z.div_pos; lia | apply Z.div_lt_upper_bound; lia]. }
  assert (Hs : (0 <= m2 / 1000 < 60)%Z).
  { split; [apply Z.div_pos; lia | apply Z.div_lt_upper_bound; lia]. }
  split; [exact Hm |]. split; [exact Hs |]. split; [exact B3 |].
  split; [lia |].
  intro H. apply Z.div_pos; [apply Hpos; exact H | lia].
Qed.

(** A negative time prints as the last minute of hour [-1]. *)
Example format_srt_time_negative :
  format_srt_time (-1) = "-1:59:59,000".
Proof. vm_compute. reflexivity. Qed.

Example format_srt_time_example :
  format_srt_time (3725 + (5 # 10)) = "01:02:05,500".
Proof. vm_compute. reflexivity. Qed.

End SrtSpec.

(** ** ai/gemini_plan.py: which requests [get_plan] makes *)

Module GeminiPlanSpec.
Import GeminiPlan.

Section Client.
Variable S : Type.
Variable plan : Type.
Variable generate_content : request -> S -> res string * S.
Variable json_loads : string -> option plan.

Lemma get_plan_body_returns prompt file_obj model
    (w w' : client_world S) (f : flow (plan * string)) :
  get_plan_body S plan generate_content json_loads prompt file_obj model w
  = (Ok f, w') ->
  exists p, f = Return (p, prompt).
Proof.
  unfold get_plan_body. intro H.
  destruct (ask S generate_content _ w) as [[response | e] w1]; [| discriminate].
  destruct (parse_json_response plan json_loads response) as [p | e].
  - injection H as <- _. exists p. reflexivity.
  - destruct (ask S generate_content _ w1) as [[retry | e2] w2]; [| discriminate].
    destruct (parse_json_response plan json_loads retry) as [p | e3];
      [| discriminate].
    injection H as <- _. exists p. reflexivity.
Qed.

(** X27: [get_plan] never consults [fallback_models]: it makes one
    request to [model_name], a second one to the same model, with the
    reminder to return JSON, exactly when the first response does not
    decode, and no other; its result does not depend on the fallback
    list, and an exception of the client is not retried. *)
Theorem get_plan_never_falls_back (prompt file_obj model_name : string)
    (fallback_models : list string) (w : client_world S) :
  let run :=
    get_plan S plan generate_content json_loads prompt file_obj model_name
      fallback_models w in
  let first := mkRequest model_name [Text prompt; FileObj file_obj] in
  let retry :=
    mkRequest model_name
      [Text "Return valid JSON only."; Text prompt; FileObj file_obj] in
  run
  = get_plan S plan generate_content json_loads prompt file_obj model_name [] w /\
  (requests S (snd run) = (requests S w ++ [first])%list \/
   requests S (snd run) = (requests S w ++ [first; retry])%list /\
   exists response,
     fst (generate_content first (service S w)) = Ok response /\
     json_loads (Str.strip response) = None) /\
  (forall e,
      fst (generate_content first (service S w)) = Raise e ->
      fst run = Raise e /\
      requests S (snd run) = (requests S w ++ [first])%list) /\
  (forall p given, fst run = Ok (p, given) -> given = prompt).
Proof.
  intros run first retry. subst run.
  unfold get_plan. cbn [for_each_return].
  pose proof (get_plan_body_returns prompt file_obj model_name w) as Hret.
  unfold get_plan_body in *. fold first. fold first in Hret.
  fold retry. fold retry in Hret.
  unfold ask in *. cbn [service requests] in *.
  destruct (generate_content first (service S w)) as [[response | e] s1];
    cbn [fst snd service requests] in *.
  - unfold parse_json_response in *.
    destruct (json_loads (Str.strip response)) as [p |] eqn:Hp.
    + cbn [fst snd requests]. split; [reflexivity |].
      split; [left; reflexivity |]. split; [discriminate |].
      intros p0 given H. injection H as _ <-. reflexivity.
    + destruct (generate_content retry s1) as [[text | e] s2];
        cbn [fst snd service requests] in *.
      * destruct (json_loads (Str.strip text)) as [p |];
          cbn [fst snd requests]; (split; [reflexivity |]);
          (split;
           [right; split;
            [rewrite <- app_assoc; reflexivity
            | exists response; split; [reflexivity | exact Hp]] |]);
          (split; [discriminate |]); intros p0 given H;
          [injection H as _ <-; reflexivity | discriminate].
      * split; [reflexivity |].
        split;
          [right; split;
           [rewrite <- app_assoc; reflexivity
           | exists response; split; [reflexivity | exact Hp]] |].
        split; [discriminate |]. discriminate.
  - split; [reflexivity |]. split; [left; reflexivity |].
    split; [| discriminate].
    intros e0 H. injection H as <-. split; reflexivity.
Qed.

End Client.

(** A service that answers with text that is no JSON, then with a
    plan: the second request goes to the same model, none to the
    fallback. *)
Example get_plan_retry_example :
  let generate (r : request) (n : nat) : res string * nat :=
    (Ok (match n with O => "not json" | _ => "{}" end), S n) in
  let loads (text : string) : option nat :=
    if String.eqb text "{}" then Some 0%nat else None in
  let run :=
    get_plan nat nat generate loads "PROMPT" "files/abc" "gemini-main"
      ["gemini-fallback"] (mkClient nat 0%nat []) in
  fst run = Ok (0%nat, "PROMPT") /\
  map req_model (requests nat (snd run)) = ["gemini-main"; "gemini-main"].
Proof. vm_compute. split; reflexivity. Qed.

End GeminiPlanSpec.
